(** * Page compression envelope of InnoDB (fil0pagecompress.cc)

    A shallow embedding of [fil_compress_page] and [fil_decompress_page]
    as they appear in [storage/maria/ma_rnext.c] (second document of that
    file, lines 213-532 and 537-792), and the properties of the
    page-compression layer proved over it.

    Conventions of the embedding
    - a C buffer is a [list byte]; a pointer [p + off] is the pair of the
      buffer and the offset; every access outside the buffer is undefined
      behaviour and makes the run [Undefined]; the buffers handed to a
      call do not overlap;
    - [ulint], [ulong] and [size_t] are 64-bit unsigned, [int] is 32-bit
      signed, [unsigned int] is 32-bit unsigned; arguments of these types
      are taken in range and the wrap-around of the arithmetic the source
      does on them is written out;
    - [ut_error], a failing [ut_a] and, in a [UNIV_DEBUG] build, a failing
      [ut_ad] abort the process: the run is [Fatal];
    - the codec primitives of zlib, LZ4, LZO, LZMA, bzip2 and snappy are
      parameters: a primitive is a function from what the source hands
      it to its return value, the length it reports and the bytes it
      stores at its destination;
    - the server statistics, the diagnostic log and the list of codec
      invocations form the [world] threaded through every call; calls
      run one after the other;
    - [DBUG_LOG] tracing and the release of heap blocks are not
      modelled. *)

From Stdlib Require Import ZArith List Lia Bool String.
From coqutil Require Import Byte.
Import ListNotations.
Local Open Scope Z_scope.

Set Implicit Arguments.

(** ** Machine integers *)

Definition ulint (z : Z) : Z := z mod 2 ^ 64.
Definition to_uint (z : Z) : Z := z mod 2 ^ 32.
Definition to_int (z : Z) : Z := (z + 2 ^ 31) mod 2 ^ 32 - 2 ^ 31.

(** [(unsigned int * )&x] on a little-endian 64-bit [ulint]: a store
    through the cast pointer replaces the low 32 bits of [x]. *)
Definition store_low32 (x v : Z) : Z := x - to_uint x + to_uint v.

(** ** Buffers *)

Definition bytes := list byte.

Definition blen (m : bytes) : Z := Z.of_nat (List.length m).

Definition mem_read (m : bytes) (off n : Z) : option bytes :=
  if (0 <=? off) && (0 <=? n) && (off + n <=? blen m)
  then Some (firstn (Z.to_nat n) (skipn (Z.to_nat off) m))
  else None.

Definition mem_write (m : bytes) (off : Z) (d : bytes) : option bytes :=
  if (0 <=? off) && (off + blen d <=? blen m)
  then Some (firstn (Z.to_nat off) m ++ d ++ skipn (Z.to_nat (off + blen d)) m)
  else None.

(** [memset(m + off, c, n)] *)
Definition memset (m : bytes) (off : Z) (c : byte) (n : Z) : option bytes :=
  if 0 <=? n then mem_write m off (repeat c (Z.to_nat n)) else None.

(** The bytes from [m + off] to the end of the buffer: what a primitive
    that is given no source length can read. *)
Definition mem_from (m : bytes) (off : Z) : option bytes :=
  if (0 <=? off) && (off <=? blen m) then Some (skipn (Z.to_nat off) m) else None.

Definition zero_byte : byte := Byte.x00.

(** ** Big-endian fields

    Modelled from the spec: [mach_write_to_2/4/8] and
    [mach_read_from_2/4/8] (mach0data.ic) are not part of the sources at
    hand; the spec fixes the format: all multi-byte integers of the page
    header are big-endian. A write stores the low bytes of its argument. *)

Fixpoint be_encode (n : nat) (v : Z) : bytes :=
  match n with
  | O => []
  | S k => byte.of_Z (Z.shiftr v (8 * Z.of_nat k)) :: be_encode k v
  end.

Definition be_decode (bs : bytes) : Z :=
  fold_left (fun acc b => acc * 256 + byte.unsigned b) bs 0.

Definition mach_write_to_2 (m : bytes) (off n : Z) : option bytes :=
  mem_write m off (be_encode 2 n).
Definition mach_write_to_4 (m : bytes) (off n : Z) : option bytes :=
  mem_write m off (be_encode 4 n).
Definition mach_write_to_8 (m : bytes) (off n : Z) : option bytes :=
  mem_write m off (be_encode 8 n).

Definition mach_read_from_2 (m : bytes) (off : Z) : option Z :=
  option_map be_decode (mem_read m off 2).
Definition mach_read_from_4 (m : bytes) (off : Z) : option Z :=
  option_map be_decode (mem_read m off 4).
Definition mach_read_from_8 (m : bytes) (off : Z) : option Z :=
  option_map be_decode (mem_read m off 8).

(** Modelled from the spec: [ut_uint64_align_up] (ut0byte.ic) is not part
    of the sources at hand; the spec says the length is aligned, that is
    rounded, up to the block size. *)
Definition ut_uint64_align_up (n align_no : Z) : Z :=
  (n + align_no - 1) / align_no * align_no.

(** ** The world: statistics, diagnostics, codec invocations *)

Record fil_space_t := {
  id : Z;
  name : string;
  flags : Z;
  printed_compression_failure : bool
}.

Definition set_printed_compression_failure (s : fil_space_t) : fil_space_t :=
  {| id := id s; name := name s; flags := flags s;
     printed_compression_failure := true |}.

Record srv_stats_t := {
  page_compression_saved : Z;
  pages_page_compressed : Z;
  pages_page_compression_error : Z;
  pages_page_decompressed : Z
}.

(** What [ib::warn], [ib::error] and [buf_page_print] put in the log, with
    the values the source streams into each message. *)
Inductive event :=
| WarnCompressionFailed (space_id : Z) (space_name : string)
    (len err write_size : Z) (method : string)
| ErrCorruptCRC (crc ptype len : Z)
| ErrCorruptSize (actual_size : Z) (method : string)
| ErrUncompressFailed (space_id : Z) (space_name : string)
    (err actual_size len : Z) (method : string)
| PagePrinted.

Inductive codec_call :=
| CompressCall (method : Z)
| DecompressCall (method : Z).

Record world := {
  srv_stats : srv_stats_t;
  diag : list event;
  calls : list codec_call
}.

(** ** Runs: state passing with abort and undefined behaviour *)

Inductive outcome (A : Type) :=
| Done (a : A) (w : world)
| Fatal (w : world)
| Undefined.

Arguments Fatal {A} w.
Arguments Undefined {A}.

Definition M (A : Type) := world -> outcome A.

Definition ret {A} (a : A) : M A := fun w => Done a w.

Definition bind {A B} (c : M A) (k : A -> M B) : M B :=
  fun w => match c w with
           | Done a w' => k a w'
           | Fatal w' => Fatal w'
           | Undefined => Undefined
           end.

Declare Scope run_scope.
Delimit Scope run_scope with run.
Notation "x <- c ;; k" := (bind c (fun x => k))
  (at level 61, c at next level, right associativity) : run_scope.
Notation "c ;;; k" := (bind c (fun _ => k))
  (at level 61, right associativity) : run_scope.
Local Open Scope run_scope.

(** A memory access: out of bounds is undefined behaviour. *)
Definition access {A} (o : option A) : M A :=
  fun w => match o with Some a => Done a w | None => Undefined end.

Definition ut_error {A} : M A := fun w => Fatal w.

Definition ut_a (b : bool) : M unit :=
  if b then ret tt else ut_error.

Definition record_event (e : event) (w : world) : world :=
  {| srv_stats := srv_stats w; diag := diag w ++ [e]; calls := calls w |}.

Definition record_call (c : codec_call) (w : world) : world :=
  {| srv_stats := srv_stats w; diag := diag w; calls := calls w ++ [c] |}.

Definition with_stats (f : srv_stats_t -> srv_stats_t) (w : world) : world :=
  {| srv_stats := f (srv_stats w); diag := diag w; calls := calls w |}.

Definition emit (e : event) : M unit := fun w => Done tt (record_event e w).

Definition invoke (c : codec_call) : M unit := fun w => Done tt (record_call c w).

Definition update_stats (f : srv_stats_t -> srv_stats_t) : M unit :=
  fun w => Done tt (with_stats f w).

Definition add_page_compression_saved (n : Z) (s : srv_stats_t) :=
  {| page_compression_saved := ulint (page_compression_saved s + n);
     pages_page_compressed := pages_page_compressed s;
     pages_page_compression_error := pages_page_compression_error s;
     pages_page_decompressed := pages_page_decompressed s |}.

Definition inc_pages_page_compressed (s : srv_stats_t) :=
  {| page_compression_saved := page_compression_saved s;
     pages_page_compressed := ulint (pages_page_compressed s + 1);
     pages_page_compression_error := pages_page_compression_error s;
     pages_page_decompressed := pages_page_decompressed s |}.

Definition inc_pages_page_compression_error (s : srv_stats_t) :=
  {| page_compression_saved := page_compression_saved s;
     pages_page_compressed := pages_page_compressed s;
     pages_page_compression_error := ulint (pages_page_compression_error s + 1);
     pages_page_decompressed := pages_page_decompressed s |}.

Definition inc_pages_page_decompressed (s : srv_stats_t) :=
  {| page_compression_saved := page_compression_saved s;
     pages_page_compressed := pages_page_compressed s;
     pages_page_compression_error := pages_page_compression_error s;
     pages_page_decompressed := ulint (pages_page_decompressed s + 1) |}.

(** ** What the sources at hand do not define

    The constants of the page format and of the codec libraries, the build
    options, the server variables and the collaborators of other modules
    are parameters of the embedding. *)

(** Constants of fil0fil.h, fsp0types.h, buf0checksum.h and
    fil0pagecompress.h, and the success codes of the codec libraries. *)
Class Consts := {
  FIL_PAGE_SPACE_OR_CHKSUM : Z;
  FIL_PAGE_TYPE : Z;
  FIL_PAGE_FILE_FLUSH_LSN_OR_KEY_VERSION : Z;
  FIL_PAGE_SPACE_ID : Z;
  FIL_PAGE_DATA : Z;
  FIL_PAGE_COMPRESSED_SIZE : Z;
  FIL_PAGE_COMPRESSION_METHOD_SIZE : Z;
  FIL_PAGE_TYPE_FSP_HDR : Z;
  FIL_PAGE_TYPE_XDES : Z;
  FIL_PAGE_PAGE_COMPRESSED : Z;
  FIL_PAGE_PAGE_COMPRESSED_ENCRYPTED : Z;
  BUF_NO_CHECKSUM_MAGIC : Z;
  PAGE_UNCOMPRESSED : Z;
  PAGE_ZLIB_ALGORITHM : Z;
  PAGE_LZ4_ALGORITHM : Z;
  PAGE_LZO_ALGORITHM : Z;
  PAGE_LZMA_ALGORITHM : Z;
  PAGE_BZIP2_ALGORITHM : Z;
  PAGE_SNAPPY_ALGORITHM : Z;
  Z_OK : Z;
  LZO_E_OK : Z;
  LZMA_OK : Z;
  BZ_OK : Z;
  SNAPPY_OK : Z;
  LZO1X_1_15_MEM_COMPRESS : Z
}.

(** Preprocessor symbols. [UNIV_PAGECOMPRESS_DEBUG] is commented out in
    the source and therefore never defined. *)
Class Build := {
  UNIV_DEBUG : bool;
  HAVE_LZ4 : bool;
  HAVE_LZ4_COMPRESS_DEFAULT : bool;
  HAVE_LZO : bool;
  HAVE_LZMA : bool;
  HAVE_BZIP2 : bool;
  HAVE_SNAPPY : bool
}.

(** Server variables read by the two functions. *)
Class Vars := {
  UNIV_PAGE_SIZE : Z;
  innodb_compression_algorithm : Z;
  page_zip_level : Z;
  srv_use_trim : bool
}.

(** What a codec primitive leaves behind: its return value, the length it
    stores through its length pointer, and the bytes it stored at the
    destination pointer. The first two are values of their C types
    ([int] or an enumeration, and an unsigned length). *)
Record prim := { status : Z; produced : Z; stored : bytes }.

(** The LZ4 primitives have no length pointer: the return value is all. *)
Record prim_int := { ret_val : Z; stored_int : bytes }.

(** The codec primitives, each with the arguments the source passes that
    the primitive can depend on: the source bytes (exactly the source
    length given, or everything from the source pointer on for
    [LZ4_decompress_fast], which is given none), then capacities, sizes
    and levels in the order of the C call. *)
Class Codecs := {
  compress2 : bytes -> Z -> Z -> prim;
  uncompress : bytes -> Z -> prim;
  LZ4_compress_default : bytes -> Z -> prim_int;
  LZ4_compress_limitedOutput : bytes -> Z -> prim_int;
  LZ4_decompress_fast : bytes -> Z -> prim_int;
  lzo1x_1_15_compress : bytes -> prim;
  lzo1x_decompress : bytes -> prim;
  lzma_easy_buffer_encode : Z -> bytes -> Z -> prim;
  lzma_stream_buffer_decode : bytes -> Z -> prim;
  BZ2_bzBuffToBuffCompress : bytes -> Z -> prim;
  BZ2_bzBuffToBuffDecompress : bytes -> Z -> prim;
  snappy_max_compressed_length : Z -> Z;
  snappy_compress : bytes -> Z -> prim;
  snappy_uncompress : bytes -> Z -> prim
}.

(** Collaborators of other modules, and the contents of fresh heap memory
    ([heap_junk site i] is byte [i] of the block allocated at the
    [site]-th [ut_malloc_nokey] of the two functions). *)
Class Collab := {
  FSP_FLAGS_GET_ZIP_SSIZE : Z -> Z;
  fil_get_compression_alg_name : Z -> string;
  fil_space_acquire_for_io : Z -> option fil_space_t;
  buf_page_is_corrupted : bytes -> option fil_space_t -> bool;
  heap_junk : nat -> Z -> byte
}.

(** The locals a codec [switch] leaves behind, and the way it is left. *)
Record compress_locals := {
  c_err : Z;
  c_write_size : Z;
  c_out_buf : bytes
}.

Inductive compress_exit :=
| CBreak (l : compress_locals)
| CErrExit (l : compress_locals)
| CReturnBuf.

Record decompress_locals := {
  d_err : Z;
  d_len : Z;
  d_in_buf : bytes
}.

Inductive decompress_exit :=
| DBreak (l : decompress_locals)
| DErrExit (l : decompress_locals).

(** What the caller of [fil_compress_page] sees afterwards: which pointer
    was returned, the contents of [buf] and of a caller-supplied
    [out_buf], [*out_len], and the tablespace object. *)
Inductive returned_ptr := RetBuf | RetOutBuf.

Record compress_result := {
  r_ptr : returned_ptr;
  r_buf : bytes;
  r_out_buf : option bytes;
  r_out_len : Z;
  r_space : option fil_space_t
}.

(** The page behind the returned pointer. *)
Definition returned_page (r : compress_result) : bytes :=
  match r_ptr r, r_out_buf r with
  | RetOutBuf, Some ob => ob
  | _, _ => r_buf r
  end.

(** For the statements: a caller-supplied output buffer as the call leaves
    it, and whether the call had to allocate one. *)
Definition caller_view (out_buf : option bytes) (o : bytes) : option bytes :=
  match out_buf with None => None | Some _ => Some o end.

Definition is_allocated (out_buf : option bytes) : bool :=
  match out_buf with None => true | Some _ => false end.

(** What the caller of [fil_decompress_page] sees afterwards: the
    contents of [buf], of a caller-supplied [page_buf], and
    [*write_size]. *)
Record decompress_result := {
  dr_buf : bytes;
  dr_page_buf : option bytes;
  dr_write_size : option Z
}.

Section Model.

Context {K : Consts} {B : Build} {V : Vars} {C : Codecs} {X : Collab}.

(** Modelled from the spec: the assertion macros (ut0dbg.h) are not part
    of the sources at hand. The spec has violated caller contracts as
    defensive invariants, not runtime conditions, and the failure
    without report mode as fatal for the process: [ut_error] and a
    failing [ut_a] abort, and [ut_ad] is [ut_a] in a [UNIV_DEBUG] build
    and nothing otherwise. *)
Definition ut_ad (b : bool) : M unit :=
  if UNIV_DEBUG then ut_a b else ret tt.

Definition ut_malloc_nokey (site : nat) (size : Z) : bytes :=
  map (fun i => heap_junk site (Z.of_nat i)) (seq 0 (Z.to_nat size)).

(** Modelled from the spec: [fil_page_get_type], and
    [fil_page_is_compressed] and [fil_page_is_compressed_encrypted] of
    the debug checks (fil0fil.ic), are not part of the sources at hand;
    the spec has the page-type tag read from a fixed offset, where
    [fil_decompress_page] reads it with [mach_read_from_2]. *)
Definition fil_page_get_type (buf : bytes) : option Z :=
  mach_read_from_2 buf FIL_PAGE_TYPE.

Definition space_name_or (dflt : string) (space : option fil_space_t) : string :=
  match space with Some s => name s | None => dflt end.

(** *** fil_decompress_page *)

(** The [switch (ptype)] of lines 563-574. *)
Definition compressed_header_len (ptype : Z) : option Z :=
  if ptype =? FIL_PAGE_PAGE_COMPRESSED_ENCRYPTED then
    Some (FIL_PAGE_DATA + FIL_PAGE_COMPRESSED_SIZE
          + FIL_PAGE_COMPRESSION_METHOD_SIZE)
  else if ptype =? FIL_PAGE_PAGE_COMPRESSED then
    Some (FIL_PAGE_DATA + FIL_PAGE_COMPRESSED_SIZE)
  else None.

(** Lines 601-606: where the algorithm id is read from. *)
Definition read_compression_alg (ptype : Z) (buf : bytes) : option Z :=
  if ptype =? FIL_PAGE_PAGE_COMPRESSED_ENCRYPTED then
    mach_read_from_2 buf (FIL_PAGE_DATA + FIL_PAGE_COMPRESSED_SIZE)
  else
    mach_read_from_8 buf FIL_PAGE_FILE_FLUSH_LSN_OR_KEY_VERSION.

(** Line 609. *)
Definition read_actual_size (buf : bytes) : option Z :=
  mach_read_from_2 buf FIL_PAGE_DATA.

(** One arm of the decompression [switch]: the primitive stores its output
    at [in_buf]; [failed] is the test the arm makes on the result, and
    [len'] the value the arm leaves in [len] on the way to [err_exit]. *)
Definition decompress_arm (alg : Z) (in_buf : bytes) (err : Z)
    (out : bytes) (failed : bool) (len_ok len_failed : Z)
  : M decompress_exit :=
  invoke (DecompressCall alg);;;
  in_buf' <- access (mem_write in_buf 0 out);;
  if failed
  then ret (DErrExit {| d_err := err; d_len := len_failed; d_in_buf := in_buf' |})
  else ret (DBreak {| d_err := err; d_len := len_ok; d_in_buf := in_buf' |}).

(** The [switch (compression_alg)] of lines 632-759. After each
    [goto err_exit] the source tests [return_error], which is never
    reached. *)
Definition decompress_switch (compression_alg : Z) (buf in_buf : bytes)
    (header_len actual_size len : Z) : M decompress_exit :=
  if compression_alg =? PAGE_ZLIB_ALGORITHM then
    src <- access (mem_read buf header_len actual_size);;
    let r := uncompress src len in
    let err := status r in
    decompress_arm compression_alg in_buf err (stored r)
      (negb (err =? Z_OK)) (produced r) (produced r)
  else if HAVE_LZ4 && (compression_alg =? PAGE_LZ4_ALGORITHM) then
    src <- access (mem_from buf header_len);;
    let r := LZ4_decompress_fast src (to_int len) in
    let err := ret_val r in
    decompress_arm compression_alg in_buf err (stored_int r)
      (negb (err =? to_int actual_size)) len len
  else if HAVE_LZO && (compression_alg =? PAGE_LZO_ALGORITHM) then
    src <- access (mem_read buf header_len actual_size);;
    let r := lzo1x_decompress src in
    let err := status r in
    let olen := produced r in
    decompress_arm compression_alg in_buf err (stored r)
      (negb (err =? LZO_E_OK) || ((olen =? 0) || (UNIV_PAGE_SIZE <? olen)))
      len olen
  else if HAVE_LZMA && (compression_alg =? PAGE_LZMA_ALGORITHM) then
    src <- access (mem_read buf header_len actual_size);;
    let r := lzma_stream_buffer_decode src len in
    let dst_pos := produced r in
    (* the status is kept in [ret]; [err] stays 0 *)
    decompress_arm compression_alg in_buf 0 (stored r)
      (negb (status r =? LZMA_OK) || ((dst_pos =? 0) || (UNIV_PAGE_SIZE <? dst_pos)))
      len dst_pos
  else if HAVE_BZIP2 && (compression_alg =? PAGE_BZIP2_ALGORITHM) then
    src <- access (mem_read buf header_len actual_size);;
    let r := BZ2_bzBuffToBuffDecompress src (to_uint UNIV_PAGE_SIZE) in
    let err := status r in
    let dst_pos := produced r in
    decompress_arm compression_alg in_buf err (stored r)
      (negb (err =? BZ_OK) || ((dst_pos =? 0) || (UNIV_PAGE_SIZE <? dst_pos)))
      len dst_pos
  else if HAVE_SNAPPY && (compression_alg =? PAGE_SNAPPY_ALGORITHM) then
    src <- access (mem_read buf header_len actual_size);;
    let r := snappy_uncompress src UNIV_PAGE_SIZE in
    let olen := produced r in
    let failed :=
      negb (status r =? SNAPPY_OK) || ((olen =? 0) || (UNIV_PAGE_SIZE <? olen)) in
    decompress_arm compression_alg in_buf
      (if failed then status r else 0) (stored r) failed len olen
  else
    ret (DErrExit {| d_err := 0; d_len := len; d_in_buf := in_buf |}).

(** [err_exit] of lines 774-791. The function ends after [ut_ad(0)]: a
    build without [UNIV_DEBUG] returns from here, with [in_buf] not
    freed. *)
Definition decompress_err_exit (page_buf : option bytes) (buf : bytes)
    (write_size : option Z) (compression_alg actual_size : Z)
    (l : decompress_locals) : M decompress_result :=
  space_id <- access (mach_read_from_4 buf FIL_PAGE_SPACE_ID);;
  let space := fil_space_acquire_for_io space_id in
  emit (ErrUncompressFailed space_id (space_name_or "NULL" space)
          (d_err l) actual_size (d_len l)
          (fil_get_compression_alg_name compression_alg));;;
  emit PagePrinted;;;
  ut_ad false;;;
  ret {| dr_buf := buf;
         dr_page_buf := option_map (fun _ => d_in_buf l) page_buf;
         dr_write_size := write_size |}.

(** [error_return] of lines 767-772. *)
Definition decompress_error_return (page_buf : option bytes) (buf in_buf : bytes)
    (write_size : option Z) : M decompress_result :=
  ret {| dr_buf := buf;
         dr_page_buf := option_map (fun _ => in_buf) page_buf;
         dr_write_size := write_size |}.

(** Of the assertions on the arguments, [ut_ad(buf)] holds of every
    buffer of the embedding; [write_size] is [None] for a null pointer. *)
Definition fil_decompress_page (page_buf : option bytes) (buf : bytes)
    (len : Z) (write_size : option Z) (return_error : bool)
  : M decompress_result :=
  ut_ad (negb (len =? 0));;;
  ptype <- access (mach_read_from_2 buf FIL_PAGE_TYPE);;
  match compressed_header_len ptype with
  | None =>
      (* The page is not in our format. *)
      ret {| dr_buf := buf; dr_page_buf := page_buf;
             dr_write_size := write_size |}
  | Some header_len =>
      let in_buf :=
        match page_buf with
        | None => repeat zero_byte (Z.to_nat UNIV_PAGE_SIZE)
        | Some pb => pb
        end in
      crc <- access (mach_read_from_4 buf FIL_PAGE_SPACE_OR_CHKSUM);;
      if negb (crc =? BUF_NO_CHECKSUM_MAGIC)
         || (negb (ptype =? FIL_PAGE_PAGE_COMPRESSED)
             && negb (ptype =? FIL_PAGE_PAGE_COMPRESSED_ENCRYPTED))
      then
        emit (ErrCorruptCRC crc ptype len);;;
        if return_error
        then decompress_error_return page_buf buf in_buf write_size
        else ut_error
      else
        compression_alg <- access (read_compression_alg ptype buf);;
        actual_size <- access (read_actual_size buf);;
        if (actual_size =? 0) || (UNIV_PAGE_SIZE <? actual_size)
        then
          emit (ErrCorruptSize actual_size
                  (fil_get_compression_alg_name compression_alg));;;
          if return_error
          then decompress_error_return page_buf buf in_buf write_size
          else ut_error
        else
          let write_size := option_map (fun _ => actual_size) write_size in
          x <- decompress_switch compression_alg buf in_buf
                 header_len actual_size len;;
          match x with
          | DBreak l =>
              update_stats inc_pages_page_decompressed;;;
              d <- access (mem_read (d_in_buf l) 0 (d_len l));;
              buf' <- access (mem_write buf 0 d);;
              decompress_error_return page_buf buf' (d_in_buf l) write_size
          | DErrExit l =>
              decompress_err_exit page_buf buf write_size
                compression_alg actual_size l
          end
  end.

(** *** fil_compress_page *)

(** One arm of the compression [switch]: the primitive stores its output
    at [out_buf + header_len]; [failed] is the test the arm makes. *)
Definition compress_arm (comp_method : Z) (out_buf : bytes) (header_len : Z)
    (err write_size : Z) (out : bytes) (failed : bool) : M compress_exit :=
  invoke (CompressCall comp_method);;;
  out_buf' <- access (mem_write out_buf header_len out);;
  let l := {| c_err := err; c_write_size := write_size; c_out_buf := out_buf' |} in
  if failed then ret (CErrExit l) else ret (CBreak l).

(** The [switch (comp_method)] of lines 296-407; [write_size] is
    [UNIV_PAGE_SIZE - header_len] on entry. *)
Definition compress_switch (comp_method : Z) (buf out_buf : bytes)
    (len comp_level header_len write_size : Z) : M compress_exit :=
  let budget := ulint (UNIV_PAGE_SIZE - header_len) in
  if HAVE_LZ4 && (comp_method =? PAGE_LZ4_ALGORITHM) then
    src <- access (mem_read buf 0 (to_int len));;
    let r := (if HAVE_LZ4_COMPRESS_DEFAULT
              then LZ4_compress_default
              else LZ4_compress_limitedOutput) src (to_int write_size) in
    let err := ret_val r in
    compress_arm comp_method out_buf header_len err (ulint err) (stored_int r)
      (err =? 0)
  else if HAVE_LZO && (comp_method =? PAGE_LZO_ALGORITHM) then
    src <- access (mem_read buf 0 len);;
    (* the working memory of the primitive lies behind the page in
       [out_buf]; what the primitive leaves there is not modelled *)
    wrkmem <- access (mem_read out_buf UNIV_PAGE_SIZE LZO1X_1_15_MEM_COMPRESS);;
    let r := lzo1x_1_15_compress src in
    let err := status r in
    let write_size := produced r in
    compress_arm comp_method out_buf header_len err write_size (stored r)
      (negb (err =? LZO_E_OK) || (budget <? write_size))
  else if HAVE_LZMA && (comp_method =? PAGE_LZMA_ALGORITHM) then
    src <- access (mem_read buf 0 len);;
    let r := lzma_easy_buffer_encode (to_uint comp_level) src write_size in
    let err := status r in
    let out_pos := produced r in
    compress_arm comp_method out_buf header_len err out_pos (stored r)
      (negb (err =? LZMA_OK) || (budget <? out_pos))
  else if HAVE_BZIP2 && (comp_method =? PAGE_BZIP2_ALGORITHM) then
    src <- access (mem_read buf 0 (to_uint len));;
    let r := BZ2_bzBuffToBuffCompress src (to_uint write_size) in
    let err := status r in
    let write_size := store_low32 write_size (produced r) in
    compress_arm comp_method out_buf header_len err write_size (stored r)
      (negb (err =? BZ_OK) || (budget <? write_size))
  else if HAVE_SNAPPY && (comp_method =? PAGE_SNAPPY_ALGORITHM) then
    let write_size := snappy_max_compressed_length UNIV_PAGE_SIZE in
    src <- access (mem_read buf 0 len);;
    let r := snappy_compress src write_size in
    let cstatus := status r in
    let write_size := produced r in
    let failed := negb (cstatus =? SNAPPY_OK) || (budget <? write_size) in
    compress_arm comp_method out_buf header_len
      (if failed then cstatus else Z_OK) write_size (stored r) failed
  else if comp_method =? PAGE_ZLIB_ALGORITHM then
    src <- access (mem_read buf 0 len);;
    let r := compress2 src write_size comp_level in
    let err := status r in
    compress_arm comp_method out_buf header_len err (produced r) (stored r)
      (negb (err =? Z_OK))
  else if comp_method =? PAGE_UNCOMPRESSED then
    ret CReturnBuf
  else
    ut_error.

(** Lines 409-427: set up the page header. *)
Definition set_up_page_header (out_buf buf : bytes) (comp_method : Z)
    (encrypted : bool) (write_size : Z) : option bytes :=
  match mem_read buf 0 FIL_PAGE_DATA with
  | None => None
  | Some hdr =>
  match mem_write out_buf 0 hdr with
  | None => None
  | Some o1 =>
  match mach_write_to_4 o1 FIL_PAGE_SPACE_OR_CHKSUM BUF_NO_CHECKSUM_MAGIC with
  | None => None
  | Some o2 =>
  match mach_write_to_8 o2 FIL_PAGE_FILE_FLUSH_LSN_OR_KEY_VERSION comp_method with
  | None => None
  | Some o3 =>
  match
    (if encrypted then
       match mach_write_to_2 o3 FIL_PAGE_TYPE FIL_PAGE_PAGE_COMPRESSED_ENCRYPTED with
       | None => None
       | Some o4 =>
           mach_write_to_2 o4 (FIL_PAGE_DATA + FIL_PAGE_COMPRESSED_SIZE) comp_method
       end
     else mach_write_to_2 o3 FIL_PAGE_TYPE FIL_PAGE_PAGE_COMPRESSED)
  with
  | None => None
  | Some o5 => mach_write_to_2 o5 FIL_PAGE_DATA write_size
  end end end end end.

(** Lines 429-457, compiled under [UNIV_DEBUG] only: check the header just
    written and that the page can be decompressed. *)
Definition verify_compressed_page (space : option fil_space_t)
    (out_buf : bytes) (len write_size comp_method : Z) : M unit :=
  if UNIV_DEBUG then
    ptype <- access (mach_read_from_2 out_buf FIL_PAGE_TYPE);;
    ut_ad ((ptype =? FIL_PAGE_PAGE_COMPRESSED)
           || (ptype =? FIL_PAGE_PAGE_COMPRESSED_ENCRYPTED));;;
    crc <- access (mach_read_from_4 out_buf FIL_PAGE_SPACE_OR_CHKSUM);;
    ut_ad (crc =? BUF_NO_CHECKSUM_MAGIC);;;
    sz <- access (mach_read_from_2 out_buf FIL_PAGE_DATA);;
    ut_ad (sz =? write_size);;;
    a8 <- access (mach_read_from_8 out_buf FIL_PAGE_FILE_FLUSH_LSN_OR_KEY_VERSION);;
    (if a8 =? comp_method then ret tt
     else
       a2 <- access (mach_read_from_2 out_buf
                       (FIL_PAGE_DATA + FIL_PAGE_COMPRESSED_SIZE));;
       ut_ad (a2 =? comp_method));;;
    comp_page <- access (mem_read out_buf 0 UNIV_PAGE_SIZE);;
    let uncomp_page := ut_malloc_nokey 2 UNIV_PAGE_SIZE in
    r <- fil_decompress_page (Some uncomp_page) comp_page len None false;;
    match dr_page_buf r with
    | Some uncomp_page' =>
        if buf_page_is_corrupted uncomp_page' space
        then emit PagePrinted;;; ut_ad false
        else ret tt
    | None => ret tt
    end
  else ret tt.

(** [err_exit] and [exit_free] of lines 504-531; [out_buf] is the
    caller-supplied output buffer, if any, as the function leaves it. *)
Definition compress_err_exit (space : option fil_space_t) (buf : bytes)
    (out_buf : option bytes) (len err write_size comp_method : Z)
  : M compress_result :=
  space' <-
    match space with
    | Some s =>
        if negb (printed_compression_failure s) then
          emit (WarnCompressionFailed (id s) (name s) len err write_size
                  (fil_get_compression_alg_name comp_method));;;
          ret (Some (set_printed_compression_failure s))
        else ret space
    | None => ret space
    end;;
  update_stats inc_pages_page_compression_error;;;
  ret {| r_ptr := RetBuf; r_buf := buf; r_out_buf := out_buf;
         r_out_len := len; r_space := space' |}.

(** Lines 459-477: add the header, align on the block size, clean the
    end of the block. Returns the new [write_size] and [out_buf]. *)
Definition align_write_size (out_buf : bytes) (write_size header_len block_size : Z)
  : M (Z * bytes) :=
  let write_size := ulint (write_size + header_len) in
  let block_size := if block_size <=? 0 then 512 else block_size in
  ut_ad ((0 <? write_size) && (0 <? block_size));;;
  if negb (write_size mod block_size =? 0) then
    let tmp := write_size in
    let write_size := ulint (ut_uint64_align_up write_size block_size) in
    out_buf' <- access (memset out_buf tmp zero_byte (ulint (write_size - tmp)));;
    (if UNIV_DEBUG then
       ut_a ((0 <? write_size) && (write_size mod block_size =? 0));;;
       ut_a (tmp <=? write_size)
     else ret tt);;;
    ret (write_size, out_buf')
  else ret (write_size, out_buf).

(** Lines 247-266: the caller's output buffer or, without one, a fresh
    block. Both snappy and lzo need an output buffer bigger than the
    input buffer. *)
Definition output_buffer (comp_method : Z) (out_buf : option bytes) : bytes :=
  match out_buf with
  | Some o => o
  | None =>
      let size := UNIV_PAGE_SIZE in
      let size :=
        if HAVE_SNAPPY && (comp_method =? PAGE_SNAPPY_ALGORITHM)
        then snappy_max_compressed_length size else size in
      let size :=
        if HAVE_LZO && (comp_method =? PAGE_LZO_ALGORITHM)
        then ulint (size + LZO1X_1_15_MEM_COMPRESS) else size in
      ut_malloc_nokey 1 size
  end.

Definition page_type_rejected (ptype : Z) : bool :=
  (ptype =? 0) || (ptype =? FIL_PAGE_TYPE_FSP_HDR)
  || (ptype =? FIL_PAGE_TYPE_XDES) || (ptype =? FIL_PAGE_PAGE_COMPRESSED).

(** Lines 409-502: the way from the [switch] to the successful return. *)
Definition compress_finish (space : option fil_space_t) (buf : bytes)
    (allocated : bool) (len block_size : Z) (encrypted : bool)
    (header_len comp_method : Z) (l : compress_locals) : M compress_result :=
  let write_size := c_write_size l in
  out1 <- access (set_up_page_header (c_out_buf l) buf comp_method
                    encrypted write_size);;
  verify_compressed_page space out1 len write_size comp_method;;;
  a <- align_write_size out1 write_size header_len block_size;;
  let write_size := fst a in
  let out2 := snd a in
  update_stats (add_page_compression_saved (ulint (len - write_size)));;;
  update_stats inc_pages_page_compressed;;;
  (* If we do not persistently trim rest of page, we need to write
     it all *)
  b <- (if negb srv_use_trim then
          o <- access (memset out2 write_size zero_byte
                         (ulint (len - write_size)));;
          ret (len, o)
        else ret (write_size, out2));;
  let write_size := fst b in
  let out3 := snd b in
  if allocated then
    d <- access (mem_read out3 0 len);;
    buf' <- access (mem_write buf 0 d);;
    ret {| r_ptr := RetBuf; r_buf := buf'; r_out_buf := None;
           r_out_len := write_size; r_space := space |}
  else
    ret {| r_ptr := RetOutBuf; r_buf := buf; r_out_buf := Some out3;
           r_out_len := write_size; r_space := space |}.

(** Of the assertions on the arguments, [ut_ad(buf)], [ut_ad(out_buf)]
    and [ut_ad(out_len)] hold of every buffer of the embedding. *)
Definition fil_compress_page (space : option fil_space_t) (buf : bytes)
    (out_buf : option bytes) (len level block_size : Z) (encrypted : bool)
  : M compress_result :=
  let err := Z_OK in
  let comp_level := to_int level in
  let header_len := FIL_PAGE_DATA + FIL_PAGE_COMPRESSED_SIZE in
  let write_size := 0 in
  (* Cache to avoid change during function execution *)
  let comp_method := innodb_compression_algorithm in
  ut_ad (match space with
         | Some s => FSP_FLAGS_GET_ZIP_SSIZE (flags s) =? 0
         | None => true
         end);;;
  let header_len :=
    if encrypted then header_len + FIL_PAGE_COMPRESSION_METHOD_SIZE
    else header_len in
  let allocated := match out_buf with None => true | Some _ => false end in
  let caller_out (o : bytes) := if allocated then None else Some o in
  let out_buf0 := output_buffer comp_method out_buf in
  ut_ad (negb (len =? 0));;;
  (* Let's not compress file space header or extent descriptor *)
  ptype <- access (fil_page_get_type buf);;
  if page_type_rejected ptype then
    compress_err_exit space buf (caller_out out_buf0) len err write_size comp_method
  else
    (* If no compression level was provided to this table, use system
       default level *)
    let comp_level := if comp_level =? 0 then page_zip_level else comp_level in
    let write_size := ulint (UNIV_PAGE_SIZE - header_len) in
    x <- compress_switch comp_method buf out_buf0 len comp_level
           header_len write_size;;
    match x with
    | CReturnBuf =>
        ret {| r_ptr := RetBuf; r_buf := buf; r_out_buf := caller_out out_buf0;
               r_out_len := len; r_space := space |}
    | CErrExit l =>
        compress_err_exit space buf (caller_out (c_out_buf l)) len
          (c_err l) (c_write_size l) comp_method
    | CBreak l =>
        compress_finish space buf allocated len block_size encrypted
          header_len comp_method l
    end.

End Model.

(** ** The codec calls, seen uniformly

    For the statements below, the call the compression [switch] makes for
    [comp_method] on the source bytes [src], as (success status?, payload
    length as the source keeps it in [write_size], bytes stored at the
    destination); [None] when [comp_method] has no codec arm. *)

Section Views.

Context {K : Consts} {B : Build} {V : Vars} {C : Codecs}.

Definition codec_compress (comp_method : Z) (src : bytes)
    (comp_level header_len : Z) : option (bool * Z * bytes) :=
  let budget := ulint (UNIV_PAGE_SIZE - header_len) in
  if HAVE_LZ4 && (comp_method =? PAGE_LZ4_ALGORITHM) then
    let r := (if HAVE_LZ4_COMPRESS_DEFAULT
              then LZ4_compress_default
              else LZ4_compress_limitedOutput) src (to_int budget) in
    Some (negb (ret_val r =? 0), ulint (ret_val r), stored_int r)
  else if HAVE_LZO && (comp_method =? PAGE_LZO_ALGORITHM) then
    let r := lzo1x_1_15_compress src in
    Some (status r =? LZO_E_OK, produced r, stored r)
  else if HAVE_LZMA && (comp_method =? PAGE_LZMA_ALGORITHM) then
    let r := lzma_easy_buffer_encode (to_uint comp_level) src budget in
    Some (status r =? LZMA_OK, produced r, stored r)
  else if HAVE_BZIP2 && (comp_method =? PAGE_BZIP2_ALGORITHM) then
    let r := BZ2_bzBuffToBuffCompress src (to_uint budget) in
    Some (status r =? BZ_OK, to_uint (produced r), stored r)
  else if HAVE_SNAPPY && (comp_method =? PAGE_SNAPPY_ALGORITHM) then
    let r := snappy_compress src (snappy_max_compressed_length UNIV_PAGE_SIZE) in
    Some (status r =? SNAPPY_OK, produced r, stored r)
  else if comp_method =? PAGE_ZLIB_ALGORITHM then
    let r := compress2 src budget comp_level in
    Some (status r =? Z_OK, produced r, stored r)
  else None.

(** The header length and the compression level [fil_compress_page]
    works with. *)
Definition compress_header_len (encrypted : bool) : Z :=
  if encrypted
  then FIL_PAGE_DATA + FIL_PAGE_COMPRESSED_SIZE + FIL_PAGE_COMPRESSION_METHOD_SIZE
  else FIL_PAGE_DATA + FIL_PAGE_COMPRESSED_SIZE.

(** The page type [fil_compress_page] marks a compressed page with. *)
Definition header_marker (encrypted : bool) : Z :=
  if encrypted then FIL_PAGE_PAGE_COMPRESSED_ENCRYPTED
  else FIL_PAGE_PAGE_COMPRESSED.

(** C3 as it is stated: in the encrypted variant the header carries no
    8-byte algorithm id, that is, [set_up_page_header] leaves in that
    field what the copy of the page header put there. *)
Definition algorithm_field_in_plain_variant_only : Prop :=
  forall out_buf buf comp_method write_size o,
    set_up_page_header out_buf buf comp_method true write_size = Some o ->
    mach_read_from_8 o FIL_PAGE_FILE_FLUSH_LSN_OR_KEY_VERSION
    = mach_read_from_8 buf FIL_PAGE_FILE_FLUSH_LSN_OR_KEY_VERSION.

(** The block size [fil_compress_page] aligns on. *)
Definition effective_block_size (block_size : Z) : Z :=
  if block_size <=? 0 then 512 else block_size.

Definition effective_level (level : Z) : Z :=
  if to_int level =? 0 then page_zip_level else to_int level.

(** The LZO arm uses [LZO1X_1_15_MEM_COMPRESS] bytes behind the page in
    the output buffer as the working memory of the primitive. *)
Definition working_memory_fits (comp_method : Z) (out_buf : bytes) : Prop :=
  HAVE_LZO && (comp_method =? PAGE_LZO_ALGORITHM) = true ->
  0 <= LZO1X_1_15_MEM_COMPRESS /\
  UNIV_PAGE_SIZE + LZO1X_1_15_MEM_COMPRESS <= blen out_buf.

(** The algorithms with an arm in the compression [switch] of this
    build. *)
Definition supported_algorithm (comp_method : Z) : Prop :=
  comp_method = PAGE_UNCOMPRESSED
  \/ comp_method = PAGE_ZLIB_ALGORITHM
  \/ (HAVE_LZ4 = true /\ comp_method = PAGE_LZ4_ALGORITHM)
  \/ (HAVE_LZO = true /\ comp_method = PAGE_LZO_ALGORITHM)
  \/ (HAVE_LZMA = true /\ comp_method = PAGE_LZMA_ALGORITHM)
  \/ (HAVE_BZIP2 = true /\ comp_method = PAGE_BZIP2_ALGORITHM)
  \/ (HAVE_SNAPPY = true /\ comp_method = PAGE_SNAPPY_ALGORITHM).

(** The arms for zlib and LZ4 pass the budget to the primitive as its
    output capacity and do not test the produced length themselves. *)
Definition relies_on_capacity (comp_method : Z) : bool :=
  (HAVE_LZ4 && (comp_method =? PAGE_LZ4_ALGORITHM))
  || (negb (HAVE_LZO && (comp_method =? PAGE_LZO_ALGORITHM))
      && negb (HAVE_LZMA && (comp_method =? PAGE_LZMA_ALGORITHM))
      && negb (HAVE_BZIP2 && (comp_method =? PAGE_BZIP2_ALGORITHM))
      && negb (HAVE_SNAPPY && (comp_method =? PAGE_SNAPPY_ALGORITHM))
      && (comp_method =? PAGE_ZLIB_ALGORITHM)).

(** The call the decompression [switch] makes for [alg] on the bytes
    [from] that start at [buf + header_len], as (accepted by the arm?,
    the length the arm leaves in [len] when it accepts, bytes stored at
    [in_buf]). *)
Definition codec_decompress (alg : Z) (from : bytes) (actual_size len : Z)
  : option (bool * Z * bytes) :=
  let src := firstn (Z.to_nat actual_size) from in
  let in_range n := negb ((n =? 0) || (UNIV_PAGE_SIZE <? n)) in
  if alg =? PAGE_ZLIB_ALGORITHM then
    let r := uncompress src len in
    Some (status r =? Z_OK, produced r, stored r)
  else if HAVE_LZ4 && (alg =? PAGE_LZ4_ALGORITHM) then
    let r := LZ4_decompress_fast from (to_int len) in
    Some (ret_val r =? to_int actual_size, len, stored_int r)
  else if HAVE_LZO && (alg =? PAGE_LZO_ALGORITHM) then
    let r := lzo1x_decompress src in
    Some ((status r =? LZO_E_OK) && in_range (produced r), len, stored r)
  else if HAVE_LZMA && (alg =? PAGE_LZMA_ALGORITHM) then
    let r := lzma_stream_buffer_decode src len in
    Some ((status r =? LZMA_OK) && in_range (produced r), len, stored r)
  else if HAVE_BZIP2 && (alg =? PAGE_BZIP2_ALGORITHM) then
    let r := BZ2_bzBuffToBuffDecompress src (to_uint UNIV_PAGE_SIZE) in
    Some ((status r =? BZ_OK) && in_range (produced r), len, stored r)
  else if HAVE_SNAPPY && (alg =? PAGE_SNAPPY_ALGORITHM) then
    let r := snappy_uncompress src UNIV_PAGE_SIZE in
    Some ((status r =? SNAPPY_OK) && in_range (produced r), len, stored r)
  else None.

(** The codec of [comp_method] inverts itself on [page]: whenever its
    compress primitive succeeds on the page (within the budget, where the
    arm tests that itself; for zlib and LZ4, which are handed the budget
    as their capacity, whenever it succeeds), the payload is within the
    budget and not empty, its length is the reported one, and the
    decompress primitive, started on that payload whatever follows it in
    the buffer, is accepted and stores [page], all of it. *)
Definition codec_inverts (comp_method : Z) (page : bytes)
    (comp_level header_len : Z) : Prop :=
  forall n payload,
    codec_compress comp_method page comp_level header_len = Some (true, n, payload) ->
    relies_on_capacity comp_method = true
    \/ n <= ulint (UNIV_PAGE_SIZE - header_len) ->
    n <= ulint (UNIV_PAGE_SIZE - header_len) /\
    n = blen payload /\ 0 < n /\
    forall rest,
      codec_decompress comp_method (payload ++ rest) n (blen page)
      = Some (true, blen page, page).

(** What the compress primitive stores lies inside the output buffer. *)
Definition stored_output_fits (comp_method : Z) (page : bytes)
    (comp_level header_len : Z) (out_buf : bytes) : Prop :=
  forall ok n out,
    codec_compress comp_method page comp_level header_len = Some (ok, n, out) ->
    header_len + blen out <= blen out_buf.

(** The layout of the page header: the fields lie one after the other,
    the two-byte fields of the compression header have room, a page
    holds more than a header and at most 64 KiB, the markers, the magic
    number and the algorithm ids fit their fields and are distinct. *)
Record LayoutOk : Prop := {
  chksum_first : 0 <= FIL_PAGE_SPACE_OR_CHKSUM;
  chksum_type : FIL_PAGE_SPACE_OR_CHKSUM + 4 <= FIL_PAGE_TYPE;
  type_lsn : FIL_PAGE_TYPE + 2 <= FIL_PAGE_FILE_FLUSH_LSN_OR_KEY_VERSION;
  lsn_data : FIL_PAGE_FILE_FLUSH_LSN_OR_KEY_VERSION + 8 <= FIL_PAGE_DATA;
  size_room : 2 <= FIL_PAGE_COMPRESSED_SIZE;
  method_room : 2 <= FIL_PAGE_COMPRESSION_METHOD_SIZE;
  page_room :
    FIL_PAGE_DATA + FIL_PAGE_COMPRESSED_SIZE + FIL_PAGE_COMPRESSION_METHOD_SIZE
    < UNIV_PAGE_SIZE;
  page_max : UNIV_PAGE_SIZE <= 65536;
  marker_range : 0 <= FIL_PAGE_PAGE_COMPRESSED < 65536;
  marker_enc_range : 0 <= FIL_PAGE_PAGE_COMPRESSED_ENCRYPTED < 65536;
  markers_differ : FIL_PAGE_PAGE_COMPRESSED <> FIL_PAGE_PAGE_COMPRESSED_ENCRYPTED;
  magic_range : 0 <= BUF_NO_CHECKSUM_MAGIC < 2 ^ 32;
  method_range : 0 <= innodb_compression_algorithm < 65536;
  methods_differ :
    NoDup [PAGE_UNCOMPRESSED; PAGE_ZLIB_ALGORITHM; PAGE_LZ4_ALGORITHM;
           PAGE_LZO_ALGORITHM; PAGE_LZMA_ALGORITHM; PAGE_BZIP2_ALGORITHM;
           PAGE_SNAPPY_ALGORITHM]
}.

End Views.

(** ** The claims that do not hold as stated *)

Section Stated.

Context {K : Consts} {B : Build} {V : Vars} {C : Codecs} {X : Collab}.

(** A call of [fil_compress_page] on a page of a type that is not rejected on which
    the codec primitive succeeds with a payload of [n] bytes within the
    budget, and which returns [r]. *)
Definition compression_succeeds (space : option fil_space_t) (buf : bytes)
    (out_buf : option bytes) (len level block_size : Z) (encrypted : bool)
    (w : world) (n : Z) (r : compress_result) : Prop :=
  LayoutOk /\
  len = UNIV_PAGE_SIZE /\
  (forall s, space = Some s -> FSP_FLAGS_GET_ZIP_SSIZE (flags s) = 0) /\
  (exists ptype, fil_page_get_type buf = Some ptype
                 /\ page_type_rejected ptype = false) /\
  (exists src out,
     mem_read buf 0 len = Some src /\
     codec_compress innodb_compression_algorithm src (effective_level level)
       (compress_header_len encrypted) = Some (true, n, out)) /\
  0 <= n <= UNIV_PAGE_SIZE - compress_header_len encrypted /\
  UNIV_PAGE_SIZE <= blen (output_buffer innodb_compression_algorithm out_buf) /\
  working_memory_fits innodb_compression_algorithm
    (output_buffer innodb_compression_algorithm out_buf) /\
  exists w', fil_compress_page space buf out_buf len level block_size
               encrypted w = Done r w'.

(** The codec primitive succeeds on [page] with a payload within the
    budget. *)
Definition codec_succeeds (page : bytes) (level : Z) (encrypted : bool) : Prop :=
  exists n out,
    codec_compress innodb_compression_algorithm page (effective_level level)
      (compress_header_len encrypted) = Some (true, n, out) /\
    n <= UNIV_PAGE_SIZE - compress_header_len encrypted.

(** C7 as it is stated: the reported output length of every successful
    compression is the header and payload length rounded up to the block
    size, that value is at most the page size, and the bytes from the end
    of the payload to it are zero. *)
Definition output_length_is_aligned_length : Prop :=
  forall space buf out_buf len level block_size encrypted w n r,
    compression_succeeds space buf out_buf len level block_size encrypted w n r ->
    let used := compress_header_len encrypted + n in
    let aligned := ut_uint64_align_up used (effective_block_size block_size) in
    r_out_len r = aligned /\
    aligned <= UNIV_PAGE_SIZE /\
    mem_read (returned_page r) used (aligned - used)
    = Some (repeat zero_byte (Z.to_nat (aligned - used))).

End Stated.

(** ** Sequences of calls on one tablespace *)

Record compress_call := {
  cc_vars : Vars;
  cc_buf : bytes;
  cc_out_buf : option bytes;
  cc_len : Z;
  cc_level : Z;
  cc_block_size : Z;
  cc_encrypted : bool
}.

(** The calls [cs], one after the other, on the tablespace object each
    call hands on to the next; the server variables may change between
    calls. *)
Fixpoint compress_calls {K : Consts} {B : Build} {C : Codecs} {X : Collab}
    (space : option fil_space_t) (cs : list compress_call)
  : M (option fil_space_t) :=
  match cs with
  | [] => ret space
  | c :: cs' =>
      r <- fil_compress_page (V := cc_vars c) space (cc_buf c) (cc_out_buf c)
             (cc_len c) (cc_level c) (cc_block_size c) (cc_encrypted c);;
      compress_calls (r_space r) cs'
  end.

Definition is_compression_warning (e : event) : bool :=
  match e with WarnCompressionFailed _ _ _ _ _ _ => true | _ => false end.

Definition compression_warnings (w : world) : nat :=
  List.length (filter is_compression_warning (diag w)).

(** The world a run ends in, if it has one. *)
Definition final_world {A} (o : outcome A) : option world :=
  match o with
  | Done _ w => Some w
  | Fatal w => Some w
  | Undefined => None
  end.

(** The value and the world of a run that is done. *)
Definition done_value {A} (o : outcome A) (dflt : A) : A :=
  match o with Done a _ => a | _ => dflt end.

Definition done_world {A} (o : outcome A) : world :=
  match o with Done _ w => w | Fatal w => w | Undefined =>
    {| srv_stats := {| page_compression_saved := 0; pages_page_compressed := 0;
                       pages_page_compression_error := 0;
                       pages_page_decompressed := 0 |};
       diag := []; calls := [] |}
  end.

(** A computation that logs no compression warning, however it ends. *)
Definition emits_no_warning {A} (c : M A) : Prop :=
  forall w w', final_world (c w) = Some w' ->
               compression_warnings w' = compression_warnings w.

(** The warnings a tablespace may still log: one until its flag is set. *)
Definition allowance (space : option fil_space_t) : nat :=
  match space with
  | Some s => if printed_compression_failure s then 0 else 1
  | None => 0
  end.

(** A call that logs no more warnings than the tablespace may still log,
    and hands on a tablespace that may log so many fewer. *)
Definition within_allowance (space : option fil_space_t)
    (c : M compress_result) : Prop :=
  forall w,
    match c w with
    | Done r w' =>
        (compression_warnings w' + allowance (r_space r)
         <= compression_warnings w + allowance space)%nat
    | Fatal w' =>
        (compression_warnings w' <= compression_warnings w + allowance space)%nat
    | Undefined => True
    end.

(** ** A concrete configuration

    The values of MariaDB 10.2 on a 64-bit platform, a 4 KiB page, and a
    byte-oriented run-length codec in every codec slot. *)

Definition mariadb_consts : Consts := {|
  FIL_PAGE_SPACE_OR_CHKSUM := 0;
  FIL_PAGE_TYPE := 24;
  FIL_PAGE_FILE_FLUSH_LSN_OR_KEY_VERSION := 26;
  FIL_PAGE_SPACE_ID := 34;
  FIL_PAGE_DATA := 38;
  FIL_PAGE_COMPRESSED_SIZE := 2;
  FIL_PAGE_COMPRESSION_METHOD_SIZE := 2;
  FIL_PAGE_TYPE_FSP_HDR := 8;
  FIL_PAGE_TYPE_XDES := 9;
  FIL_PAGE_PAGE_COMPRESSED := 34354;
  FIL_PAGE_PAGE_COMPRESSED_ENCRYPTED := 37401;
  BUF_NO_CHECKSUM_MAGIC := 3735928559;
  PAGE_UNCOMPRESSED := 0;
  PAGE_ZLIB_ALGORITHM := 1;
  PAGE_LZ4_ALGORITHM := 2;
  PAGE_LZO_ALGORITHM := 3;
  PAGE_LZMA_ALGORITHM := 4;
  PAGE_BZIP2_ALGORITHM := 5;
  PAGE_SNAPPY_ALGORITHM := 6;
  Z_OK := 0;
  LZO_E_OK := 0;
  LZMA_OK := 0;
  BZ_OK := 0;
  SNAPPY_OK := 0;
  LZO1X_1_15_MEM_COMPRESS := 262144
|}.

(** A build with every codec linked in, with or without [UNIV_DEBUG]. *)
Definition full_build (debug : bool) : Build := {|
  UNIV_DEBUG := debug;
  HAVE_LZ4 := true; HAVE_LZ4_COMPRESS_DEFAULT := true; HAVE_LZO := true;
  HAVE_LZMA := true; HAVE_BZIP2 := true; HAVE_SNAPPY := true
|}.

Definition release_build : Build := full_build false.

Definition debug_build : Build := full_build true.

Definition zlib_vars (trim : bool) : Vars := {|
  UNIV_PAGE_SIZE := 4096;
  innodb_compression_algorithm := 1;
  page_zip_level := 6;
  srv_use_trim := trim
|}.

(** Run-length coding: a sequence of (count, byte) pairs, count at most
    255. *)
Fixpoint rle_encode_from (cur : byte) (count : Z) (l : bytes) : bytes :=
  match l with
  | [] => [byte.of_Z count; cur]
  | b :: t =>
      if Byte.eqb b cur && (count <? 255)
      then rle_encode_from cur (count + 1) t
      else byte.of_Z count :: cur :: rle_encode_from b 1 t
  end.

Definition rle_encode (l : bytes) : bytes :=
  match l with
  | [] => []
  | b :: t => rle_encode_from b 1 t
  end.

Fixpoint rle_decode (l : bytes) : bytes :=
  match l with
  | n :: b :: t => repeat b (Z.to_nat (byte.unsigned n)) ++ rle_decode t
  | _ => []
  end.

(** Decode pairs until [want] bytes are out; returns the number of source
    bytes used and the output. *)
Fixpoint rle_decode_upto (l : bytes) (want : Z) : Z * bytes :=
  match l with
  | n :: b :: t =>
      if want <=? 0 then (0, [])
      else
        let r := rle_decode_upto t (want - byte.unsigned n) in
        (fst r + 2, repeat b (Z.to_nat (byte.unsigned n)) ++ snd r)
  | _ => (0, [])
  end.

Definition rle_compress_prim (src : bytes) (capacity : Z) : prim :=
  let p := rle_encode src in
  if blen p <=? capacity
  then {| status := 0; produced := blen p; stored := p |}
  else {| status := -5; produced := capacity; stored := [] |}.

Definition rle_decompress_prim (src : bytes) (capacity : Z) : prim :=
  let x := rle_decode src in
  if blen x <=? capacity
  then {| status := 0; produced := blen x; stored := x |}
  else {| status := -5; produced := 0; stored := [] |}.

Definition rle_compress_int (src : bytes) (capacity : Z) : prim_int :=
  let p := rle_encode src in
  if blen p <=? capacity
  then {| ret_val := blen p; stored_int := p |}
  else {| ret_val := 0; stored_int := [] |}.

Definition rle_decompress_int (from : bytes) (original_size : Z) : prim_int :=
  let r := rle_decode_upto from original_size in
  if blen (snd r) =? original_size
  then {| ret_val := fst r; stored_int := snd r |}
  else {| ret_val := -1; stored_int := [] |}.

Definition rle_codecs : Codecs := {|
  compress2 := fun src cap _ => rle_compress_prim src cap;
  uncompress := rle_decompress_prim;
  LZ4_compress_default := rle_compress_int;
  LZ4_compress_limitedOutput := rle_compress_int;
  LZ4_decompress_fast := rle_decompress_int;
  lzo1x_1_15_compress := fun src => rle_compress_prim src (blen src);
  lzo1x_decompress := fun src => rle_decompress_prim src 65536;
  lzma_easy_buffer_encode := fun _ src cap => rle_compress_prim src cap;
  lzma_stream_buffer_decode := rle_decompress_prim;
  BZ2_bzBuffToBuffCompress := rle_compress_prim;
  BZ2_bzBuffToBuffDecompress := rle_decompress_prim;
  snappy_max_compressed_length := fun n => 32 + n + n / 6;
  snappy_compress := rle_compress_prim;
  snappy_uncompress := rle_decompress_prim
|}.

Definition test_space : fil_space_t := {|
  id := 7; name := "test/t1"; flags := 0;
  printed_compression_failure := false
|}.

Definition plain_collab : Collab := {|
  FSP_FLAGS_GET_ZIP_SSIZE := fun f => Z.land (Z.shiftr f 1) 15;
  fil_get_compression_alg_name := fun m =>
    if m =? 0 then "uncompressed"%string
    else if m =? 1 then "ZLIB"%string
    else if m =? 2 then "LZ4"%string
    else if m =? 3 then "LZO"%string
    else if m =? 4 then "LZMA"%string
    else if m =? 5 then "BZIP2"%string
    else if m =? 6 then "SNAPPY"%string
    else "NULL"%string;
  fil_space_acquire_for_io := fun i => if i =? 7 then Some test_space else None;
  buf_page_is_corrupted := fun _ _ => false;
  heap_junk := fun _ _ => Byte.xaa
|}.

Definition empty_world : world := {|
  srv_stats := {| page_compression_saved := 0; pages_page_compressed := 0;
                  pages_page_compression_error := 0;
                  pages_page_decompressed := 0 |};
  diag := [];
  calls := []
|}.

(** A 4 KiB page of zeros with the given page type. *)
Definition blank_page (ptype : Z) : bytes :=
  repeat zero_byte 24 ++ be_encode 2 ptype ++ repeat zero_byte 4070.

(** A 4 KiB page of the given type whose body alternates two byte values,
    which run-length coding cannot shrink. *)
Definition noisy_page (ptype : Z) : bytes :=
  repeat zero_byte 24 ++ be_encode 2 ptype
  ++ flat_map (fun _ => [Byte.x01; Byte.x02]) (seq 0 2035).

(** [fil_compress_page] on a 4 KiB page of the test tablespace, into a
    buffer of its own, with level 6, block size 512 and the plain header,
    from the empty world. *)
Definition compress_page (debug trim : bool) (page : bytes)
  : outcome compress_result :=
  fil_compress_page (K := mariadb_consts) (B := full_build debug)
    (V := zlib_vars trim) (C := rle_codecs) (X := plain_collab)
    (Some test_space) page None 4096 6 512 false empty_world.

Definition no_result : compress_result :=
  {| r_ptr := RetBuf; r_buf := []; r_out_buf := None; r_out_len := 0;
     r_space := None |}.

(** Two calls in a row on a page that does not compress. *)
Definition noisy_call : compress_call := {|
  cc_vars := zlib_vars true;
  cc_buf := noisy_page 17855;
  cc_out_buf := None;
  cc_len := 4096;
  cc_level := 6;
  cc_block_size := 512;
  cc_encrypted := false
|}.

(** A 4 KiB physical page of tablespace 7: compressed marker,
    no-checksum magic, the given algorithm id in the 8-byte field,
    payload length 2, and as payload one run of [count] zeros. *)
Definition forged_page (alg : Z) (count : byte) : bytes :=
  be_encode 4 3735928559 ++ repeat zero_byte 20 ++ be_encode 2 34354
  ++ be_encode 8 alg ++ be_encode 4 7 ++ be_encode 2 2
  ++ [count; Byte.x00] ++ repeat zero_byte 4054.

(** ** Vocabulary of the further properties *)

(** A computation whose finished runs leave [f] of the world as it
    was. *)
Definition leaves {A T} (f : world -> T) (c : M A) : Prop :=
  forall w a w', c w = Done a w' -> f w' = f w.

(** The counters of [srv_stats] that [fil_compress_page] writes. *)
Definition compress_counters (w : world) : Z * Z * Z :=
  (page_compression_saved (srv_stats w),
   pages_page_compressed (srv_stats w),
   pages_page_compression_error (srv_stats w)).

(** ** Reading the next row of an Aria index (maria_rnext)

    A shallow embedding of [maria_rnext], the first document of
    [storage/maria/ma_rnext.c] (lines 27-130).

    Conventions of the embedding
    - the handler [info], the share [info->s] and the thread's [my_errno]
      are fields of the memory the call runs on; everything else the
      storage engine keeps (pages, record buffers, caches) is the [heap],
      a parameter;
    - a pointer to a record buffer is its address, 0 for [NULL];
    - the functions of other modules that [maria_rnext] calls, and the
      two it calls through function pointers, are the [collaborator]: it
      maps the call, with the arguments the source passes, and the memory
      to the value returned and the memory left behind;
    - every call of a collaborator and every lock operation is written to
      the [trace];
    - the [while] loop runs on fuel: a run that uses it up [Spins];
    - an index outside [share->keyinfo] or [share->state.key_root] makes
      the run [Wild];
    - a run that [Spins] or is [Wild] keeps the world it stopped in;
    - [DBUG_ENTER], [DBUG_PRINT] and [DBUG_RETURN] tracing is not
      modelled. *)

Record MARIA_KEYDEF := { key_alg : Z }.

Record MARIA_SHARE := {
  keyinfo : list MARIA_KEYDEF;
  state_key_root : list Z;
  lock_key_trees : bool
}.

(** The fields of [MARIA_HA] the function reads or writes:
    [cur_row.lastpos], [update], and of [last_key] the two lengths and
    the flag. *)
Record MARIA_HA := {
  cur_row_lastpos : Z;
  update : Z;
  last_key_data_length : Z;
  last_key_ref_length : Z;
  last_key_flag : Z
}.

Record aria_mem (heap : Type) := {
  info : MARIA_HA;
  share : MARIA_SHARE;
  my_errno : Z;
  engine : heap
}.

Arguments info {heap} a.
Arguments share {heap} a.
Arguments my_errno {heap} a.
Arguments engine {heap} a.

Definition set_update {heap} (u : Z) (m : aria_mem heap) : aria_mem heap :=
  {| info := {| cur_row_lastpos := cur_row_lastpos (info m);
                update := u;
                last_key_data_length := last_key_data_length (info m);
                last_key_ref_length := last_key_ref_length (info m);
                last_key_flag := last_key_flag (info m) |};
     share := share m; my_errno := my_errno m; engine := engine m |}.

Definition set_my_errno {heap} (e : Z) (m : aria_mem heap) : aria_mem heap :=
  {| info := info m; share := share m; my_errno := e; engine := engine m |}.

(** The calls [maria_rnext] makes, with the arguments that are not the
    handler itself. [&info->last_key] and [keyinfo] point into the memory
    the collaborator is given; [keyinfo] is [share->keyinfo + inx]. *)
Inductive aria_call :=
| Call_ma_check_index (inx : Z)
| Call_fast_ma_readinfo
| Call_ma_test_if_changed
| Call_maria_rtree_get_first (inx key_length : Z)
| Call_maria_rtree_get_next (inx key_length : Z)
| Call_ma_search_first (inx pos : Z)
| Call_ma_search_next (nextflag pos : Z)
| Call_ma_search (nextflag pos : Z)
| Call_row_is_visible
| Call_ma_check_index_cond (inx buf : Z)
| Call_read_record (buf pos : Z).

Inductive aria_event :=
| Called (c : aria_call) (result : Z)
| RdLock (inx : Z)
| Unlock (inx : Z).

(** Constants of my_base.h and maria_def.h, the preprocessor symbol
    [HAVE_RTREE_KEYS], and the collaborators. *)
Class Aria := {
  heap : Type;
  SEARCH_BIGGER : Z;
  HA_OFFSET_ERROR : Z;
  HA_STATE_CHANGED : Z;
  HA_STATE_AKTIV : Z;
  HA_STATE_NEXT_FOUND : Z;
  HA_STATE_PREV_FOUND : Z;
  HA_STATE_ROW_CHANGED : Z;
  HA_ERR_KEY_NOT_FOUND : Z;
  HA_ERR_END_OF_FILE : Z;
  HA_KEY_ALG_RTREE : Z;
  HAVE_RTREE_KEYS : bool;
  collaborator : aria_call -> aria_mem heap -> Z * aria_mem heap
}.

Section AriaModel.

Context {E : Aria}.

Definition mem := aria_mem heap.

Record aria_world := {
  memory : mem;
  trace : list aria_event
}.

Inductive aria_outcome (A : Type) :=
| Returns (a : A) (w : aria_world)
| Wild (w : aria_world)
| Spins (w : aria_world).

Arguments Wild {A} w.
Arguments Spins {A} w.

Definition MA (A : Type) := aria_world -> aria_outcome A.

Definition ma_ret {A} (a : A) : MA A := fun w => Returns a w.

Definition ma_bind {A B} (c : MA A) (k : A -> MA B) : MA B :=
  fun w => match c w with
           | Returns a w' => k a w'
           | Wild w' => Wild w'
           | Spins w' => Spins w'
           end.

Declare Scope aria_scope.
Delimit Scope aria_scope with aria.
Notation "x <- c ;; k" := (ma_bind c (fun x => k))
  (at level 61, c at next level, right associativity) : aria_scope.
Notation "c ;;; k" := (ma_bind c (fun _ => k))
  (at level 61, right associativity) : aria_scope.
Local Open Scope aria_scope.

Definition look {A} (f : mem -> A) : MA A :=
  fun w => Returns (f (memory w)) w.

Definition alter (f : mem -> mem) : MA unit :=
  fun w => Returns tt {| memory := f (memory w); trace := trace w |}.

Definition note (e : aria_event) : MA unit :=
  fun w => Returns tt {| memory := memory w; trace := trace w ++ [e] |}.

Definition deref {A} (o : option A) : MA A :=
  fun w => match o with Some a => Returns a w | None => Wild w end.

Definition spin {A} : MA A := fun w => Spins w.

(** A call of a collaborator. *)
Definition call (c : aria_call) : MA Z :=
  fun w =>
    let r := collaborator c (memory w) in
    Returns (fst r) {| memory := snd r; trace := trace w ++ [Called c (fst r)] |}.

Definition _ma_check_index (inx : Z) : MA Z := call (Call_ma_check_index inx).
Definition fast_ma_readinfo : MA Z := call Call_fast_ma_readinfo.
Definition _ma_test_if_changed : MA Z := call Call_ma_test_if_changed.
Definition maria_rtree_get_first (inx key_length : Z) : MA Z :=
  call (Call_maria_rtree_get_first inx key_length).
Definition maria_rtree_get_next (inx key_length : Z) : MA Z :=
  call (Call_maria_rtree_get_next inx key_length).
Definition _ma_search_first (inx pos : Z) : MA Z :=
  call (Call_ma_search_first inx pos).
Definition _ma_search_next (nextflag pos : Z) : MA Z :=
  call (Call_ma_search_next nextflag pos).
Definition _ma_search (nextflag pos : Z) : MA Z :=
  call (Call_ma_search nextflag pos).
Definition row_is_visible : MA Z := call Call_row_is_visible.
Definition ma_check_index_cond (inx buf : Z) : MA Z :=
  call (Call_ma_check_index_cond inx buf).
Definition read_record (buf pos : Z) : MA Z := call (Call_read_record buf pos).

Definition mysql_rwlock_rdlock (inx : Z) : MA unit := note (RdLock inx).
Definition mysql_rwlock_unlock (inx : Z) : MA unit := note (Unlock inx).

(** [share->keyinfo[inx].key_alg] and [share->state.key_root[inx]]. *)
Definition key_alg_at (inx : Z) : MA Z :=
  ks <- look (fun m => keyinfo (share m));;
  k <- deref (if 0 <=? inx then nth_error ks (Z.to_nat inx) else None);;
  ma_ret (key_alg k).

Definition key_root_at (inx : Z) : MA Z :=
  rs <- look (fun m => state_key_root (share m));;
  deref (if 0 <=? inx then nth_error rs (Z.to_nat inx) else None).

(** Lines 38-41: read next, or read first when the previous read found
    nothing before the first key. *)
Definition rnext_flag (i : MARIA_HA) : Z :=
  if (cur_row_lastpos i =? HA_OFFSET_ERROR)
     && negb (Z.land (update i) HA_STATE_PREV_FOUND =? 0)
  then 0 else SEARCH_BIGGER.

(** [info->last_key.data_length + info->last_key.ref_length], an
    [uint]. *)
Definition last_key_length : MA Z :=
  look (fun m => to_uint (last_key_data_length (info m)
                          + last_key_ref_length (info m))).

(** Lines 49-90: the search for the first or for the next key. *)
Definition rnext_search (flag changed inx : Z) : MA Z :=
  alg <- key_alg_at inx;;
  if flag =? 0 then
    if HAVE_RTREE_KEYS && (alg =? HA_KEY_ALG_RTREE) then
      n <- last_key_length;;
      maria_rtree_get_first inx n
    else
      root <- key_root_at inx;;
      _ma_search_first inx root
  else
    if HAVE_RTREE_KEYS && (alg =? HA_KEY_ALG_RTREE) then
      (* rtree doesn't support that the table may be changed since last
         call *)
      n <- last_key_length;;
      maria_rtree_get_next inx n
    else
      kflag <- look (fun m => last_key_flag (info m));;
      root <- key_root_at inx;;
      if changed =? 0
      then _ma_search_next (Z.lor flag kflag) root
      else _ma_search (Z.lor flag kflag) root.

(** Lines 94-102: skip rows inserted by other threads since we got a
    lock, and rows the pushed index condition does not match. Returns
    [error] and [icp_res]. *)
Fixpoint skip_rows (fuel : nat) (buf inx icp_res : Z) : MA (Z * Z) :=
  match fuel with
  | O => spin
  | S fuel' =>
      let next icp_res :=
        root <- key_root_at inx;;
        error <- _ma_search_next SEARCH_BIGGER root;;
        if negb (error =? 0) then ma_ret (error, icp_res)
        else skip_rows fuel' buf inx icp_res in
      visible <- row_is_visible;;
      if visible =? 0 then next icp_res
      else
        icp_res <- ma_check_index_cond inx buf;;
        if icp_res =? 0 then next icp_res
        else ma_ret (0, icp_res)
  end.

(** Lines 107-129. *)
Definition rnext_finish (buf error icp_res : Z) : MA Z :=
  (* Don't clear if database-changed *)
  alter (fun m =>
            set_update (Z.land (update (info m))
                          (Z.lor HA_STATE_CHANGED HA_STATE_ROW_CHANGED)) m);;;
  alter (fun m => set_update (Z.lor (update (info m)) HA_STATE_NEXT_FOUND) m);;;
  (if icp_res =? 2
   then alter (set_my_errno HA_ERR_END_OF_FILE)
   else ma_ret tt);;;
  if negb (error =? 0) || negb (icp_res =? 1) then
    e <- look my_errno;;
    (if e =? HA_ERR_KEY_NOT_FOUND
     then alter (set_my_errno HA_ERR_END_OF_FILE)
     else ma_ret tt);;;
    look my_errno
  else if buf =? 0 then
    pos <- look (fun m => cur_row_lastpos (info m));;
    if pos =? HA_OFFSET_ERROR then look my_errno else ma_ret 0
  else
    pos <- look (fun m => cur_row_lastpos (info m));;
    r <- read_record buf pos;;
    if r =? 0 then
      (* Record is read *)
      alter (fun m => set_update (Z.lor (update (info m)) HA_STATE_AKTIV) m);;;
      ma_ret 0
    else look my_errno.

(** Read next row with the same key as previous read. *)
Definition maria_rnext (fuel : nat) (buf inx : Z) : MA Z :=
  let icp_res := 1 in
  inx <- _ma_check_index inx;;
  if inx <? 0 then look my_errno
  else
    flag <- look (fun m => rnext_flag (info m));;
    r <- fast_ma_readinfo;;
    if negb (r =? 0) then look my_errno
    else
      locking <- look (fun m => lock_key_trees (share m));;
      (if locking then mysql_rwlock_rdlock inx else ma_ret tt);;;
      changed <- _ma_test_if_changed;;
      error <- rnext_search flag changed inx;;
      x <- (if error =? 0
            then skip_rows fuel buf inx icp_res
            else ma_ret (error, icp_res));;
      locking <- look (fun m => lock_key_trees (share m));;
      (if locking then mysql_rwlock_unlock inx else ma_ret tt);;;
      rnext_finish buf (fst x) (snd x).

End AriaModel.

(** The lock operations of a trace, in their order. *)
Definition is_lock_event (e : aria_event) : bool :=
  match e with Called _ _ => false | _ => true end.

Definition lock_events (t : list aria_event) : list aria_event :=
  filter is_lock_event t.

Definition is_read_record (e : aria_event) : bool :=
  match e with Called (Call_read_record _ _) _ => true | _ => false end.

(** A run that ends: it returns or it is wild, it does not use up its
    fuel. *)
Definition settles {E : Aria} {A} (o : aria_outcome A) : Prop :=
  match o with Spins _ _ => False | _ => True end.

(** The world a run ended in: where it returned, where it went wild or
    where its fuel was used up. *)
Definition last_world {E : Aria} {A} (o : aria_outcome A) : aria_world :=
  match o with Returns _ w => w | Wild _ w => w | Spins _ w => w end.

(** A run that ended in [w'] without returning. *)
Definition stopped {E : Aria} {A} (o : aria_outcome A) (w' : aria_world)
  : Prop :=
  o = Wild _ w' \/ o = Spins _ w'.

(** The calls that only look at the row the handler stands on. *)
Definition is_probe (c : aria_call) : bool :=
  match c with
  | Call_row_is_visible | Call_ma_check_index_cond _ _ => true
  | _ => false
  end.

(** An event of the search: a call of a collaborator other than
    [read_record]. *)
Definition is_search_event (e : aria_event) : bool :=
  negb (is_lock_event e) && negb (is_read_record e).

(** No collaborator changes [share->lock_key_trees]. *)
Definition steady_locking {E : Aria} : Prop :=
  forall c m,
    lock_key_trees (share (snd (collaborator c m))) = lock_key_trees (share m).

(** What a step that calls one collaborator leaves behind. *)
Definition one_call {E : Aria} (w w' : aria_world) (c : aria_call) (r : Z)
  : Prop :=
  r = fst (collaborator c (memory w)) /\
  memory w' = snd (collaborator c (memory w)) /\
  trace w' = trace w ++ [Called c r].

(** The value and the world of a run that returns. *)
Definition returned_value {E : Aria} {A} (o : aria_outcome A) (dflt : A) : A :=
  match o with Returns a _ => a | _ => dflt end.

Definition returned_world {E : Aria} {A} (o : aria_outcome A)
    (dflt : aria_world) : aria_world :=
  match o with Returns _ w => w | _ => dflt end.

(** *** A small engine

    One B-tree index over rows of four kinds: 0, not visible to the
    reader; 1, visible and matched by the index condition; 2, visible and
    beyond the end of the scanned range; any other, visible and not
    matched. The position of a row is its number. [_ma_search_first]
    stands on row 0, [_ma_search_next] and [_ma_search] on the row behind
    the current one; past the last row they fail with
    [HA_ERR_KEY_NOT_FOUND] and leave no position. The values of the
    constants are those of my_base.h. *)

Definition set_lastpos {heap} (p : Z) (m : aria_mem heap) : aria_mem heap :=
  {| info := {| cur_row_lastpos := p;
                update := update (info m);
                last_key_data_length := last_key_data_length (info m);
                last_key_ref_length := last_key_ref_length (info m);
                last_key_flag := last_key_flag (info m) |};
     share := share m; my_errno := my_errno m; engine := engine m |}.

Definition toy_mem := aria_mem (list Z).

Definition toy_not_found (m : toy_mem) : Z * toy_mem :=
  (-1, set_my_errno 120 (set_lastpos (2 ^ 64 - 1) m)).

Definition toy_stand_on (p : Z) (m : toy_mem) : Z * toy_mem :=
  if (0 <=? p) && (p <? Z.of_nat (List.length (engine m)))
  then (0, set_lastpos p m)
  else toy_not_found m.

(** The kind of the row the handler stands on. *)
Definition toy_row (m : toy_mem) : Z :=
  nth (Z.to_nat (cur_row_lastpos (info m))) (engine m) 0.

Definition toy_collaborator (c : aria_call) (m : toy_mem) : Z * toy_mem :=
  match c with
  | Call_ma_check_index inx =>
      if inx =? 0 then (0, m) else (-1, set_my_errno 124 m)
  | Call_fast_ma_readinfo => (0, m)
  | Call_ma_test_if_changed => (0, m)
  | Call_maria_rtree_get_first _ _ => toy_not_found m
  | Call_maria_rtree_get_next _ _ => toy_not_found m
  | Call_ma_search_first _ _ => toy_stand_on 0 m
  | Call_ma_search_next _ _ =>
      if cur_row_lastpos (info m) <? 0 then toy_not_found m
      else toy_stand_on (cur_row_lastpos (info m) + 1) m
  | Call_ma_search _ _ =>
      if cur_row_lastpos (info m) <? 0 then toy_not_found m
      else toy_stand_on (cur_row_lastpos (info m) + 1) m
  | Call_row_is_visible => (if toy_row m =? 0 then 0 else 1, m)
  | Call_ma_check_index_cond _ _ =>
      (if toy_row m =? 1 then 1 else if toy_row m =? 2 then 2 else 0, m)
  | Call_read_record _ _ => (0, m)
  end.

Definition toy_aria : Aria := {|
  heap := list Z;
  SEARCH_BIGGER := 8;
  HA_OFFSET_ERROR := 2 ^ 64 - 1;
  HA_STATE_CHANGED := 1;
  HA_STATE_AKTIV := 2;
  HA_STATE_NEXT_FOUND := 16;
  HA_STATE_PREV_FOUND := 32;
  HA_STATE_ROW_CHANGED := 1024;
  HA_ERR_KEY_NOT_FOUND := 120;
  HA_ERR_END_OF_FILE := 137;
  HA_KEY_ALG_RTREE := 2;
  HAVE_RTREE_KEYS := true;
  collaborator := toy_collaborator
|}.

(** A handler on the rows [rows] that stands on [lastpos], with the
    status bits [status]. *)
Definition toy_memory (rows : list Z) (lastpos status : Z) : toy_mem :=
  {| info := {| cur_row_lastpos := lastpos; update := status;
                last_key_data_length := 4; last_key_ref_length := 6;
                last_key_flag := 0 |};
     share := {| keyinfo := [{| key_alg := 1 |}];
                 state_key_root := [8192];
                 lock_key_trees := true |};
     my_errno := 0;
     engine := rows |}.

Definition toy_world (rows : list Z) (lastpos status : Z)
  : @aria_world toy_aria :=
  @Build_aria_world toy_aria (toy_memory rows lastpos status) [].

(** [maria_rnext] with a record buffer at address 4096 on index 0. *)
Definition toy_rnext (rows : list Z) (lastpos status : Z)
  : @aria_outcome toy_aria Z :=
  @maria_rnext toy_aria 8 4096 0 (toy_world rows lastpos status).

(** The rows between the position and the end of the index, and the rows
    of the index. *)
Definition toy_rows_left (m : toy_mem) : nat :=
  if (0 <=? cur_row_lastpos (info m))
     && (cur_row_lastpos (info m) <? Z.of_nat (List.length (engine m)))
  then (List.length (engine m) - Z.to_nat (cur_row_lastpos (info m)))%nat
  else O.

Definition toy_rows (m : toy_mem) : nat := List.length (engine m).

(** *** Pages for the further properties *)

(** A 4 KiB physical page with the compressed marker and the
    no-checksum magic whose payload length field holds 0. *)
Definition empty_payload_page : bytes :=
  be_encode 4 3735928559 ++ repeat zero_byte 20 ++ be_encode 2 34354
  ++ repeat zero_byte 4070.

(** A build with zlib only, and a server configured for LZ4. *)
Definition zlib_only_build : Build := {|
  UNIV_DEBUG := false;
  HAVE_LZ4 := false; HAVE_LZ4_COMPRESS_DEFAULT := false; HAVE_LZO := false;
  HAVE_LZMA := false; HAVE_BZIP2 := false; HAVE_SNAPPY := false
|}.

Definition lz4_vars : Vars := {|
  UNIV_PAGE_SIZE := 4096;
  innodb_compression_algorithm := 2;
  page_zip_level := 6;
  srv_use_trim := true
|}.

(** * Facts *)

Unset Implicit Arguments.

(** ** Buffers *)

Lemma blen_nonneg (m : bytes) : 0 <= blen m.
Proof. unfold blen; lia. Qed.

Lemma blen_repeat (c : byte) (n : nat) : blen (repeat c n) = Z.of_nat n.
Proof. unfold blen; now rewrite repeat_length. Qed.

Ltac nth_finish :=
  match goal with
  | |- ?x = ?x => reflexivity
  | |- nth_error ?l _ = nth_error ?l _ => f_equal; lia
  | |- nth_error _ _ = None => apply nth_error_None; lia
  | |- None = nth_error _ _ => symmetry; apply nth_error_None; lia
  | _ => exfalso; lia
  end.

Ltac nth_split :=
  repeat (rewrite ?nth_error_firstn, ?nth_error_skipn, ?nth_error_app,
            ?length_firstn, ?length_skipn, ?length_app in *);
  repeat match goal with
         | |- context [Nat.ltb ?a ?b] => destruct (Nat.ltb_spec a b)
         end.

Ltac mem_unfold :=
  unfold memset, mem_read, mem_write, mem_from, blen in *;
  repeat match goal with
         | H : (if ?c then _ else _) = Some _ |- _ =>
             let E := fresh "E" in
             destruct c eqn:E; [ | discriminate H ]
         | H : Some _ = Some _ |- _ => injection H as H
         | H : (_ && _)%bool = true |- _ => apply andb_prop in H; destruct H
         | H : (_ <=? _) = true |- _ => apply Z.leb_le in H
         end.

Lemma mem_write_length m off d m' :
  mem_write m off d = Some m' -> blen m' = blen m.
Proof.
  intros H; mem_unfold; subst m'.
  rewrite !length_app, length_firstn, length_skipn. lia.
Qed.

Lemma mem_read_length m off n d :
  mem_read m off n = Some d -> blen d = n.
Proof.
  intros H; mem_unfold; subst d.
  rewrite length_firstn, length_skipn. lia.
Qed.

Lemma mem_read_some m off n :
  0 <= off -> 0 <= n -> off + n <= blen m ->
  exists d, mem_read m off n = Some d.
Proof.
  intros. unfold mem_read.
  replace ((0 <=? off) && (0 <=? n) && (off + n <=? blen m))%bool with true.
  - eauto.
  - symmetry. rewrite !andb_true_iff, !Z.leb_le. lia.
Qed.

Lemma mem_write_some m off d :
  0 <= off -> off + blen d <= blen m ->
  exists m', mem_write m off d = Some m'.
Proof.
  intros. unfold mem_write.
  replace ((0 <=? off) && (off + blen d <=? blen m))%bool with true.
  - eauto.
  - symmetry. rewrite !andb_true_iff, !Z.leb_le. lia.
Qed.

Lemma mem_write_bounds m off d m' :
  mem_write m off d = Some m' -> 0 <= off /\ off + blen d <= blen m.
Proof. intros H; mem_unfold; unfold blen; lia. Qed.

Lemma mem_read_bounds m off n d :
  mem_read m off n = Some d -> 0 <= off /\ 0 <= n /\ off + n <= blen m.
Proof. intros H; mem_unfold; unfold blen; lia. Qed.

(** Reading back what was just written. *)
Lemma mem_read_write_same m off d m' :
  mem_write m off d = Some m' -> mem_read m' off (blen d) = Some d.
Proof.
  intros H. pose proof (mem_write_length _ _ _ _ H) as L.
  pose proof (mem_write_bounds _ _ _ _ H) as Bd.
  destruct (mem_read_some m' off (blen d)) as [x Hx];
    try (pose proof (blen_nonneg d); lia).
  rewrite Hx. f_equal. mem_unfold. subst.
  apply nth_error_ext; intros i. nth_split; nth_finish.
Qed.

(** A write leaves what lies outside of it as it was. *)
Lemma mem_read_write_other m off d m' o n :
  mem_write m off d = Some m' ->
  o + n <= off \/ off + blen d <= o ->
  mem_read m' o n = mem_read m o n.
Proof.
  intros H D. pose proof (mem_write_length _ _ _ _ H) as L.
  unfold mem_read. rewrite L.
  destruct ((0 <=? o) && (0 <=? n) && (o + n <=? blen m))%bool eqn:E; trivial.
  rewrite !andb_true_iff, !Z.leb_le in E.
  f_equal. mem_unfold. subst.
  apply nth_error_ext; intros i. nth_split; nth_finish.
Qed.

(** Reading inside what was written reads the written data. *)
Lemma mem_read_write_inside m off d m' o n :
  mem_write m off d = Some m' ->
  off <= o -> 0 <= n -> o + n <= off + blen d ->
  mem_read m' o n = mem_read d (o - off) n.
Proof.
  intros H Ho Hn Hon. pose proof (mem_write_length _ _ _ _ H) as L.
  pose proof (mem_write_bounds _ _ _ _ H) as Bd.
  unfold mem_read. rewrite L.
  replace ((0 <=? o) && (0 <=? n) && (o + n <=? blen m))%bool with true
    by (symmetry; rewrite !andb_true_iff, !Z.leb_le; lia).
  replace ((0 <=? o - off) && (0 <=? n) && (o - off + n <=? blen d))%bool with true
    by (symmetry; rewrite !andb_true_iff, !Z.leb_le; lia).
  f_equal. mem_unfold. subst.
  apply nth_error_ext; intros i. nth_split; nth_finish.
Qed.

(** A read of a read. *)
Lemma mem_read_read m a l d o n :
  mem_read m a l = Some d ->
  0 <= o -> 0 <= n -> o + n <= l ->
  mem_read d o n = mem_read m (a + o) n.
Proof.
  intros H Ho Hn Hon. pose proof (mem_read_length _ _ _ _ H) as L.
  pose proof (mem_read_bounds _ _ _ _ H) as Bd.
  unfold mem_read.
  replace ((0 <=? o) && (0 <=? n) && (o + n <=? blen d))%bool with true
    by (symmetry; rewrite !andb_true_iff, !Z.leb_le; lia).
  replace ((0 <=? a + o) && (0 <=? n) && (a + o + n <=? blen m))%bool with true
    by (symmetry; rewrite !andb_true_iff, !Z.leb_le; lia).
  f_equal. mem_unfold. subst.
  apply nth_error_ext; intros i. nth_split; nth_finish.
Qed.

Lemma mem_read_all m : mem_read m 0 (blen m) = Some m.
Proof.
  unfold mem_read.
  replace ((0 <=? 0) && (0 <=? blen m) && (0 + blen m <=? blen m))%bool with true
    by (symmetry; pose proof (blen_nonneg m);
        rewrite !andb_true_iff, !Z.leb_le; lia).
  cbn [Z.to_nat skipn]. unfold blen. rewrite Nat2Z.id, firstn_all.
  reflexivity.
Qed.

(** Overwriting a whole buffer. *)
Lemma mem_write_all m d :
  blen d = blen m -> mem_write m 0 d = Some d.
Proof.
  intros L. unfold mem_write.
  replace ((0 <=? 0) && (0 + blen d <=? blen m))%bool with true
    by (symmetry; rewrite !andb_true_iff, !Z.leb_le; lia).
  cbn [Z.to_nat firstn app]. rewrite Z.add_0_l, L.
  unfold blen. rewrite Nat2Z.id, skipn_all, app_nil_r. reflexivity.
Qed.

Lemma mem_read_memset m off c n m' :
  memset m off c n = Some m' ->
  mem_read m' off n = Some (repeat c (Z.to_nat n)).
Proof.
  unfold memset. destruct (0 <=? n) eqn:E; [ | discriminate ].
  apply Z.leb_le in E. intros H.
  apply mem_read_write_same in H. rewrite blen_repeat, Z2Nat.id in H; trivial.
Qed.

Lemma memset_length m off c n m' :
  memset m off c n = Some m' -> blen m' = blen m.
Proof.
  unfold memset. destruct (0 <=? n); [ | discriminate ].
  apply mem_write_length.
Qed.

Lemma mem_read_memset_other m off c k m' o n :
  memset m off c k = Some m' ->
  o + n <= off \/ off + k <= o ->
  mem_read m' o n = mem_read m o n.
Proof.
  unfold memset. destruct (0 <=? k) eqn:E; [ | discriminate ].
  apply Z.leb_le in E. intros H D.
  eapply mem_read_write_other; eauto.
  rewrite blen_repeat, Z2Nat.id; trivial.
Qed.

Lemma memset_some m off c n :
  0 <= off -> 0 <= n -> off + n <= blen m ->
  exists m', memset m off c n = Some m'.
Proof.
  intros. unfold memset.
  replace (0 <=? n) with true by (symmetry; apply Z.leb_le; lia).
  apply mem_write_some; trivial. rewrite blen_repeat, Z2Nat.id; trivial.
Qed.

Lemma mem_from_read m off n d :
  mem_read m off n = Some d ->
  exists rest, mem_from m off = Some (d ++ rest).
Proof.
  intros H. pose proof (mem_read_bounds _ _ _ _ H) as Bd.
  unfold mem_from.
  replace ((0 <=? off) && (off <=? blen m))%bool with true
    by (symmetry; rewrite !andb_true_iff, !Z.leb_le; lia).
  mem_unfold. subst d.
  exists (skipn (Z.to_nat n) (skipn (Z.to_nat off) m)).
  now rewrite firstn_skipn.
Qed.

(** ** Big-endian fields *)

Lemma be_encode_length n v : blen (be_encode n v) = Z.of_nat n.
Proof.
  unfold blen. induction n; cbn [be_encode List.length]; [ reflexivity | ].
  rewrite Nat2Z.inj_succ in *. lia.
Qed.

Lemma be_fold_encode n v acc :
  fold_left (fun a b => a * 256 + byte.unsigned b) (be_encode n v) acc
  = acc * 256 ^ Z.of_nat n + v mod 256 ^ Z.of_nat n.
Proof.
  revert acc. induction n; intros acc.
  - cbn [be_encode fold_left]. change (256 ^ Z.of_nat 0) with 1.
    rewrite Z.mod_1_r. lia.
  - cbn [be_encode fold_left]. rewrite IHn.
    rewrite byte.unsigned_of_Z. unfold byte.wrap.
    rewrite Z.shiftr_div_pow2 by lia.
    replace (2 ^ (8 * Z.of_nat n)) with (256 ^ Z.of_nat n)
      by (change 256 with (2 ^ 8); rewrite <- Z.pow_mul_r; lia).
    change (2 ^ 8) with 256.
    rewrite Nat2Z.inj_succ, Z.pow_succ_r by lia.
    assert (P : 0 < 256 ^ Z.of_nat n) by (apply Z.pow_pos_nonneg; lia).
    rewrite (Z.mul_comm 256 (256 ^ Z.of_nat n)).
    rewrite (Z.rem_mul_r v (256 ^ Z.of_nat n) 256) by lia.
    ring.
Qed.

Lemma be_decode_encode n v :
  be_decode (be_encode n v) = v mod 256 ^ Z.of_nat n.
Proof. unfold be_decode. rewrite be_fold_encode. lia. Qed.

Lemma mach_read_write_2 m off v m' :
  mach_write_to_2 m off v = Some m' ->
  mach_read_from_2 m' off = Some (v mod 65536).
Proof.
  unfold mach_write_to_2, mach_read_from_2. intros H.
  apply mem_read_write_same in H. rewrite be_encode_length in H.
  change (Z.of_nat 2) with 2 in H. rewrite H. cbn [option_map].
  now rewrite be_decode_encode.
Qed.

Lemma mach_read_write_4 m off v m' :
  mach_write_to_4 m off v = Some m' ->
  mach_read_from_4 m' off = Some (v mod 2 ^ 32).
Proof.
  unfold mach_write_to_4, mach_read_from_4. intros H.
  apply mem_read_write_same in H. rewrite be_encode_length in H.
  change (Z.of_nat 4) with 4 in H. rewrite H. cbn [option_map].
  now rewrite be_decode_encode.
Qed.

Lemma mach_read_write_8 m off v m' :
  mach_write_to_8 m off v = Some m' ->
  mach_read_from_8 m' off = Some (v mod 2 ^ 64).
Proof.
  unfold mach_write_to_8, mach_read_from_8. intros H.
  apply mem_read_write_same in H. rewrite be_encode_length in H.
  change (Z.of_nat 8) with 8 in H. rewrite H. cbn [option_map].
  now rewrite be_decode_encode.
Qed.

(** ** Runs *)

Lemma bind_done {A B} (c : M A) (k : A -> M B) w a w' :
  c w = Done a w' -> bind c k w = k a w'.
Proof. unfold bind. now intros ->. Qed.

Lemma bind_inv_done {A B} (c : M A) (k : A -> M B) w b w2 :
  bind c k w = Done b w2 ->
  exists a w1, c w = Done a w1 /\ k a w1 = Done b w2.
Proof.
  unfold bind. destruct (c w) as [a w1 | w1 | ]; try discriminate.
  eauto.
Qed.

Lemma access_inv {A} (o : option A) w a w' :
  access o w = Done a w' -> o = Some a /\ w' = w.
Proof.
  unfold access. destruct o; [ | discriminate ].
  intros H. injection H as -> ->. auto.
Qed.

Lemma access_some {A} (o : option A) a w :
  o = Some a -> access o w = Done a w.
Proof. now intros ->. Qed.

(** ** Machine integers *)

Lemma to_int_small z : 0 <= z < 2 ^ 31 -> to_int z = z.
Proof. intros H. unfold to_int. rewrite Z.mod_small; lia. Qed.

Lemma to_uint_small z : 0 <= z < 2 ^ 32 -> to_uint z = z.
Proof. intros H. unfold to_uint. now rewrite Z.mod_small. Qed.

Lemma ulint_small z : 0 <= z < 2 ^ 64 -> ulint z = z.
Proof. intros H. unfold ulint. now rewrite Z.mod_small. Qed.

Lemma store_low32_small x v :
  0 <= x < 2 ^ 32 -> store_low32 x v = to_uint v.
Proof. intros H. unfold store_low32. rewrite (to_uint_small x); lia. Qed.

Section Claims.

Context {K : Consts} {B : Build} {V : Vars} {C : Codecs} {X : Collab}.

Lemma ut_ad_true b w : b = true -> ut_ad b w = Done tt w.
Proof. intros ->. unfold ut_ad, ut_a, ret. now destruct UNIV_DEBUG. Qed.

Lemma neqb_true a b : a <> b -> negb (a =? b) = true.
Proof. intros H. apply negb_true_iff. now apply Z.eqb_neq. Qed.

(** The debug assertions on the arguments of [fil_compress_page]: the
    tablespace does not use ROW_FORMAT=COMPRESSED. *)
Lemma zip_assertion_holds space w :
  (forall s, space = Some s -> FSP_FLAGS_GET_ZIP_SSIZE (flags s) = 0) ->
  ut_ad (match space with
         | Some s => FSP_FLAGS_GET_ZIP_SSIZE (flags s) =? 0
         | None => true
         end) w = Done tt w.
Proof.
  intros H. apply ut_ad_true. destruct space as [s | ]; trivial.
  apply Z.eqb_eq. now apply H.
Qed.

(** A page that carries neither compressed marker is not in the format
    of [fil_decompress_page]. *)
Lemma decompress_not_our_format
    page_buf buf len write_size return_error w ptype :
  len <> 0 ->
  mach_read_from_2 buf FIL_PAGE_TYPE = Some ptype ->
  ptype <> FIL_PAGE_PAGE_COMPRESSED ->
  ptype <> FIL_PAGE_PAGE_COMPRESSED_ENCRYPTED ->
  fil_decompress_page page_buf buf len write_size return_error w
  = Done {| dr_buf := buf; dr_page_buf := page_buf;
            dr_write_size := write_size |} w.
Proof.
  intros Hlen Hty Hc Hce. unfold fil_decompress_page.
  erewrite bind_done by (apply ut_ad_true, neqb_true, Hlen).
  erewrite bind_done by (apply access_some, Hty).
  unfold compressed_header_len.
  apply Z.eqb_neq in Hc, Hce. now rewrite Hc, Hce.
Qed.

(** C8: for every buffer whose page-type marker matches neither compressed
    variant, [fil_decompress_page] returns at once: the buffer, the
    scratch buffer and [*write_size] are what they were, no counter is
    modified and nothing is logged; the run ends normally, in report and
    in fatal mode alike. *)
Theorem decompress_passes_foreign_page_through
    page_buf buf len write_size return_error w ptype :
  len <> 0 ->
  mach_read_from_2 buf FIL_PAGE_TYPE = Some ptype ->
  ptype <> FIL_PAGE_PAGE_COMPRESSED ->
  ptype <> FIL_PAGE_PAGE_COMPRESSED_ENCRYPTED ->
  fil_decompress_page page_buf buf len write_size return_error w
  = Done {| dr_buf := buf; dr_page_buf := page_buf;
            dr_write_size := write_size |} w.
Proof.
  intros Hlen Hty Hc Hce.
  now apply decompress_not_our_format with (ptype := ptype).
Qed.

(** What [err_exit] of [fil_compress_page] does. *)
Lemma compress_err_exit_done space buf out_buf len err write_size comp_method w :
  exists r w',
    compress_err_exit space buf out_buf len err write_size comp_method w
    = Done r w' /\
    r_ptr r = RetBuf /\ r_buf r = buf /\ r_out_buf r = out_buf /\
    r_out_len r = len /\
    calls w' = calls w /\
    pages_page_compression_error (srv_stats w')
    = ulint (pages_page_compression_error (srv_stats w) + 1) /\
    pages_page_compressed (srv_stats w') = pages_page_compressed (srv_stats w) /\
    match space with
    | Some s =>
        if printed_compression_failure s
        then diag w' = diag w /\ r_space r = space
        else diag w'
             = diag w ++ [WarnCompressionFailed (id s) (name s) len err
                            write_size (fil_get_compression_alg_name comp_method)]
             /\ r_space r = Some (set_printed_compression_failure s)
    | None => diag w' = diag w /\ r_space r = None
    end.
Proof.
  unfold compress_err_exit.
  destruct space as [s | ]; [ destruct (printed_compression_failure s) eqn:P | ];
    cbn [negb]; unfold bind, ret, emit, update_stats; cbn;
    do 2 eexists; (split; [ reflexivity | ]); cbn; rewrite ?P; auto 10.
Qed.

Lemma returned_page_ret_buf r : r_ptr r = RetBuf -> returned_page r = r_buf r.
Proof. unfold returned_page. now intros ->. Qed.

Lemma page_type_rejected_iff ptype :
  page_type_rejected ptype = true <->
  ptype = 0 \/ ptype = FIL_PAGE_TYPE_FSP_HDR \/ ptype = FIL_PAGE_TYPE_XDES
  \/ ptype = FIL_PAGE_PAGE_COMPRESSED.
Proof.
  unfold page_type_rejected. rewrite !orb_true_iff, !Z.eqb_eq. tauto.
Qed.

(** The run of [fil_compress_page] up to the test of the page type. *)
Lemma compress_rejected space buf out_buf len level block_size encrypted w ptype :
  len <> 0 ->
  (forall s, space = Some s -> FSP_FLAGS_GET_ZIP_SSIZE (flags s) = 0) ->
  fil_page_get_type buf = Some ptype ->
  page_type_rejected ptype = true ->
  fil_compress_page space buf out_buf len level block_size encrypted w
  = compress_err_exit space buf out_buf len Z_OK 0
      innodb_compression_algorithm w.
Proof.
  intros Hlen Hzip Hty Hrej. unfold fil_compress_page.
  erewrite bind_done by (apply zip_assertion_holds, Hzip).
  erewrite bind_done by (apply ut_ad_true, neqb_true, Hlen).
  erewrite bind_done by (apply access_some, Hty).
  rewrite Hrej. now destruct out_buf.
Qed.

Lemma methods_distinct :
  LayoutOk ->
  PAGE_UNCOMPRESSED <> PAGE_ZLIB_ALGORITHM /\
  PAGE_UNCOMPRESSED <> PAGE_LZ4_ALGORITHM /\
  PAGE_UNCOMPRESSED <> PAGE_LZO_ALGORITHM /\
  PAGE_UNCOMPRESSED <> PAGE_LZMA_ALGORITHM /\
  PAGE_UNCOMPRESSED <> PAGE_BZIP2_ALGORITHM /\
  PAGE_UNCOMPRESSED <> PAGE_SNAPPY_ALGORITHM /\
  PAGE_ZLIB_ALGORITHM <> PAGE_LZ4_ALGORITHM /\
  PAGE_ZLIB_ALGORITHM <> PAGE_LZO_ALGORITHM /\
  PAGE_ZLIB_ALGORITHM <> PAGE_LZMA_ALGORITHM /\
  PAGE_ZLIB_ALGORITHM <> PAGE_BZIP2_ALGORITHM /\
  PAGE_ZLIB_ALGORITHM <> PAGE_SNAPPY_ALGORITHM.
Proof.
  intros L. pose proof (methods_differ L) as N.
  inversion_clear N as [ | ? ? N0 N1]. inversion_clear N1 as [ | ? ? N2 N3].
  cbn [In] in N0, N2. repeat split; intros E; rewrite ?E in *; tauto.
Qed.

Lemma andb_eqb_false (h : bool) a b : a <> b -> h && (a =? b) = false.
Proof.
  intros H. apply Z.eqb_neq in H. rewrite H. apply andb_false_r.
Qed.

(** With the algorithm "none" the [switch] returns [buf] at once. *)
Lemma compress_switch_uncompressed buf ob len lvl hl ws w :
  LayoutOk ->
  compress_switch PAGE_UNCOMPRESSED buf ob len lvl hl ws w = Done CReturnBuf w.
Proof.
  intros L. destruct (methods_distinct L) as (N1 & N2 & N3 & N4 & N5 & N6 & _).
  unfold compress_switch.
  rewrite !andb_eqb_false by assumption.
  apply Z.eqb_neq in N1. rewrite N1, Z.eqb_refl. reflexivity.
Qed.

(** C6: for every page whose type tag is 0, file-space header, extent
    descriptor or page-compressed, and for every page when the algorithm
    is "none", [fil_compress_page] returns the input buffer with its
    contents unchanged and [*out_len] equal to the input length, and
    invokes no codec primitive. *)
Theorem compress_rejects_without_codec
    space buf out_buf len level block_size encrypted w ptype :
  LayoutOk ->
  len <> 0 ->
  (forall s, space = Some s -> FSP_FLAGS_GET_ZIP_SSIZE (flags s) = 0) ->
  fil_page_get_type buf = Some ptype ->
  (ptype = 0 \/ ptype = FIL_PAGE_TYPE_FSP_HDR \/ ptype = FIL_PAGE_TYPE_XDES
   \/ ptype = FIL_PAGE_PAGE_COMPRESSED)
  \/ innodb_compression_algorithm = PAGE_UNCOMPRESSED ->
  exists r w',
    fil_compress_page space buf out_buf len level block_size encrypted w
    = Done r w' /\
    r_ptr r = RetBuf /\ returned_page r = buf /\ r_out_len r = len /\
    calls w' = calls w.
Proof.
  intros L Hlen Hzip Hty Hcase.
  destruct (page_type_rejected ptype) eqn:Hrej.
  - rewrite (compress_rejected _ _ _ _ _ _ _ _ _ Hlen Hzip Hty Hrej).
    destruct (compress_err_exit_done space buf out_buf len Z_OK 0
                innodb_compression_algorithm w)
      as (r & w' & E & Hp & Hb & _ & Hl & Hc & _).
    exists r, w'. rewrite (returned_page_ret_buf _ Hp). auto.
  - destruct Hcase as [Hcase | Hnone].
    { apply page_type_rejected_iff in Hcase. congruence. }
    unfold fil_compress_page.
    erewrite bind_done by (apply zip_assertion_holds, Hzip).
    erewrite bind_done by (apply ut_ad_true, neqb_true, Hlen).
    erewrite bind_done by (apply access_some, Hty).
    rewrite Hrej, Hnone.
    erewrite bind_done by (apply compress_switch_uncompressed, L).
    unfold ret. do 2 eexists. split; [ reflexivity | ]. cbn. auto.
Qed.

(** C10: a page with a rejected page type leaves [fil_compress_page]
    through [err_exit], the exit of a failed compression: the call
    increments [pages_page_compression_error] and, when the tablespace
    has not warned yet, logs the compression-failure warning and sets
    the tablespace's flag. *)
Theorem rejected_page_counts_as_compression_error
    space buf out_buf len level block_size encrypted w ptype :
  len <> 0 ->
  (forall s, space = Some s -> FSP_FLAGS_GET_ZIP_SSIZE (flags s) = 0) ->
  fil_page_get_type buf = Some ptype ->
  ptype = 0 \/ ptype = FIL_PAGE_TYPE_FSP_HDR \/ ptype = FIL_PAGE_TYPE_XDES
  \/ ptype = FIL_PAGE_PAGE_COMPRESSED ->
  fil_compress_page space buf out_buf len level block_size encrypted w
  = compress_err_exit space buf out_buf len Z_OK 0
      innodb_compression_algorithm w
  /\
  exists r w',
    fil_compress_page space buf out_buf len level block_size encrypted w
    = Done r w' /\
    pages_page_compression_error (srv_stats w')
    = ulint (pages_page_compression_error (srv_stats w) + 1) /\
    match space with
    | Some s =>
        if printed_compression_failure s
        then diag w' = diag w /\ r_space r = space
        else diag w'
             = diag w ++ [WarnCompressionFailed (id s) (name s) len Z_OK 0
                            (fil_get_compression_alg_name
                               innodb_compression_algorithm)]
             /\ r_space r = Some (set_printed_compression_failure s)
    | None => diag w' = diag w /\ r_space r = None
    end.
Proof.
  intros Hlen Hzip Hty Hcase. apply page_type_rejected_iff in Hcase.
  pose proof (compress_rejected space buf out_buf len level block_size
                encrypted w ptype Hlen Hzip Hty Hcase) as E.
  split; [ exact E | ]. rewrite E.
  destruct (compress_err_exit_done space buf out_buf len Z_OK 0
              innodb_compression_algorithm w)
    as (r & w' & E' & _ & _ & _ & _ & _ & Hcnt & _ & Hsp).
  exists r, w'. auto.
Qed.

Lemma header_len_bounds encrypted :
  LayoutOk ->
  0 < compress_header_len encrypted < UNIV_PAGE_SIZE /\
  FIL_PAGE_DATA + 2 <= compress_header_len encrypted.
Proof.
  intros L. destruct L. unfold compress_header_len. destruct encrypted; lia.
Qed.

(** The compression [switch], arm by arm, against the uniform view of the
    codec calls. *)
Lemma compress_switch_spec comp_method buf ob len lvl hl src ok n out w :
  0 < hl < UNIV_PAGE_SIZE -> UNIV_PAGE_SIZE <= 65536 ->
  0 <= len < 2 ^ 31 ->
  mem_read buf 0 len = Some src ->
  working_memory_fits comp_method ob ->
  codec_compress comp_method src lvl hl = Some (ok, n, out) ->
  match mem_write ob hl out with
  | None =>
      compress_switch comp_method buf ob len lvl hl (ulint (UNIV_PAGE_SIZE - hl)) w
      = Undefined
  | Some ob' =>
      exists l,
        c_write_size l = n /\ c_out_buf l = ob' /\
        compress_switch comp_method buf ob len lvl hl (ulint (UNIV_PAGE_SIZE - hl)) w
        = Done (if negb ok
                   || (negb (relies_on_capacity comp_method)
                       && (UNIV_PAGE_SIZE - hl <? n))
                then CErrExit l else CBreak l)
               (record_call (CompressCall comp_method) w)
  end.
Proof.
  intros Hhl Hps Hlen Hsrc Hwrk Hview.
  assert (Hb : ulint (UNIV_PAGE_SIZE - hl) = UNIV_PAGE_SIZE - hl)
    by (apply ulint_small; lia).
  unfold compress_switch, codec_compress, relies_on_capacity,
    working_memory_fits in *.
  rewrite Hb in *.
  rewrite (to_int_small len), (to_uint_small len) by lia.
  destruct (HAVE_LZ4 && (comp_method =? PAGE_LZ4_ALGORITHM)) eqn:E1;
    [ | destruct (HAVE_LZO && (comp_method =? PAGE_LZO_ALGORITHM)) eqn:E2;
        [ | destruct (HAVE_LZMA && (comp_method =? PAGE_LZMA_ALGORITHM)) eqn:E3;
            [ | destruct (HAVE_BZIP2 && (comp_method =? PAGE_BZIP2_ALGORITHM)) eqn:E4;
                [ | destruct (HAVE_SNAPPY && (comp_method =? PAGE_SNAPPY_ALGORITHM)) eqn:E5;
                    [ | destruct (comp_method =? PAGE_ZLIB_ALGORITHM) eqn:E6;
                        [ | discriminate Hview ] ] ] ] ] ];
    injection Hview as <- <- <-;
    erewrite bind_done by (apply access_some, Hsrc);
    try (destruct (Hwrk eq_refl) as [Hw0 Hw1];
         destruct (mem_read_some ob UNIV_PAGE_SIZE LZO1X_1_15_MEM_COMPRESS)
           as [wrkmem Hm]; [ lia | lia | lia | ];
         erewrite bind_done by (apply access_some, Hm));
    unfold compress_arm, bind, invoke, access, ret;
    rewrite ?store_low32_small by lia;
    cbn [negb andb orb];
    rewrite ?negb_involutive, ?orb_false_r, ?andb_false_r;
    (destruct (mem_write ob hl _); [ | reflexivity ]);
    match goal with
    | |- context [if ?c then _ else _] =>
        destruct c; eexists; (split; [ | split ]);
        try reflexivity; reflexivity
    end.
Qed.

(** The run of [fil_compress_page] up to the codec [switch], for a page
    whose type is not rejected. *)
Lemma compress_eligible space buf out_buf len level block_size encrypted w ptype :
  len <> 0 ->
  (forall s, space = Some s -> FSP_FLAGS_GET_ZIP_SSIZE (flags s) = 0) ->
  fil_page_get_type buf = Some ptype ->
  page_type_rejected ptype = false ->
  fil_compress_page space buf out_buf len level block_size encrypted w
  = bind (compress_switch innodb_compression_algorithm buf
            (output_buffer innodb_compression_algorithm out_buf) len
            (effective_level level) (compress_header_len encrypted)
            (ulint (UNIV_PAGE_SIZE - compress_header_len encrypted)))
      (fun x =>
         match x with
         | CReturnBuf =>
             ret {| r_ptr := RetBuf; r_buf := buf;
                    r_out_buf :=
                      caller_view out_buf
                        (output_buffer innodb_compression_algorithm out_buf);
                    r_out_len := len; r_space := space |}
         | CErrExit l =>
             compress_err_exit space buf (caller_view out_buf (c_out_buf l)) len
               (c_err l) (c_write_size l) innodb_compression_algorithm
         | CBreak l =>
             compress_finish space buf (is_allocated out_buf) len block_size
               encrypted (compress_header_len encrypted)
               innodb_compression_algorithm l
         end) w.
Proof.
  intros Hlen Hzip Hty Hrej. unfold fil_compress_page.
  erewrite bind_done by (apply zip_assertion_holds, Hzip).
  erewrite bind_done by (apply ut_ad_true, neqb_true, Hlen).
  erewrite bind_done by (apply access_some, Hty).
  rewrite Hrej. destruct out_buf, encrypted; reflexivity.
Qed.

(** C5: whenever compression fails, that is the codec primitive reports
    an error status or the payload length it produced exceeds
    [UNIV_PAGE_SIZE - header_len], [fil_compress_page] returns the input
    buffer, its contents unchanged, with [*out_len] equal to the input
    length. The arms for zlib and LZ4 leave the length test to the
    primitive, to which they hand the budget as its output capacity. *)
Theorem compression_failure_returns_original
    space buf out_buf len level block_size encrypted w ptype src ok n out :
  LayoutOk ->
  0 < len < 2 ^ 31 ->
  (forall s, space = Some s -> FSP_FLAGS_GET_ZIP_SSIZE (flags s) = 0) ->
  fil_page_get_type buf = Some ptype ->
  mem_read buf 0 len = Some src ->
  codec_compress innodb_compression_algorithm src (effective_level level)
    (compress_header_len encrypted) = Some (ok, n, out) ->
  (relies_on_capacity innodb_compression_algorithm = true ->
   ok = true -> n <= UNIV_PAGE_SIZE - compress_header_len encrypted) ->
  compress_header_len encrypted + blen out
  <= blen (output_buffer innodb_compression_algorithm out_buf) ->
  working_memory_fits innodb_compression_algorithm
    (output_buffer innodb_compression_algorithm out_buf) ->
  ok = false \/ UNIV_PAGE_SIZE - compress_header_len encrypted < n ->
  exists r w',
    fil_compress_page space buf out_buf len level block_size encrypted w
    = Done r w' /\
    r_ptr r = RetBuf /\ returned_page r = buf /\ r_out_len r = len.
Proof.
  intros L Hlen Hzip Hty Hsrc Hview Hcap Hroom Hwrk Hfail.
  assert (Hlen0 : len <> 0) by lia.
  destruct (page_type_rejected ptype) eqn:Hrej.
  - rewrite (compress_rejected _ _ _ _ _ _ _ _ _ Hlen0 Hzip Hty Hrej).
    destruct (compress_err_exit_done space buf out_buf len Z_OK 0
                innodb_compression_algorithm w)
      as (r & w' & E & Hp & Hb & _ & Hl & _).
    exists r, w'. rewrite (returned_page_ret_buf _ Hp). auto.
  - rewrite (compress_eligible _ _ _ _ _ _ _ _ _ Hlen0 Hzip Hty Hrej).
    destruct (header_len_bounds encrypted L) as [Hhl _].
    pose proof (page_max L) as Hps.
    assert (Hlen' : 0 <= len < 2 ^ 31) by lia.
    pose proof (compress_switch_spec innodb_compression_algorithm buf
                  (output_buffer innodb_compression_algorithm out_buf)
                  len (effective_level level) (compress_header_len encrypted)
                  src ok n out w Hhl Hps Hlen' Hsrc Hwrk Hview) as S.
    destruct (mem_write_some (output_buffer innodb_compression_algorithm out_buf)
                (compress_header_len encrypted) out) as [ob' Hw];
      [ lia | exact Hroom | ].
    rewrite Hw in S. destruct S as (l & _ & _ & S).
    assert (F : negb ok
                || (negb (relies_on_capacity innodb_compression_algorithm)
                    && (UNIV_PAGE_SIZE - compress_header_len encrypted <? n))
                = true).
    { destruct ok; cbn [negb orb]; trivial.
      destruct Hfail as [Hf | Hf]; [ discriminate | ].
      destruct (relies_on_capacity innodb_compression_algorithm).
      - specialize (Hcap eq_refl eq_refl). lia.
      - cbn [negb andb]. now apply Z.ltb_lt. }
    rewrite F in S. erewrite bind_done by exact S.
    destruct (compress_err_exit_done space buf
                (caller_view out_buf (c_out_buf l)) len (c_err l)
                (c_write_size l) innodb_compression_algorithm
                (record_call (CompressCall innodb_compression_algorithm) w))
      as (r & w' & E & Hp & Hb & _ & Hl & _).
    exists r, w'. rewrite (returned_page_ret_buf _ Hp). auto.
Qed.

(** ** Warnings *)

Lemma quiet_ret {A} (a : A) : emits_no_warning (ret a).
Proof. intros w w' H. cbn in H. congruence. Qed.

Lemma quiet_bind {A B'} (c : M A) (k : A -> M B') :
  emits_no_warning c -> (forall a, emits_no_warning (k a)) ->
  emits_no_warning (bind c k).
Proof.
  intros Hc Hk w w' H. unfold bind in H.
  destruct (c w) as [a w1 | w1 | ] eqn:E.
  - rewrite (Hk a w1 w' H). apply Hc. now rewrite E.
  - apply Hc. now rewrite E.
  - discriminate.
Qed.

Lemma quiet_access {A} (o : option A) : emits_no_warning (access o).
Proof. intros w w' H. unfold access in H. destruct o; cbn in H; congruence. Qed.

Lemma quiet_ut_error {A} : emits_no_warning (@ut_error A).
Proof. intros w w' H. cbn in H. congruence. Qed.

Lemma quiet_ut_a b : emits_no_warning (ut_a b).
Proof. destruct b; [ apply quiet_ret | apply quiet_ut_error ]. Qed.

Lemma quiet_ut_ad b : emits_no_warning (ut_ad b).
Proof. unfold ut_ad. destruct UNIV_DEBUG; [ apply quiet_ut_a | apply quiet_ret ]. Qed.

Lemma quiet_invoke c : emits_no_warning (invoke c).
Proof. intros w w' H. cbn in H. injection H as <-. reflexivity. Qed.

Lemma quiet_update_stats f : emits_no_warning (update_stats f).
Proof. intros w w' H. cbn in H. injection H as <-. reflexivity. Qed.

Lemma quiet_emit e : is_compression_warning e = false -> emits_no_warning (emit e).
Proof.
  intros He w w' H. cbn in H. injection H as <-.
  unfold compression_warnings, record_event. cbn [diag].
  rewrite filter_app. cbn [filter]. rewrite He, app_nil_r. reflexivity.
Qed.

Create HintDb quiet discriminated.

#[local] Hint Resolve quiet_ret quiet_access quiet_ut_error quiet_ut_a
  quiet_ut_ad quiet_invoke quiet_update_stats : quiet.

#[local] Hint Extern 1 (emits_no_warning (emit _)) =>
  apply quiet_emit; reflexivity : quiet.

(** Steps known to be quiet first, then through the computation. *)
Ltac quiet :=
  repeat first
    [ solve [ auto 1 with quiet nocore ]
    | apply quiet_bind; [ | intros ? ]
    | match goal with
      | |- emits_no_warning (if ?b then _ else _) => destruct b
      | |- emits_no_warning (match ?x with _ => _ end) => destruct x
      | |- emits_no_warning (let _ := _ in _) => cbv zeta
      end ].

Lemma quiet_decompress_switch alg buf in_buf hl actual_size len :
  emits_no_warning (decompress_switch alg buf in_buf hl actual_size len).
Proof. unfold decompress_switch, decompress_arm. quiet. Qed.

#[local] Hint Resolve quiet_decompress_switch : quiet.

Lemma quiet_decompress page_buf buf len write_size return_error :
  emits_no_warning
    (fil_decompress_page page_buf buf len write_size return_error).
Proof.
  unfold fil_decompress_page, decompress_error_return, decompress_err_exit.
  quiet.
Qed.

#[local] Hint Resolve quiet_decompress : quiet.

Lemma quiet_compress_switch comp_method buf ob len lvl hl ws :
  emits_no_warning (compress_switch comp_method buf ob len lvl hl ws).
Proof. unfold compress_switch, compress_arm. quiet. Qed.

#[local] Hint Resolve quiet_compress_switch : quiet.

Lemma quiet_verify space out_buf len write_size comp_method :
  emits_no_warning
    (verify_compressed_page space out_buf len write_size comp_method).
Proof.
  unfold verify_compressed_page. quiet.
Qed.

Lemma quiet_align out_buf write_size header_len block_size :
  emits_no_warning (align_write_size out_buf write_size header_len block_size).
Proof. unfold align_write_size. quiet. Qed.

#[local] Hint Resolve quiet_verify quiet_align : quiet.

Lemma within_bind_quiet {A} space (c : M A) (k : A -> M compress_result) :
  emits_no_warning c -> (forall a, within_allowance space (k a)) ->
  within_allowance space (bind c k).
Proof.
  intros Hc Hk w. unfold bind.
  destruct (c w) as [a w1 | w1 | ] eqn:E; trivial.
  - specialize (Hk a w1). rewrite <- (Hc w w1) by now rewrite E. exact Hk.
  - rewrite (Hc w w1) by now rewrite E. lia.
Qed.

Lemma within_ret space ptr b ob l :
  within_allowance space
    (ret {| r_ptr := ptr; r_buf := b; r_out_buf := ob; r_out_len := l;
            r_space := space |}).
Proof. intros w. cbn. lia. Qed.

Lemma within_err_exit space buf out_buf len err write_size comp_method :
  within_allowance space
    (compress_err_exit space buf out_buf len err write_size comp_method).
Proof.
  intros w.
  destruct (compress_err_exit_done space buf out_buf len err write_size
              comp_method w) as (r & w' & E & _ & _ & _ & _ & _ & _ & _ & S).
  rewrite E. unfold compression_warnings.
  destruct space as [s | ]; [ destruct (printed_compression_failure s) eqn:P | ];
    destruct S as [D R]; rewrite D, R; cbn [allowance]; rewrite ?P;
    rewrite ?filter_app, ?length_app; cbn; lia.
Qed.

Lemma within_finish space buf allocated len block_size encrypted hl cm l :
  within_allowance space
    (compress_finish space buf allocated len block_size encrypted hl cm l).
Proof.
  unfold compress_finish.
  repeat first
    [ apply within_ret
    | apply within_bind_quiet; [ quiet | intros ? ]
    | match goal with
      | |- within_allowance _ (if ?b then _ else _) => destruct b
      end ].
Qed.

Lemma within_compress space buf out_buf len level block_size encrypted :
  within_allowance space
    (fil_compress_page space buf out_buf len level block_size encrypted).
Proof.
  unfold fil_compress_page.
  repeat first
    [ apply within_ret | apply within_err_exit | apply within_finish
    | apply within_bind_quiet; [ quiet | intros ? ]
    | match goal with
      | |- within_allowance _ (if ?b then _ else _) => destruct b
      | |- within_allowance _ (match ?x with _ => _ end) => destruct x
      | |- within_allowance _ (let _ := _ in _) => cbv zeta
      end ].
Qed.

(** ** The page header *)

Lemma mach_read_2_other m off d m' o :
  mem_write m off d = Some m' -> o + 2 <= off \/ off + blen d <= o ->
  mach_read_from_2 m' o = mach_read_from_2 m o.
Proof.
  intros H D. unfold mach_read_from_2.
  now rewrite (mem_read_write_other _ _ _ _ _ _ H D).
Qed.

Lemma mach_read_4_other m off d m' o :
  mem_write m off d = Some m' -> o + 4 <= off \/ off + blen d <= o ->
  mach_read_from_4 m' o = mach_read_from_4 m o.
Proof.
  intros H D. unfold mach_read_from_4.
  now rewrite (mem_read_write_other _ _ _ _ _ _ H D).
Qed.

Lemma mach_read_8_other m off d m' o :
  mem_write m off d = Some m' -> o + 8 <= off \/ off + blen d <= o ->
  mach_read_from_8 m' o = mach_read_from_8 m o.
Proof.
  intros H D. unfold mach_read_from_8.
  now rewrite (mem_read_write_other _ _ _ _ _ _ H D).
Qed.

Ltac field_sizes :=
  rewrite ?be_encode_length;
  change (Z.of_nat 2) with 2; change (Z.of_nat 4) with 4;
  change (Z.of_nat 8) with 8.

(** Read a field, or the payload, behind the write [H] to another field. *)
Ltac behind H :=
  first
    [ rewrite (mach_read_2_other _ _ _ _ _ H) by (field_sizes; lia)
    | rewrite (mach_read_4_other _ _ _ _ _ H) by (field_sizes; lia)
    | rewrite (mach_read_8_other _ _ _ _ _ H) by (field_sizes; lia)
    | rewrite (mem_read_write_other _ _ _ _ _ _ H) by (field_sizes; lia) ].

(** What [set_up_page_header] leaves in the output buffer: the fields it
    writes, and everything from the end of the header on untouched. *)
Lemma set_up_page_header_fields ob buf cm encrypted ws o :
  LayoutOk ->
  set_up_page_header ob buf cm encrypted ws = Some o ->
  blen o = blen ob /\
  mach_read_from_2 o FIL_PAGE_TYPE = Some (header_marker encrypted) /\
  mach_read_from_4 o FIL_PAGE_SPACE_OR_CHKSUM = Some BUF_NO_CHECKSUM_MAGIC /\
  mach_read_from_8 o FIL_PAGE_FILE_FLUSH_LSN_OR_KEY_VERSION = Some (cm mod 2 ^ 64) /\
  (encrypted = true ->
   mach_read_from_2 o (FIL_PAGE_DATA + FIL_PAGE_COMPRESSED_SIZE)
   = Some (cm mod 65536)) /\
  mach_read_from_2 o FIL_PAGE_DATA = Some (ws mod 65536) /\
  (forall off n, compress_header_len encrypted <= off ->
                 mem_read o off n = mem_read ob off n).
Proof.
  intros L. destruct L. unfold set_up_page_header, compress_header_len, header_marker.
  destruct (mem_read buf 0 FIL_PAGE_DATA) as [hdr | ] eqn:R0; [ | discriminate ].
  destruct (mem_write ob 0 hdr) as [o1 | ] eqn:W1; [ | discriminate ].
  destruct (mach_write_to_4 o1 _ _) as [o2 | ] eqn:W2; [ | discriminate ].
  destruct (mach_write_to_8 o2 _ _) as [o3 | ] eqn:W3; [ | discriminate ].
  pose proof (mem_read_length _ _ _ _ R0) as Lh.
  pose proof (mem_write_length _ _ _ _ W1) as L1.
  pose proof (mem_write_length _ _ _ _ W2) as L2.
  pose proof (mem_write_length _ _ _ _ W3) as L3.
  pose proof (mach_read_write_4 _ _ _ _ W2) as F2.
  pose proof (mach_read_write_8 _ _ _ _ W3) as F3.
  rewrite Z.mod_small in F2 by assumption.
  unfold mach_write_to_4, mach_write_to_8 in W2, W3.
  destruct encrypted.
  - destruct (mach_write_to_2 o3 _ _) as [o4 | ] eqn:W4; [ | discriminate ].
    destruct (mach_write_to_2 o4 _ _) as [o5 | ] eqn:W5; [ | discriminate ].
    intros W6.
    pose proof (mem_write_length _ _ _ _ W4) as L4.
    pose proof (mem_write_length _ _ _ _ W5) as L5.
    pose proof (mem_write_length _ _ _ _ W6) as L6.
    pose proof (mach_read_write_2 _ _ _ _ W4) as F4.
    pose proof (mach_read_write_2 _ _ _ _ W5) as F5.
    pose proof (mach_read_write_2 _ _ _ _ W6) as F6.
    rewrite Z.mod_small in F4 by assumption.
    unfold mach_write_to_2 in W4, W5, W6.
    repeat split; try (intros _).
    + congruence.
    + behind W6. behind W5. exact F4.
    + behind W6. behind W5. behind W4. behind W3. exact F2.
    + behind W6. behind W5. behind W4. exact F3.
    + behind W6. exact F5.
    + exact F6.
    + intros off n Hoff.
      behind W6. behind W5. behind W4. behind W3. behind W2. behind W1.
      reflexivity.
  - destruct (mach_write_to_2 o3 _ _) as [o4 | ] eqn:W4; [ | discriminate ].
    intros W6.
    pose proof (mem_write_length _ _ _ _ W4) as L4.
    pose proof (mem_write_length _ _ _ _ W6) as L6.
    pose proof (mach_read_write_2 _ _ _ _ W4) as F4.
    pose proof (mach_read_write_2 _ _ _ _ W6) as F6.
    rewrite Z.mod_small in F4 by assumption.
    unfold mach_write_to_2 in W4, W6.
    repeat split; try (intros E; discriminate E).
    + congruence.
    + behind W6. exact F4.
    + behind W6. behind W4. behind W3. exact F2.
    + behind W6. behind W4. exact F3.
    + exact F6.
    + intros off n Hoff.
      behind W6. behind W4. behind W3. behind W2. behind W1.
      reflexivity.
Qed.

Lemma set_up_page_header_some ob buf cm encrypted ws :
  LayoutOk ->
  FIL_PAGE_DATA <= blen buf ->
  compress_header_len encrypted <= blen ob ->
  exists o, set_up_page_header ob buf cm encrypted ws = Some o.
Proof.
  intros L Hbuf Hob. destruct L.
  unfold set_up_page_header, compress_header_len in *.
  destruct (mem_read_some buf 0 FIL_PAGE_DATA) as [hdr R0]; try lia.
  rewrite R0. pose proof (mem_read_length _ _ _ _ R0) as Lh.
  destruct (mem_write_some ob 0 hdr) as [o1 W1]; [ lia | destruct encrypted; lia | ].
  rewrite W1. pose proof (mem_write_length _ _ _ _ W1) as L1.
  unfold mach_write_to_4, mach_write_to_8, mach_write_to_2.
  destruct (mem_write_some o1 FIL_PAGE_SPACE_OR_CHKSUM
              (be_encode 4 BUF_NO_CHECKSUM_MAGIC)) as [o2 W2];
    [ lia | field_sizes; destruct encrypted; lia | ].
  rewrite W2. pose proof (mem_write_length _ _ _ _ W2) as L2.
  destruct (mem_write_some o2 FIL_PAGE_FILE_FLUSH_LSN_OR_KEY_VERSION
              (be_encode 8 cm)) as [o3 W3];
    [ lia | field_sizes; destruct encrypted; lia | ].
  rewrite W3. pose proof (mem_write_length _ _ _ _ W3) as L3.
  destruct encrypted.
  - destruct (mem_write_some o3 FIL_PAGE_TYPE
                (be_encode 2 FIL_PAGE_PAGE_COMPRESSED_ENCRYPTED)) as [o4 W4];
      [ lia | field_sizes; lia | ].
    rewrite W4. pose proof (mem_write_length _ _ _ _ W4) as L4.
    destruct (mem_write_some o4 (FIL_PAGE_DATA + FIL_PAGE_COMPRESSED_SIZE)
                (be_encode 2 cm)) as [o5 W5];
      [ lia | field_sizes; lia | ].
    rewrite W5. pose proof (mem_write_length _ _ _ _ W5) as L5.
    apply mem_write_some; [ lia | field_sizes; lia ].
  - destruct (mem_write_some o3 FIL_PAGE_TYPE
                (be_encode 2 FIL_PAGE_PAGE_COMPRESSED)) as [o4 W4];
      [ lia | field_sizes; lia | ].
    rewrite W4. pose proof (mem_write_length _ _ _ _ W4) as L4.
    apply mem_write_some; [ lia | field_sizes; lia ].
Qed.

Lemma compressed_header_len_marker encrypted :
  LayoutOk ->
  compressed_header_len (header_marker encrypted)
  = Some (compress_header_len encrypted).
Proof.
  intros L. pose proof (markers_differ L) as N.
  unfold compressed_header_len, header_marker, compress_header_len.
  destruct encrypted.
  - now rewrite Z.eqb_refl.
  - apply Z.eqb_neq in N. now rewrite N, Z.eqb_refl.
Qed.

Lemma read_compression_alg_marker encrypted o :
  LayoutOk ->
  read_compression_alg (header_marker encrypted) o
  = if encrypted
    then mach_read_from_2 o (FIL_PAGE_DATA + FIL_PAGE_COMPRESSED_SIZE)
    else mach_read_from_8 o FIL_PAGE_FILE_FLUSH_LSN_OR_KEY_VERSION.
Proof.
  intros L. pose proof (markers_differ L) as N.
  unfold read_compression_alg, header_marker.
  destruct encrypted.
  - now rewrite Z.eqb_refl.
  - apply Z.eqb_neq in N. now rewrite N.
Qed.

(** C4: for the plain and the encrypted variant, for every payload length
    from 1 to [UNIV_PAGE_SIZE - header_len] and every algorithm id that
    fits the field of the variant, the header [fil_compress_page] writes
    is read back by [fil_decompress_page] as the same header length,
    payload length and algorithm id (and with the no-checksum magic in
    place). *)
Theorem header_round_trip out_buf buf comp_method encrypted write_size :
  LayoutOk ->
  FIL_PAGE_DATA <= blen buf ->
  compress_header_len encrypted <= blen out_buf ->
  1 <= write_size <= UNIV_PAGE_SIZE - compress_header_len encrypted ->
  0 <= comp_method < (if encrypted then 65536 else 2 ^ 64) ->
  exists o ptype,
    set_up_page_header out_buf buf comp_method encrypted write_size = Some o /\
    mach_read_from_2 o FIL_PAGE_TYPE = Some ptype /\
    mach_read_from_4 o FIL_PAGE_SPACE_OR_CHKSUM = Some BUF_NO_CHECKSUM_MAGIC /\
    compressed_header_len ptype = Some (compress_header_len encrypted) /\
    read_actual_size o = Some write_size /\
    read_compression_alg ptype o = Some comp_method.
Proof.
  intros L Hbuf Hob Hws Hcm.
  destruct (set_up_page_header_some out_buf buf comp_method encrypted
              write_size L Hbuf Hob) as [o Ho].
  destruct (set_up_page_header_fields _ _ _ _ _ _ L Ho)
    as (_ & Ft & Fc & F8 & F2 & Fs & _).
  destruct (header_len_bounds encrypted L) as [Hhl _].
  pose proof (page_max L) as Hps.
  exists o, (header_marker encrypted). repeat split; trivial.
  - now apply compressed_header_len_marker.
  - unfold read_actual_size. rewrite Fs, Z.mod_small by lia. reflexivity.
  - rewrite read_compression_alg_marker by assumption.
    destruct encrypted.
    + rewrite F2, Z.mod_small by trivial. reflexivity.
    + rewrite F8, Z.mod_small by trivial. reflexivity.
Qed.

(** C3, amended: [fil_compress_page] writes the 8-byte algorithm id in
    both variants of the header; in the encrypted variant it writes the
    id also into the 2-byte field at [FIL_PAGE_DATA +
    FIL_PAGE_COMPRESSED_SIZE], after the payload length. On every page,
    whatever its fields hold, that 2-byte field is where
    [fil_decompress_page] reads the id of an encrypted page from, and
    the 8-byte field is where it reads the id of a plain page from:
    putting any other [id] into the 8-byte field of a [page] changes
    the id read from it as a plain page to [id], and leaves the id read
    from it as an encrypted page as it was. *)
Theorem algorithm_id_fields
    out_buf buf comp_method encrypted write_size o page id page' :
  LayoutOk ->
  0 <= comp_method < 65536 ->
  set_up_page_header out_buf buf comp_method encrypted write_size = Some o ->
  mach_write_to_8 page FIL_PAGE_FILE_FLUSH_LSN_OR_KEY_VERSION id = Some page' ->
  mach_read_from_8 o FIL_PAGE_FILE_FLUSH_LSN_OR_KEY_VERSION = Some comp_method /\
  (encrypted = true ->
   mach_read_from_2 o (FIL_PAGE_DATA + FIL_PAGE_COMPRESSED_SIZE)
   = Some comp_method) /\
  read_compression_alg FIL_PAGE_PAGE_COMPRESSED_ENCRYPTED page
  = mach_read_from_2 page (FIL_PAGE_DATA + FIL_PAGE_COMPRESSED_SIZE) /\
  read_compression_alg FIL_PAGE_PAGE_COMPRESSED page
  = mach_read_from_8 page FIL_PAGE_FILE_FLUSH_LSN_OR_KEY_VERSION /\
  read_compression_alg FIL_PAGE_PAGE_COMPRESSED_ENCRYPTED page'
  = read_compression_alg FIL_PAGE_PAGE_COMPRESSED_ENCRYPTED page /\
  read_compression_alg FIL_PAGE_PAGE_COMPRESSED page' = Some (id mod 2 ^ 64).
Proof.
  intros L Hcm Ho Hw.
  destruct (set_up_page_header_fields _ _ _ _ _ _ L Ho)
    as (_ & _ & _ & F8 & F2 & _ & _).
  rewrite Z.mod_small in F8 by lia.
  pose proof (lsn_data L) as Hld. pose proof (size_room L) as Hsr.
  split; [ exact F8 | ]. split.
  { intros E. rewrite (F2 E), Z.mod_small by lia. reflexivity. }
  pose proof (read_compression_alg_marker true page L) as Re.
  pose proof (read_compression_alg_marker false page L) as Rp.
  pose proof (read_compression_alg_marker true page' L) as Re'.
  pose proof (read_compression_alg_marker false page' L) as Rp'.
  cbn [header_marker] in Re, Rp, Re', Rp'.
  split; [ exact Re | ]. split; [ exact Rp | ]. split.
  - rewrite Re', Re. unfold mach_write_to_8 in Hw.
    apply (mach_read_2_other _ _ _ _ _ Hw).
    right. field_sizes. lia.
  - rewrite Rp'. apply (mach_read_write_8 _ _ _ _ Hw).
Qed.

(** ** Alignment *)

Lemma align_up_bounds x b U :
  0 < b -> 0 <= x -> x <= U -> U mod b = 0 ->
  x <= ut_uint64_align_up x b <= U /\
  ut_uint64_align_up x b mod b = 0 /\
  (x mod b = 0 -> ut_uint64_align_up x b = x).
Proof.
  intros Hb Hx HxU HU. unfold ut_uint64_align_up.
  assert (Hq : U = b * (U / b)) by (apply Z.div_exact; lia).
  pose proof (Z.div_mod (x + b - 1) b ltac:(lia)) as E.
  pose proof (Z.mod_pos_bound (x + b - 1) b Hb) as R.
  repeat split.
  - nia.
  - assert ((x + b - 1) / b <= U / b); [ | nia ].
    apply Z.lt_succ_r. apply Z.div_lt_upper_bound; nia.
  - apply Z.mod_mul. lia.
  - intros Hm. apply Z.div_exact in Hm; [ | lia ].
    assert ((x + b - 1) / b = x / b); [ | nia ].
    rewrite Hm at 1. replace (b * (x / b) + b - 1) with ((b - 1) + (x / b) * b) by ring.
    rewrite Z.div_add by lia. rewrite Z.div_small by lia. lia.
Qed.

Lemma effective_block_size_pos bs : 0 < effective_block_size bs.
Proof. unfold effective_block_size. destruct (Z.leb_spec bs 0); lia. Qed.

Lemma ut_a_inv b u w w' : ut_a b w = Done u w' -> w' = w /\ b = true.
Proof.
  unfold ut_a, ret, ut_error. destruct b; [ | discriminate ].
  intros H. injection H as _ <-. auto.
Qed.

Lemma ut_ad_inv b u w w' : ut_ad b w = Done u w' -> w' = w.
Proof.
  unfold ut_ad. destruct UNIV_DEBUG.
  - intros H. now apply ut_a_inv in H.
  - unfold ret. intros H. now injection H as _ <-.
Qed.

(** [inv_bind H as a w E]: from [H], a run of [c ;; k] that is done, the
    run [E] of [c], done with [a] in the world [w], and, in [H], the run
    of [k]. *)
Tactic Notation "inv_bind" hyp(H) "as" ident(a) ident(w) ident(E) :=
  apply bind_inv_done in H; destruct H as (a & w & E & H).

Ltac inv_access H :=
  apply access_inv in H;
  let E := fresh in destruct H as [H E]; rewrite E in *; clear E.

Lemma ret_inv {A} (a b : A) w w' : ret a w = Done b w' -> b = a /\ w' = w.
Proof. unfold ret. intros H. injection H as <- <-. auto. Qed.

(** Lines 459-477 on a payload within the budget and a block size that
    divides the page size. *)
Lemma align_write_size_spec out1 n hl bs w a w' :
  0 < hl -> 0 <= n -> n + hl <= UNIV_PAGE_SIZE -> UNIV_PAGE_SIZE <= 65536 ->
  UNIV_PAGE_SIZE mod effective_block_size bs = 0 ->
  n + hl <= blen out1 ->
  align_write_size out1 n hl bs w = Done a w' ->
  fst a = ut_uint64_align_up (n + hl) (effective_block_size bs) /\
  w' = w /\ blen (snd a) = blen out1 /\
  (forall o k, o + k <= n + hl -> mem_read (snd a) o k = mem_read out1 o k) /\
  mem_read (snd a) (n + hl) (fst a - (n + hl))
  = Some (repeat zero_byte (Z.to_nat (fst a - (n + hl)))).
Proof.
  intros Hhl Hn Hfit Hps Hdiv Hroom H.
  pose proof (effective_block_size_pos bs) as Hb.
  destruct (align_up_bounds (n + hl) (effective_block_size bs) UNIV_PAGE_SIZE
              Hb ltac:(lia) Hfit Hdiv) as (Hbd & _ & Hex).
  unfold align_write_size in H. fold (effective_block_size bs) in H.
  rewrite (ulint_small (n + hl)) in H by lia.
  inv_bind H as u0 w0 E0. apply ut_ad_inv in E0. subst w0.
  destruct (negb (_ =? 0)) eqn:Hrem.
  - rewrite (ulint_small (ut_uint64_align_up _ _)) in H by lia.
    rewrite ulint_small in H by lia.
    inv_bind H as out2 w1 E1. inv_access E1.
    inv_bind H as u2 w2 E2.
    assert (w2 = w).
    { destruct UNIV_DEBUG.
      - inv_bind E2 as u3 w3 E3. apply ut_a_inv in E3, E2.
        destruct E3, E2. congruence.
      - apply ret_inv in E2. tauto. }
    subst w2. apply ret_inv in H. destruct H as [-> ->]. cbn [fst snd].
    repeat split.
    + eapply memset_length; eauto.
    + intros o k Hok. eapply mem_read_memset_other; eauto.
    + eapply mem_read_memset; eauto.
  - apply ret_inv in H. destruct H as [-> ->]. cbn [fst snd].
    apply negb_false_iff, Z.eqb_eq in Hrem. rewrite (Hex Hrem).
    repeat split.
    rewrite Z.sub_diag. unfold mem_read.
    replace ((0 <=? n + hl) && (0 <=? 0) && (n + hl + 0 <=? blen out1))%bool
      with true by (symmetry; rewrite !andb_true_iff, !Z.leb_le; lia).
    reflexivity.
Qed.

(** ** The compressed page *)

Lemma update_stats_inv f u w w' :
  update_stats f w = Done u w' -> w' = with_stats f w.
Proof. unfold update_stats. intros H. now injection H as _ <-. Qed.

(** The page a successful compression returns: the header as
    [set_up_page_header] wrote it and the payload behind it, then zeros up
    to the block boundary. *)
Lemma compress_finish_page space buf allocated len bs encrypted cm l w r w' :
  LayoutOk ->
  len = UNIV_PAGE_SIZE ->
  0 <= c_write_size l <= UNIV_PAGE_SIZE - compress_header_len encrypted ->
  UNIV_PAGE_SIZE mod effective_block_size bs = 0 ->
  UNIV_PAGE_SIZE <= blen (c_out_buf l) ->
  compress_finish space buf allocated len bs encrypted
    (compress_header_len encrypted) cm l w = Done r w' ->
  let used := c_write_size l + compress_header_len encrypted in
  let aligned := ut_uint64_align_up used (effective_block_size bs) in
  used <= aligned <= UNIV_PAGE_SIZE /\
  r_out_len r = (if srv_use_trim then aligned else len) /\
  r_space r = space /\
  r_ptr r = (if allocated then RetBuf else RetOutBuf) /\
  (if allocated then blen (r_buf r) = blen buf else r_buf r = buf) /\
  len <= blen (returned_page r) /\
  exists out1,
    set_up_page_header (c_out_buf l) buf cm encrypted (c_write_size l)
    = Some out1 /\
    (forall o k, 0 <= o -> 0 <= k -> o + k <= used ->
                 mem_read (returned_page r) o k = mem_read out1 o k) /\
    mem_read (returned_page r) used (aligned - used)
    = Some (repeat zero_byte (Z.to_nat (aligned - used))).
Proof.
  intros L Hlen Hn Hdiv Hroom H used aligned. subst len.
  destruct (header_len_bounds encrypted L) as [Hhl _].
  pose proof (page_max L) as Hps.
  pose proof (effective_block_size_pos bs) as Hb.
  assert (Hu : 0 <= used <= UNIV_PAGE_SIZE) by (unfold used; lia).
  destruct (align_up_bounds used (effective_block_size bs) UNIV_PAGE_SIZE
              Hb (proj1 Hu) (proj2 Hu) Hdiv) as (Hbd & _ & _).
  fold aligned in Hbd.
  unfold compress_finish in H.
  inv_bind H as out1 w1 E1. inv_access E1.
  destruct (set_up_page_header_fields _ _ _ _ _ _ L E1) as (L1 & _).
  inv_bind H as u2 w2 E2.
  inv_bind H as a w3 E3.
  apply align_write_size_spec in E3; try lia.
  destruct E3 as (Ea & -> & La & Keep & Zeros).
  fold used in Ea, Keep, Zeros. fold aligned in Ea. rewrite Ea in *.
  inv_bind H as u4 w4 E4. apply update_stats_inv in E4. subst w4.
  inv_bind H as u5 w5 E5. apply update_stats_inv in E5. subst w5.
  inv_bind H as b w6 E6.
  assert (Hb6 : fst b = (if srv_use_trim then aligned else UNIV_PAGE_SIZE)
                /\ blen (snd b) = blen (snd a)
                /\ forall o k, o + k <= aligned ->
                               mem_read (snd b) o k = mem_read (snd a) o k).
  { destruct srv_use_trim; cbn [negb] in E6.
    - apply ret_inv in E6. destruct E6 as [-> ->]. cbn [fst snd]. auto.
    - inv_bind E6 as o w7 E7. inv_access E7. apply ret_inv in E6.
      destruct E6 as [-> ->]. cbn [fst snd]. repeat split.
      + eapply memset_length; eauto.
      + intros o' k Hok. eapply mem_read_memset_other; eauto. }
  destruct Hb6 as (Eb & Lb & Keep3).
  assert (Hp : forall o k, 0 <= o -> 0 <= k -> o + k <= used ->
                           mem_read (snd b) o k = mem_read out1 o k).
  { intros o k Ho Hk Hok. rewrite Keep3 by lia. apply Keep. lia. }
  assert (Hz : mem_read (snd b) used (aligned - used)
               = Some (repeat zero_byte (Z.to_nat (aligned - used)))).
  { rewrite Keep3 by lia. exact Zeros. }
  destruct allocated.
  - inv_bind H as d w8 E8. inv_access E8.
    inv_bind H as buf' w9 E9. inv_access E9.
    apply ret_inv in H. destruct H as [-> ->].
    unfold returned_page. cbn.
    pose proof (mem_write_length _ _ _ _ E9) as Lw.
    pose proof (mem_write_bounds _ _ _ _ E9) as Bw.
    pose proof (mem_read_length _ _ _ _ E8) as Lr.
    assert (Hin : forall o k, 0 <= o -> 0 <= k -> o + k <= UNIV_PAGE_SIZE ->
                              mem_read buf' o k = mem_read (snd b) o k).
    { intros o k Ho Hk Hok.
      rewrite (mem_read_write_inside _ _ _ _ o k E9) by lia.
      rewrite Z.sub_0_r.
      rewrite (mem_read_read _ _ _ _ o k E8) by lia.
      reflexivity. }
    repeat split; trivial; try lia; try congruence.
    exists out1. repeat split; trivial.
    + intros o k Ho Hk Hok. rewrite Hin by lia. now apply Hp.
    + rewrite Hin by lia. exact Hz.
  - apply ret_inv in H. destruct H as [-> ->].
    unfold returned_page. cbn.
    repeat split; trivial; try lia; try congruence.
    exists out1. repeat split; trivial.
Qed.

(** A call on which the codec succeeds within the budget runs through
    [compress_finish]. *)
Lemma compress_success_run
    space buf out_buf len level block_size encrypted w ptype src n out r w' :
  LayoutOk ->
  0 < len < 2 ^ 31 ->
  (forall s, space = Some s -> FSP_FLAGS_GET_ZIP_SSIZE (flags s) = 0) ->
  fil_page_get_type buf = Some ptype ->
  page_type_rejected ptype = false ->
  mem_read buf 0 len = Some src ->
  codec_compress innodb_compression_algorithm src (effective_level level)
    (compress_header_len encrypted) = Some (true, n, out) ->
  n <= UNIV_PAGE_SIZE - compress_header_len encrypted ->
  working_memory_fits innodb_compression_algorithm
    (output_buffer innodb_compression_algorithm out_buf) ->
  fil_compress_page space buf out_buf len level block_size encrypted w
  = Done r w' ->
  exists l,
    c_write_size l = n /\
    mem_write (output_buffer innodb_compression_algorithm out_buf)
      (compress_header_len encrypted) out = Some (c_out_buf l) /\
    compress_finish space buf (is_allocated out_buf) len block_size encrypted
      (compress_header_len encrypted) innodb_compression_algorithm l
      (record_call (CompressCall innodb_compression_algorithm) w)
    = Done r w'.
Proof.
  intros L Hlen Hzip Hty Hrej Hsrc Hview Hn Hwrk H.
  assert (Hlen0 : len <> 0) by lia.
  rewrite (compress_eligible _ _ _ _ _ _ _ _ _ Hlen0 Hzip Hty Hrej) in H.
  destruct (header_len_bounds encrypted L) as [Hhl _].
  pose proof (page_max L) as Hps.
  assert (Hlen' : 0 <= len < 2 ^ 31) by lia.
  pose proof (compress_switch_spec innodb_compression_algorithm buf
                (output_buffer innodb_compression_algorithm out_buf)
                len (effective_level level) (compress_header_len encrypted)
                src true n out w Hhl Hps Hlen' Hsrc Hwrk Hview) as S.
  inv_bind H as x w1 E.
  destruct (mem_write _ _ out) as [ob' | ] eqn:Hw; [ | congruence ].
  destruct S as (l & Hl & Hob & S).
  replace (UNIV_PAGE_SIZE - compress_header_len encrypted <? n) with false in S
    by (symmetry; apply Z.ltb_ge; lia).
  rewrite andb_false_r in S. cbn [negb orb] in S.
  rewrite S in E. injection E as <- <-.
  exists l. rewrite Hob. auto.
Qed.

(** C7, amended: for every successful compression with a block size
    (512 when the caller passes none) that divides the page size, the
    header and payload length rounded up to the block size is at most the
    page size and every byte of the returned page from the end of the
    payload to the rounded boundary is zero; [*out_len] is that rounded
    length when [srv_use_trim] is set and the input length otherwise. *)
Theorem compressed_length_is_block_aligned
    space buf out_buf len level block_size encrypted w n r :
  compression_succeeds space buf out_buf len level block_size encrypted w n r ->
  UNIV_PAGE_SIZE mod effective_block_size block_size = 0 ->
  let used := compress_header_len encrypted + n in
  let aligned := ut_uint64_align_up used (effective_block_size block_size) in
  r_out_len r = (if srv_use_trim then aligned else len) /\
  aligned <= UNIV_PAGE_SIZE /\
  mem_read (returned_page r) used (aligned - used)
  = Some (repeat zero_byte (Z.to_nat (aligned - used))).
Proof.
  intros (L & Hlen & Hzip & (ptype & Hty & Hrej) & (src & out & Hsrc & Hview)
          & Hn & Hroom & Hwrk & (w' & H)) Hdiv used aligned.
  destruct (header_len_bounds encrypted L) as [Hhl _].
  pose proof (page_max L) as Hps.
  destruct (compress_success_run space buf out_buf len level block_size
              encrypted w ptype src n out r w' L ltac:(lia) Hzip Hty Hrej
              Hsrc Hview (proj2 Hn) Hwrk H) as (l & Hl & Hob & F).
  pose proof (mem_write_length _ _ _ _ Hob) as Lob.
  apply compress_finish_page in F; trivial; try (rewrite Hl; lia); try lia.
  cbv zeta in F. rewrite Hl in F.
  rewrite (Z.add_comm n) in F. fold used in F. fold aligned in F.
  destruct F as (Hbd & Hout & _ & _ & _ & _ & out1 & _ & _ & Hz).
  repeat split; trivial. lia.
Qed.

(** ** Decompression of a well-formed page *)

Lemma mem_read_of_from m off n from :
  mem_from m off = Some from -> 0 <= n -> off + n <= blen m ->
  mem_read m off n = Some (firstn (Z.to_nat n) from).
Proof.
  intros H Hn Hfit. unfold mem_read.
  assert (0 <= off /\ from = skipn (Z.to_nat off) m) as [Ho ->].
  { unfold mem_from in H. destruct ((0 <=? off) && (off <=? blen m))%bool eqn:E;
      [ | discriminate ].
    apply andb_prop in E. destruct E as [E _]. apply Z.leb_le in E.
    injection H as <-. auto. }
  replace ((0 <=? off) && (0 <=? n) && (off + n <=? blen m))%bool with true
    by (symmetry; rewrite !andb_true_iff, !Z.leb_le; lia).
  reflexivity.
Qed.

Lemma mem_read_zero_firstn m n d :
  mem_read m 0 n = Some d -> firstn (Z.to_nat n) m = d.
Proof. intros H. mem_unfold. exact H. Qed.

(** The decompression [switch], arm by arm, on a payload the arm accepts. *)
Lemma decompress_switch_accepts alg buf in_buf hl actual_size len from len' out w :
  mem_from buf hl = Some from ->
  0 <= actual_size -> hl + actual_size <= blen buf ->
  codec_decompress alg from actual_size len = Some (true, len', out) ->
  match mem_write in_buf 0 out with
  | None => decompress_switch alg buf in_buf hl actual_size len w = Undefined
  | Some ib' =>
      exists l,
        d_len l = len' /\ d_in_buf l = ib' /\
        decompress_switch alg buf in_buf hl actual_size len w
        = Done (DBreak l) (record_call (DecompressCall alg) w)
  end.
Proof.
  intros Hfrom Hn Hfit Hview.
  pose proof (mem_read_of_from _ _ _ _ Hfrom Hn Hfit) as Hsrc.
  unfold decompress_switch, codec_decompress in *.
  destruct (alg =? PAGE_ZLIB_ALGORITHM) eqn:E0;
    [ | destruct (HAVE_LZ4 && (alg =? PAGE_LZ4_ALGORITHM)) eqn:E1;
        [ | destruct (HAVE_LZO && (alg =? PAGE_LZO_ALGORITHM)) eqn:E2;
            [ | destruct (HAVE_LZMA && (alg =? PAGE_LZMA_ALGORITHM)) eqn:E3;
                [ | destruct (HAVE_BZIP2 && (alg =? PAGE_BZIP2_ALGORITHM)) eqn:E4;
                    [ | destruct (HAVE_SNAPPY && (alg =? PAGE_SNAPPY_ALGORITHM)) eqn:E5;
                        [ | discriminate Hview ] ] ] ] ] ];
    injection Hview as Hok <- <-;
    first [ erewrite bind_done by (apply access_some, Hsrc)
          | erewrite bind_done by (apply access_some, Hfrom) ];
    unfold decompress_arm, bind, invoke, access, ret;
    rewrite ?andb_true_iff, ?negb_true_iff in Hok;
    repeat match goal with H : _ /\ _ |- _ => destruct H end;
    repeat match goal with
           | H : ?b = true |- context [?b] => rewrite H
           | H : ?b = false |- context [?b] => rewrite H
           end;
    cbn [negb orb];
    (destruct (mem_write in_buf 0 _); [ | reflexivity ]);
    eexists; (split; [ | split ]); try reflexivity; reflexivity.
Qed.

(** [fil_decompress_page] on a page with a well-formed compression header
    whose payload the codec accepts: the output of the codec replaces the
    start of the buffer. *)
Lemma decompress_well_formed
    page_buf P len write_size return_error w encrypted alg n from out :
  LayoutOk -> len <> 0 ->
  mach_read_from_2 P FIL_PAGE_TYPE = Some (header_marker encrypted) ->
  mach_read_from_4 P FIL_PAGE_SPACE_OR_CHKSUM = Some BUF_NO_CHECKSUM_MAGIC ->
  read_compression_alg (header_marker encrypted) P = Some alg ->
  read_actual_size P = Some n ->
  0 < n <= UNIV_PAGE_SIZE ->
  mem_from P (compress_header_len encrypted) = Some from ->
  compress_header_len encrypted + n <= blen P ->
  codec_decompress alg from n len = Some (true, blen out, out) ->
  blen out <= blen P ->
  blen out <= UNIV_PAGE_SIZE ->
  (forall pb, page_buf = Some pb -> blen out <= blen pb) ->
  exists r2 w2,
    fil_decompress_page page_buf P len write_size return_error w
    = Done r2 w2 /\
    mem_write P 0 out = Some (dr_buf r2) /\
    (forall pb, page_buf = Some pb ->
                exists pb', mem_write pb 0 out = Some pb'
                            /\ dr_page_buf r2 = Some pb').
Proof.
  intros L Hlen Hty Hcrc Halg Hsz Hn Hfrom Hfit Hview HoutP Hout Hpb.
  unfold fil_decompress_page.
  erewrite bind_done by (apply ut_ad_true, neqb_true, Hlen).
  erewrite bind_done by (apply access_some, Hty).
  rewrite (compressed_header_len_marker encrypted L).
  erewrite bind_done by (apply access_some, Hcrc).
  rewrite Z.eqb_refl. cbn [negb orb].
  assert (Hm : (negb (header_marker encrypted =? FIL_PAGE_PAGE_COMPRESSED)
                && negb (header_marker encrypted
                         =? FIL_PAGE_PAGE_COMPRESSED_ENCRYPTED))%bool = false).
  { unfold header_marker. destruct encrypted; rewrite Z.eqb_refl; cbn;
      auto using andb_false_r. }
  rewrite Hm.
  erewrite bind_done by (apply access_some, Halg).
  erewrite bind_done by (apply access_some, Hsz).
  replace (n =? 0) with false by (symmetry; apply Z.eqb_neq; lia).
  replace (UNIV_PAGE_SIZE <? n) with false by (symmetry; apply Z.ltb_ge; lia).
  cbn [orb].
  set (in_buf := match page_buf with
                 | Some pb => pb
                 | None => repeat zero_byte (Z.to_nat UNIV_PAGE_SIZE)
                 end).
  assert (Hib : blen out <= blen in_buf).
  { unfold in_buf. destruct page_buf as [pb | ].
    - now apply Hpb.
    - rewrite blen_repeat. lia. }
  pose proof (decompress_switch_accepts alg P in_buf
                (compress_header_len encrypted) n len from (blen out) out w
                Hfrom ltac:(lia) Hfit Hview) as S.
  destruct (mem_write_some in_buf 0 out) as [ib' Hw]; [ lia | lia | ].
  rewrite Hw in S. destruct S as (l & Hl & Hi & S).
  erewrite bind_done by exact S.
  cbv beta iota.
  erewrite bind_done by reflexivity.
  rewrite Hl, Hi.
  pose proof (mem_read_write_same _ _ _ _ Hw) as Hr.
  erewrite bind_done by (apply access_some, Hr).
  destruct (mem_write_some P 0 out) as [P' HP']; [ lia | lia | ].
  erewrite bind_done by (apply access_some, HP').
  unfold decompress_error_return, ret. do 2 eexists. split; [ reflexivity | ].
  cbn [dr_buf dr_page_buf]. split; [ exact HP' | ].
  intros pb ->. exists ib'. auto.
Qed.

(** [fil_decompress_page] on a buffer that shows, up to the end of the
    payload, what [set_up_page_header] left behind the output of a codec
    that inverts itself on [page]. *)
Lemma decompress_image
    page_buf P len write_size return_error w encrypted ob ob' buf out1 out n page :
  LayoutOk -> len <> 0 ->
  mem_write ob (compress_header_len encrypted) out = Some ob' ->
  set_up_page_header ob' buf innodb_compression_algorithm encrypted n
  = Some out1 ->
  n = blen out ->
  0 < n <= UNIV_PAGE_SIZE - compress_header_len encrypted ->
  (forall o k, 0 <= o -> 0 <= k -> o + k <= n + compress_header_len encrypted ->
               mem_read P o k = mem_read out1 o k) ->
  (forall rest,
     codec_decompress innodb_compression_algorithm (out ++ rest) n len
     = Some (true, blen page, page)) ->
  blen page <= blen P ->
  blen page <= UNIV_PAGE_SIZE ->
  (forall pb, page_buf = Some pb -> blen page <= blen pb) ->
  exists r2 w2,
    fil_decompress_page page_buf P len write_size return_error w
    = Done r2 w2 /\
    mem_write P 0 page = Some (dr_buf r2) /\
    (forall pb, page_buf = Some pb ->
                exists pb', mem_write pb 0 page = Some pb'
                            /\ dr_page_buf r2 = Some pb').
Proof.
  intros L Hlen Hob Hset Hnl Hn Hp Hdec HpageP Hpage Hpb.
  destruct (header_len_bounds encrypted L) as [Hhl Hhd].
  destruct (set_up_page_header_fields _ _ _ _ _ _ L Hset)
    as (_ & Ft & Fc & F8 & F2 & Fs & Fpay).
  pose proof L as L'. destruct L'.
  assert (Hpay : mem_read P (compress_header_len encrypted) n = Some out).
  { rewrite Hp by lia. rewrite Fpay by lia.
    rewrite Hnl. eapply mem_read_write_same; eauto. }
  destruct (mem_from_read _ _ _ _ Hpay) as [rest Hfrom].
  pose proof (mem_read_bounds _ _ _ _ Hpay) as Bpay.
  apply (decompress_well_formed page_buf P len write_size return_error w
           encrypted innodb_compression_algorithm n (out ++ rest) page);
    trivial; try lia.
  - unfold mach_read_from_2. rewrite Hp by lia. exact Ft.
  - unfold mach_read_from_4. rewrite Hp by lia. exact Fc.
  - unfold read_compression_alg, header_marker. destruct encrypted.
    + rewrite Z.eqb_refl. unfold mach_read_from_2.
      rewrite Hp
        by (cbv beta iota delta [compress_header_len] in *; lia).
      fold (mach_read_from_2 out1 (FIL_PAGE_DATA + FIL_PAGE_COMPRESSED_SIZE)).
      rewrite F2, Z.mod_small by trivial. reflexivity.
    + apply Z.eqb_neq in markers_differ0. rewrite markers_differ0.
      unfold mach_read_from_8. rewrite Hp by lia.
      fold (mach_read_from_8 out1 FIL_PAGE_FILE_FLUSH_LSN_OR_KEY_VERSION).
      rewrite F8, Z.mod_small by lia. reflexivity.
  - unfold read_actual_size, mach_read_from_2. rewrite Hp by lia.
    fold (mach_read_from_2 out1 FIL_PAGE_DATA).
    rewrite Fs, Z.mod_small by lia. reflexivity.
Qed.

Lemma compress_switch_none comp_method buf ob len lvl hl src ws w :
  0 <= len < 2 ^ 31 ->
  mem_read buf 0 len = Some src ->
  codec_compress comp_method src lvl hl = None ->
  compress_switch comp_method buf ob len lvl hl ws w
  = if comp_method =? PAGE_UNCOMPRESSED then Done CReturnBuf w else Fatal w.
Proof.
  intros Hlen Hsrc Hview. unfold compress_switch, codec_compress in *.
  repeat match type of Hview with
         | (if ?c then _ else _) = None =>
             destruct c; [ discriminate Hview | ]
         end.
  destruct (comp_method =? PAGE_UNCOMPRESSED); reflexivity.
Qed.

Lemma err_exit_returns_buf space buf out_buf len err ws cm w r w' :
  compress_err_exit space buf out_buf len err ws cm w = Done r w' ->
  returned_page r = buf.
Proof.
  intros H.
  destruct (compress_err_exit_done space buf out_buf len err ws cm w)
    as (r0 & w0 & E & Hp & Hb & _).
  rewrite E in H. injection H as <- <-.
  now rewrite (returned_page_ret_buf _ Hp).
Qed.

(** Decompressing what [fil_compress_page] returned gives the page back,
    whether the page was compressed or came back as it was. *)
Lemma decompress_of_compress_result
    space buf out_buf len level block_size encrypted w r w1
    page_buf write_size return_error ptype :
  LayoutOk ->
  len = UNIV_PAGE_SIZE -> blen buf = len ->
  (forall s, space = Some s -> FSP_FLAGS_GET_ZIP_SSIZE (flags s) = 0) ->
  fil_page_get_type buf = Some ptype ->
  page_type_rejected ptype = false ->
  (ptype = FIL_PAGE_PAGE_COMPRESSED_ENCRYPTED -> codec_succeeds buf level encrypted) ->
  In block_size [512; 1024; 4096] ->
  UNIV_PAGE_SIZE mod block_size = 0 ->
  codec_inverts innodb_compression_algorithm buf (effective_level level)
    (compress_header_len encrypted) ->
  UNIV_PAGE_SIZE <= blen (output_buffer innodb_compression_algorithm out_buf) ->
  working_memory_fits innodb_compression_algorithm
    (output_buffer innodb_compression_algorithm out_buf) ->
  (forall pb, page_buf = Some pb -> UNIV_PAGE_SIZE <= blen pb) ->
  fil_compress_page space buf out_buf len level block_size encrypted w
  = Done r w1 ->
  exists r2 w2,
    fil_decompress_page page_buf (returned_page r) len write_size
      return_error w1 = Done r2 w2 /\
    firstn (Z.to_nat len) (dr_buf r2) = buf /\
    (blen (returned_page r) = len -> dr_buf r2 = buf).
Proof.
  intros L Hlen Hblen Hzip Hty Hrej Hce Hbs Hdiv Hinv Hroom Hwrk Hpb H.
  destruct (header_len_bounds encrypted L) as [Hhl Hhd].
  pose proof (page_max L) as Hps.
  assert (Hlen0 : len <> 0) by lia.
  assert (Hlen' : 0 <= len < 2 ^ 31) by lia.
  assert (Hsrc : mem_read buf 0 len = Some buf)
    by (rewrite <- Hblen; apply mem_read_all).
  assert (Hb : ulint (UNIV_PAGE_SIZE - compress_header_len encrypted)
               = UNIV_PAGE_SIZE - compress_header_len encrypted)
    by (apply ulint_small; lia).
  assert (Hnc : ptype <> FIL_PAGE_PAGE_COMPRESSED).
  { intros ->. unfold page_type_rejected in Hrej.
    rewrite Z.eqb_refl, !orb_true_r in Hrej. discriminate. }
  (* what happens when the page comes back as it was *)
  assert (Hback : returned_page r = buf ->
                  ptype <> FIL_PAGE_PAGE_COMPRESSED_ENCRYPTED ->
                  exists r2 w2,
                    fil_decompress_page page_buf (returned_page r) len
                      write_size return_error w1 = Done r2 w2 /\
                    firstn (Z.to_nat len) (dr_buf r2) = buf /\
                    (blen (returned_page r) = len -> dr_buf r2 = buf)).
  { intros -> Hnce.
    rewrite (decompress_not_our_format page_buf buf len
               write_size return_error w1 ptype Hlen0 Hty Hnc Hnce).
    do 2 eexists. split; [ reflexivity | ]. cbn [dr_buf].
    split; [ | reflexivity ].
    rewrite <- Hblen. unfold blen. rewrite Nat2Z.id. apply firstn_all. }
  rewrite (compress_eligible _ _ _ _ _ _ _ _ _ Hlen0 Hzip Hty Hrej) in H.
  inv_bind H as x w0 E.
  destruct (codec_compress innodb_compression_algorithm buf
              (effective_level level) (compress_header_len encrypted))
    as [[[ok n] out] | ] eqn:Hview.
  - pose proof (compress_switch_spec innodb_compression_algorithm buf
                  (output_buffer innodb_compression_algorithm out_buf)
                  len (effective_level level) (compress_header_len encrypted)
                  buf ok n out w Hhl Hps Hlen' Hsrc Hwrk Hview) as S.
    destruct (mem_write _ _ out) as [ob' | ] eqn:Hw; [ | congruence ].
    destruct S as (l & Hl & Hob & S).
    destruct (negb ok || _)%bool eqn:F in S.
    + (* the codec failed: the page comes back as it was *)
      rewrite S in E. injection E as <- <-.
      apply Hback; [ eapply err_exit_returns_buf; eauto | ].
      intros Hp. destruct (Hce Hp) as (n' & out' & Hv' & Hn').
      rewrite Hview in Hv'. injection Hv' as Eok En Eout. subst ok n' out'.
      cbn [negb orb] in F.
      replace (UNIV_PAGE_SIZE - compress_header_len encrypted <? n) with false in F
        by (symmetry; apply Z.ltb_ge; lia).
      rewrite andb_false_r in F. discriminate.
    + (* the codec succeeded *)
      rewrite S in E. injection E as <- <-.
      apply orb_false_iff in F. destruct F as [Fok Fcap].
      apply negb_false_iff in Fok. subst ok.
      destruct (Hinv n out Hview) as (Hn & Hnl & Hnpos & Hdec).
      { rewrite Hb. destruct (relies_on_capacity _); [ now left | right ].
        cbn [negb andb] in Fcap. now apply Z.ltb_ge in Fcap. }
      rewrite Hb in Hn.
      pose proof (mem_write_length _ _ _ _ Hw) as Lob.
      assert (Hbs' : effective_block_size block_size = block_size).
      { unfold effective_block_size. cbn [In] in Hbs.
        destruct Hbs as [<- | [<- | [<- | []]]]; reflexivity. }
      apply compress_finish_page in H; trivial;
        try (rewrite Hl; lia); try (rewrite Hob; lia);
        try (rewrite Hbs'; exact Hdiv).
      cbv zeta in H. rewrite Hl, Hob in H.
      destruct H as (Hbd & _ & _ & _ & _ & HlenP & out1 & Hset & Hp & _).
      destruct (decompress_image page_buf (returned_page r) len write_size
                  return_error w1 encrypted
                  (output_buffer innodb_compression_algorithm out_buf) ob'
                  buf out1 out n buf)
        as (r2 & w2 & Hd & Hwr & _); trivial; try lia.
      * rewrite <- Hblen. apply Hdec.
      * intros pb Epb. specialize (Hpb pb Epb). lia.
      * exists r2, w2. split; [ exact Hd | ]. split.
        -- apply mem_read_write_same in Hwr. rewrite Hblen in Hwr.
           now apply mem_read_zero_firstn.
        -- intros HP. rewrite mem_write_all in Hwr by congruence.
           now injection Hwr as <-.
  - (* no codec arm: the algorithm is "none", or the process aborts *)
    rewrite (compress_switch_none _ _ _ _ _ _ _ _ _ Hlen' Hsrc Hview) in E.
    destruct (_ =? PAGE_UNCOMPRESSED); [ | discriminate ].
    injection E as <- <-. apply ret_inv in H. destruct H as [-> ->].
    apply Hback; [ reflexivity | ].
    intros Hp. destruct (Hce Hp) as (n' & out' & Hv' & _). congruence.
Qed.

(** ** Compression returns *)

Lemma ut_malloc_length site size :
  0 <= size -> blen (ut_malloc_nokey site size) = size.
Proof.
  intros H. unfold ut_malloc_nokey, blen.
  rewrite length_map, length_seq. lia.
Qed.

Lemma ut_a_true b w : b = true -> ut_a b w = Done tt w.
Proof. now intros ->. Qed.

(** Lines 459-477 run to their end when the aligned length lies inside
    the output buffer. *)
Lemma align_write_size_done out1 n hl bs w :
  0 < hl -> 0 <= n -> n + hl <= UNIV_PAGE_SIZE -> UNIV_PAGE_SIZE <= 65536 ->
  UNIV_PAGE_SIZE mod effective_block_size bs = 0 ->
  UNIV_PAGE_SIZE <= blen out1 ->
  exists a, align_write_size out1 n hl bs w = Done a w.
Proof.
  intros Hhl Hn Hfit Hps Hdiv Hroom.
  pose proof (effective_block_size_pos bs) as Hb.
  destruct (align_up_bounds (n + hl) (effective_block_size bs) UNIV_PAGE_SIZE
              Hb ltac:(lia) Hfit Hdiv) as (Hbd & Hmod & _).
  unfold align_write_size. fold (effective_block_size bs).
  rewrite (ulint_small (n + hl)) by lia.
  erewrite bind_done
    by (apply ut_ad_true, andb_true_iff; split; apply Z.ltb_lt; lia).
  destruct (negb (_ =? 0)); [ | eexists; reflexivity ].
  rewrite (ulint_small (ut_uint64_align_up _ _)) by lia.
  rewrite ulint_small by lia.
  destruct (memset_some out1 (n + hl) zero_byte
              (ut_uint64_align_up (n + hl) (effective_block_size bs) - (n + hl)))
    as [o Ho]; try lia.
  erewrite bind_done by (apply access_some, Ho).
  destruct UNIV_DEBUG.
  - erewrite bind_done.
    + eexists; reflexivity.
    + erewrite bind_done.
      * apply ut_a_true. apply Z.leb_le. lia.
      * apply ut_a_true. apply andb_true_iff. split.
        -- apply Z.ltb_lt. lia.
        -- apply Z.eqb_eq. exact Hmod.
  - erewrite bind_done by reflexivity. eexists; reflexivity.
Qed.

(** The debug check of lines 429-457 passes on the header of a payload
    that the codec turns back into the page, for a page that
    [buf_page_is_corrupted] does not object to. *)
Lemma verify_passes space ob ob' buf out1 out n len encrypted w :
  LayoutOk ->
  len = UNIV_PAGE_SIZE -> blen buf = len ->
  mem_write ob (compress_header_len encrypted) out = Some ob' ->
  set_up_page_header ob' buf innodb_compression_algorithm encrypted n
  = Some out1 ->
  n = blen out ->
  0 < n <= UNIV_PAGE_SIZE - compress_header_len encrypted ->
  UNIV_PAGE_SIZE <= blen ob ->
  (forall rest,
     codec_decompress innodb_compression_algorithm (out ++ rest) n len
     = Some (true, blen buf, buf)) ->
  (UNIV_DEBUG = true -> buf_page_is_corrupted buf space = false) ->
  exists w',
    verify_compressed_page space out1 len n innodb_compression_algorithm w
    = Done tt w'.
Proof.
  intros L Hlen Hblen Hob Hset Hnl Hn Hroom Hdec Hsound.
  unfold verify_compressed_page.
  destruct UNIV_DEBUG eqn:Hdbg; [ | eexists; reflexivity ].
  destruct (header_len_bounds encrypted L) as [Hhl Hhd].
  destruct (set_up_page_header_fields _ _ _ _ _ _ L Hset)
    as (L1 & Ft & Fc & F8 & F2 & Fs & Fpay).
  pose proof (mem_write_length _ _ _ _ Hob) as Lob.
  pose proof (page_max L) as Hps.
  pose proof (method_range L) as Hcm.
  erewrite bind_done by (apply access_some, Ft).
  erewrite bind_done.
  2: { apply ut_ad_true. unfold header_marker.
       destruct encrypted; rewrite Z.eqb_refl; auto using orb_true_r. }
  erewrite bind_done by (apply access_some, Fc).
  erewrite bind_done by (apply ut_ad_true, Z.eqb_refl).
  erewrite bind_done by (apply access_some, Fs).
  erewrite bind_done
    by (apply ut_ad_true; rewrite Z.mod_small by lia; apply Z.eqb_refl).
  erewrite bind_done by (apply access_some, F8).
  rewrite (Z.mod_small innodb_compression_algorithm) by lia.
  rewrite Z.eqb_refl.
  erewrite bind_done by reflexivity.
  destruct (mem_read_some out1 0 UNIV_PAGE_SIZE) as [comp_page Hcp]; try lia.
  erewrite bind_done by (apply access_some, Hcp).
  pose proof (mem_read_length _ _ _ _ Hcp) as Lcp.
  assert (Hjunk : blen (ut_malloc_nokey 2 UNIV_PAGE_SIZE) = UNIV_PAGE_SIZE)
    by (apply ut_malloc_length; lia).
  destruct (decompress_image (Some (ut_malloc_nokey 2 UNIV_PAGE_SIZE))
              comp_page len None false w encrypted ob ob' buf out1 out n buf)
    as (r2 & w2 & Hd & _ & Hpb); trivial; try lia.
  - intros o k Ho Hk Hok.
    rewrite (mem_read_read _ _ _ _ o k Hcp) by lia. reflexivity.
  - intros pb E. injection E as <-. lia.
  - erewrite bind_done by exact Hd.
    destruct (Hpb _ eq_refl) as (pb' & Hw & ->).
    rewrite mem_write_all in Hw by lia. injection Hw as <-.
    rewrite (Hsound eq_refl). eexists; reflexivity.
Qed.

(** The way from the [switch] to the successful return runs to its end. *)
Lemma compress_finish_done
    space buf out_buf ob' out len block_size encrypted l w :
  LayoutOk ->
  len = UNIV_PAGE_SIZE -> blen buf = len ->
  mem_write (output_buffer innodb_compression_algorithm out_buf)
    (compress_header_len encrypted) out = Some ob' ->
  c_out_buf l = ob' ->
  c_write_size l = blen out ->
  0 < c_write_size l <= UNIV_PAGE_SIZE - compress_header_len encrypted ->
  UNIV_PAGE_SIZE <= blen (output_buffer innodb_compression_algorithm out_buf) ->
  UNIV_PAGE_SIZE mod effective_block_size block_size = 0 ->
  (forall rest,
     codec_decompress innodb_compression_algorithm (out ++ rest)
       (c_write_size l) len = Some (true, blen buf, buf)) ->
  (UNIV_DEBUG = true -> buf_page_is_corrupted buf space = false) ->
  exists r w',
    compress_finish space buf (is_allocated out_buf) len block_size encrypted
      (compress_header_len encrypted) innodb_compression_algorithm l w
    = Done r w'.
Proof.
  intros L Hlen Hblen Hob Hl Hnl Hn Hroom Hdiv Hdec Hsound.
  destruct (header_len_bounds encrypted L) as [Hhl Hhd].
  pose proof (page_max L) as Hps.
  pose proof (mem_write_length _ _ _ _ Hob) as Lob.
  pose proof (effective_block_size_pos block_size) as Hb.
  unfold compress_finish. rewrite Hl.
  destruct (set_up_page_header_some ob' buf innodb_compression_algorithm
              encrypted (c_write_size l) L) as [out1 Hset]; try lia.
  erewrite bind_done by (apply access_some, Hset).
  destruct (set_up_page_header_fields _ _ _ _ _ _ L Hset) as (L1 & _).
  destruct (verify_passes space
              (output_buffer innodb_compression_algorithm out_buf) ob' buf
              out1 out (c_write_size l) len encrypted w)
    as [w1 Hv]; trivial.
  erewrite bind_done by exact Hv.
  destruct (align_write_size_done out1 (c_write_size l)
              (compress_header_len encrypted) block_size w1)
    as [a Ha]; try lia.
  erewrite bind_done by exact Ha.
  pose proof Ha as Hsp.
  apply align_write_size_spec in Hsp; trivial; try lia.
  destruct Hsp as (Ea & _ & La & _).
  assert (Hlo : 0 <= c_write_size l + compress_header_len encrypted) by lia.
  assert (Hup : c_write_size l + compress_header_len encrypted
                <= UNIV_PAGE_SIZE) by lia.
  destruct (align_up_bounds _ _ _ Hb Hlo Hup Hdiv) as (Hbd & _).
  erewrite bind_done by reflexivity.
  erewrite bind_done by reflexivity.
  assert (Hb6 : exists b w6,
             (if negb srv_use_trim
              then o <- access (memset (snd a) (fst a) zero_byte
                                  (ulint (len - fst a)));;
                   ret (len, o)
              else ret (fst a, snd a))
               (with_stats inc_pages_page_compressed
                  (with_stats
                     (add_page_compression_saved (ulint (len - fst a))) w1))
             = Done b w6 /\ blen (snd b) = blen (snd a)).
  { destruct srv_use_trim; cbn [negb].
    - do 2 eexists. split; [ reflexivity | reflexivity ].
    - rewrite ulint_small by lia.
      destruct (memset_some (snd a) (fst a) zero_byte (len - fst a))
        as [o Ho]; try lia.
      erewrite bind_done by (apply access_some, Ho).
      do 2 eexists. split; [ reflexivity | ]. cbn [snd].
      eapply memset_length; eauto. }
  destruct Hb6 as (b & w6 & Hb6 & Lb).
  erewrite bind_done by exact Hb6.
  destruct out_buf as [o | ]; cbn [is_allocated].
  - do 2 eexists. reflexivity.
  - destruct (mem_read_some (snd b) 0 len) as [d Hd]; try lia.
    erewrite bind_done by (apply access_some, Hd).
    pose proof (mem_read_length _ _ _ _ Hd) as Ld.
    destruct (mem_write_some buf 0 d) as [buf' Hbuf']; try lia.
    erewrite bind_done by (apply access_some, Hbuf').
    do 2 eexists. reflexivity.
Qed.

Lemma supported_without_arm comp_method src lvl hl :
  LayoutOk ->
  supported_algorithm comp_method ->
  codec_compress comp_method src lvl hl = None ->
  comp_method = PAGE_UNCOMPRESSED.
Proof.
  intros L Hs Hview. unfold codec_compress in Hview.
  repeat match type of Hview with
         | (if ?c then _ else _) = None =>
             let E := fresh "E" in
             destruct c eqn:E; [ discriminate Hview | ]
         end.
  destruct Hs as [Hs | [Hs | Hs]]; trivial.
  - subst. rewrite Z.eqb_refl in *. discriminate.
  - repeat match goal with
           | H : _ \/ _ |- _ => destruct H
           | H : _ /\ _ |- _ => destruct H
           end;
      subst; repeat match goal with
                    | H : true = true |- _ => clear H
                    | H : ?h = true, E : ?h && _ = false |- _ => rewrite H in E
                    end;
      rewrite Z.eqb_refl in *; discriminate.
Qed.

(** For a supported algorithm whose codec inverts itself on the page,
    [fil_compress_page] returns: it neither runs out of its buffers nor
    aborts. *)
Lemma compress_returns
    space buf out_buf len level block_size encrypted w ptype :
  LayoutOk ->
  len = UNIV_PAGE_SIZE -> blen buf = len ->
  (forall s, space = Some s -> FSP_FLAGS_GET_ZIP_SSIZE (flags s) = 0) ->
  fil_page_get_type buf = Some ptype ->
  supported_algorithm innodb_compression_algorithm ->
  UNIV_PAGE_SIZE mod effective_block_size block_size = 0 ->
  codec_inverts innodb_compression_algorithm buf (effective_level level)
    (compress_header_len encrypted) ->
  UNIV_PAGE_SIZE <= blen (output_buffer innodb_compression_algorithm out_buf) ->
  stored_output_fits innodb_compression_algorithm buf (effective_level level)
    (compress_header_len encrypted)
    (output_buffer innodb_compression_algorithm out_buf) ->
  working_memory_fits innodb_compression_algorithm
    (output_buffer innodb_compression_algorithm out_buf) ->
  (UNIV_DEBUG = true -> buf_page_is_corrupted buf space = false) ->
  exists r w1,
    fil_compress_page space buf out_buf len level block_size encrypted w
    = Done r w1.
Proof.
  intros L Hlen Hblen Hzip Hty Hsup Hdiv Hinv Hroom Hfits Hwrk Hsound.
  destruct (header_len_bounds encrypted L) as [Hhl Hhd].
  pose proof (page_max L) as Hps.
  assert (Hlen0 : len <> 0) by lia.
  assert (Hlen' : 0 <= len < 2 ^ 31) by lia.
  assert (Hsrc : mem_read buf 0 len = Some buf)
    by (rewrite <- Hblen; apply mem_read_all).
  assert (Hb : ulint (UNIV_PAGE_SIZE - compress_header_len encrypted)
               = UNIV_PAGE_SIZE - compress_header_len encrypted)
    by (apply ulint_small; lia).
  destruct (page_type_rejected ptype) eqn:Hrej.
  { rewrite (compress_rejected _ _ _ _ _ _ _ _ _ Hlen0 Hzip Hty Hrej).
    destruct (compress_err_exit_done space buf out_buf len Z_OK 0
                innodb_compression_algorithm w) as (r & w' & E & _).
    eauto. }
  rewrite (compress_eligible _ _ _ _ _ _ _ _ _ Hlen0 Hzip Hty Hrej).
  destruct (codec_compress innodb_compression_algorithm buf
              (effective_level level) (compress_header_len encrypted))
    as [[[ok n] out] | ] eqn:Hview.
  - pose proof (compress_switch_spec innodb_compression_algorithm buf
                  (output_buffer innodb_compression_algorithm out_buf)
                  len (effective_level level) (compress_header_len encrypted)
                  buf ok n out w Hhl Hps Hlen' Hsrc Hwrk Hview) as S.
    destruct (mem_write_some (output_buffer innodb_compression_algorithm out_buf)
                (compress_header_len encrypted) out) as [ob' Hw];
      [ lia | exact (Hfits ok n out Hview) | ].
    rewrite Hw in S. destruct S as (l & Hl & Hob & S).
    erewrite bind_done by exact S.
    destruct (negb ok || _)%bool eqn:F.
    + destruct (compress_err_exit_done space buf
                  (caller_view out_buf (c_out_buf l)) len (c_err l)
                  (c_write_size l) innodb_compression_algorithm
                  (record_call (CompressCall innodb_compression_algorithm) w))
        as (r & w' & E & _).
      eauto.
    + apply orb_false_iff in F. destruct F as [Fok Fcap].
      apply negb_false_iff in Fok. subst ok.
      destruct (Hinv n out Hview) as (Hn & Hnl & Hnpos & Hdec).
      { rewrite Hb. destruct (relies_on_capacity _); [ now left | right ].
        cbn [negb andb] in Fcap. now apply Z.ltb_ge in Fcap. }
      rewrite Hb in Hn.
      apply compress_finish_done with (ob' := ob') (out := out); trivial;
        try (rewrite Hl; lia).
      intros rest. rewrite Hl, <- Hblen. apply Hdec.
  - pose proof (compress_switch_none innodb_compression_algorithm buf
                  (output_buffer innodb_compression_algorithm out_buf) len
                  (effective_level level) (compress_header_len encrypted) buf
                  (ulint (UNIV_PAGE_SIZE - compress_header_len encrypted)) w
                  Hlen' Hsrc Hview) as S.
    assert (E : (innodb_compression_algorithm =? PAGE_UNCOMPRESSED) = true)
      by (apply Z.eqb_eq, (supported_without_arm _ _ _ _ L Hsup Hview)).
    rewrite E in S. erewrite bind_done by exact S.
    do 2 eexists. reflexivity.
Qed.

(** C1: for every supported algorithm whose codec inverts itself on the
    page, every level, every block size of 512, 1024 and 4096 and both
    header variants, and for every logical page of an eligible type, that
    is, a page whose type the type switch of [fil_compress_page] does not
    reject and which does not carry the marker of a compressed and
    encrypted page either, [fil_compress_page] returns and decompressing
    what it returned gives the page back (as the first [len] bytes of the
    buffer, which are all of it when the buffer holds just a page). *)
Theorem compress_then_decompress_restores_page
    space buf out_buf len level block_size encrypted w
    page_buf write_size return_error ptype :
  LayoutOk ->
  len = UNIV_PAGE_SIZE -> blen buf = len ->
  (forall s, space = Some s -> FSP_FLAGS_GET_ZIP_SSIZE (flags s) = 0) ->
  fil_page_get_type buf = Some ptype ->
  page_type_rejected ptype = false ->
  ptype <> FIL_PAGE_PAGE_COMPRESSED_ENCRYPTED ->
  supported_algorithm innodb_compression_algorithm ->
  In block_size [512; 1024; 4096] ->
  UNIV_PAGE_SIZE mod block_size = 0 ->
  codec_inverts innodb_compression_algorithm buf (effective_level level)
    (compress_header_len encrypted) ->
  UNIV_PAGE_SIZE <= blen (output_buffer innodb_compression_algorithm out_buf) ->
  stored_output_fits innodb_compression_algorithm buf (effective_level level)
    (compress_header_len encrypted)
    (output_buffer innodb_compression_algorithm out_buf) ->
  working_memory_fits innodb_compression_algorithm
    (output_buffer innodb_compression_algorithm out_buf) ->
  (UNIV_DEBUG = true -> buf_page_is_corrupted buf space = false) ->
  (forall pb, page_buf = Some pb -> UNIV_PAGE_SIZE <= blen pb) ->
  exists r w1 r2 w2,
    fil_compress_page space buf out_buf len level block_size encrypted w
    = Done r w1 /\
    fil_decompress_page page_buf (returned_page r) len write_size
      return_error w1 = Done r2 w2 /\
    firstn (Z.to_nat len) (dr_buf r2) = buf /\
    (blen (returned_page r) = len -> dr_buf r2 = buf).
Proof.
  intros L Hlen Hblen Hzip Hty Hrej Hlog Hsup Hbs Hdiv Hinv Hroom Hfits Hwrk
    Hsound Hpb.
  assert (Hce : ptype = FIL_PAGE_PAGE_COMPRESSED_ENCRYPTED ->
                codec_succeeds buf level encrypted)
    by (intros E; contradiction).
  assert (Hbs' : effective_block_size block_size = block_size).
  { unfold effective_block_size. cbn [In] in Hbs.
    destruct Hbs as [<- | [<- | [<- | []]]]; reflexivity. }
  destruct (compress_returns space buf out_buf len level block_size encrypted
              w ptype) as (r & w1 & Hc); trivial;
    try (rewrite Hbs'; exact Hdiv).
  destruct (decompress_of_compress_result space buf out_buf len level
              block_size encrypted w r w1 page_buf write_size return_error
              ptype) as (r2 & w2 & Hd); trivial.
  exists r, w1, r2, w2. auto.
Qed.

(** ** Corrupted pages *)

Lemma decompress_switch_none alg buf in_buf hl actual_size len from w :
  mem_from buf hl = Some from ->
  0 <= actual_size -> hl + actual_size <= blen buf ->
  codec_decompress alg from actual_size len = None ->
  decompress_switch alg buf in_buf hl actual_size len w
  = Done (DErrExit {| d_err := 0; d_len := len; d_in_buf := in_buf |}) w.
Proof.
  intros Hfrom Hn Hfit Hview. unfold decompress_switch, codec_decompress in *.
  repeat match type of Hview with
         | (if ?c then _ else _) = None =>
             destruct c; [ discriminate Hview | ]
         end.
  reflexivity.
Qed.

(** In report mode a page whose integrity marker is not the no-checksum
    magic is logged as corrupted and left as it is. *)
Lemma report_mode_bad_magic page_buf buf len write_size w ptype hl crc :
  len <> 0 ->
  mach_read_from_2 buf FIL_PAGE_TYPE = Some ptype ->
  compressed_header_len ptype = Some hl ->
  mach_read_from_4 buf FIL_PAGE_SPACE_OR_CHKSUM = Some crc ->
  crc <> BUF_NO_CHECKSUM_MAGIC ->
  fil_decompress_page page_buf buf len write_size true w
  = Done {| dr_buf := buf; dr_page_buf := page_buf;
            dr_write_size := write_size |}
      (record_event (ErrCorruptCRC crc ptype len) w).
Proof.
  intros Hlen Hty Hhl Hcrc Hbad. unfold fil_decompress_page.
  erewrite bind_done by (apply ut_ad_true, neqb_true, Hlen).
  erewrite bind_done by (apply access_some, Hty).
  rewrite Hhl.
  erewrite bind_done by (apply access_some, Hcrc).
  rewrite (neqb_true _ _ Hbad). cbn [orb].
  erewrite bind_done by reflexivity.
  unfold decompress_error_return, ret. now destruct page_buf.
Qed.

(** In report mode a page whose payload length is 0 or more than a page
    is logged as corrupted and left as it is. *)
Lemma report_mode_bad_size page_buf buf len write_size w ptype hl alg n :
  len <> 0 ->
  mach_read_from_2 buf FIL_PAGE_TYPE = Some ptype ->
  compressed_header_len ptype = Some hl ->
  mach_read_from_4 buf FIL_PAGE_SPACE_OR_CHKSUM = Some BUF_NO_CHECKSUM_MAGIC ->
  read_compression_alg ptype buf = Some alg ->
  read_actual_size buf = Some n ->
  n = 0 \/ UNIV_PAGE_SIZE < n ->
  fil_decompress_page page_buf buf len write_size true w
  = Done {| dr_buf := buf; dr_page_buf := page_buf;
            dr_write_size := write_size |}
      (record_event (ErrCorruptSize n (fil_get_compression_alg_name alg)) w).
Proof.
  intros Hlen Hty Hhl Hcrc Halg Hsz Hbad. unfold fil_decompress_page.
  erewrite bind_done by (apply ut_ad_true, neqb_true, Hlen).
  erewrite bind_done by (apply access_some, Hty).
  rewrite Hhl.
  erewrite bind_done by (apply access_some, Hcrc).
  rewrite Z.eqb_refl. cbn [negb orb].
  assert (Hm : (negb (ptype =? FIL_PAGE_PAGE_COMPRESSED)
                && negb (ptype =? FIL_PAGE_PAGE_COMPRESSED_ENCRYPTED))%bool
               = false).
  { unfold compressed_header_len in Hhl.
    destruct (ptype =? FIL_PAGE_PAGE_COMPRESSED_ENCRYPTED);
      [ apply andb_false_r | ].
    destruct (ptype =? FIL_PAGE_PAGE_COMPRESSED); [ reflexivity | discriminate ]. }
  rewrite Hm.
  erewrite bind_done by (apply access_some, Halg).
  erewrite bind_done by (apply access_some, Hsz).
  replace ((n =? 0) || (UNIV_PAGE_SIZE <? n))%bool with true
    by (symmetry; rewrite orb_true_iff, Z.eqb_eq, Z.ltb_lt; exact Hbad).
  erewrite bind_done by reflexivity.
  unfold decompress_error_return, ret. now destruct page_buf.
Qed.

(** An algorithm id without an arm in the [switch] leads to [err_exit]
    whatever [return_error] is: a [UNIV_DEBUG] build aborts there, in
    report mode too. *)
Lemma unknown_algorithm_aborts_debug_build
    page_buf buf len write_size return_error w ptype hl alg n from space_id :
  UNIV_DEBUG = true ->
  len <> 0 ->
  mach_read_from_2 buf FIL_PAGE_TYPE = Some ptype ->
  compressed_header_len ptype = Some hl ->
  mach_read_from_4 buf FIL_PAGE_SPACE_OR_CHKSUM = Some BUF_NO_CHECKSUM_MAGIC ->
  read_compression_alg ptype buf = Some alg ->
  read_actual_size buf = Some n ->
  0 < n <= UNIV_PAGE_SIZE ->
  mem_from buf hl = Some from -> hl + n <= blen buf ->
  codec_decompress alg from n len = None ->
  mach_read_from_4 buf FIL_PAGE_SPACE_ID = Some space_id ->
  fil_decompress_page page_buf buf len write_size return_error w
  = Fatal (record_event PagePrinted
             (record_event
                (ErrUncompressFailed space_id
                   (space_name_or "NULL" (fil_space_acquire_for_io space_id))
                   0 n len (fil_get_compression_alg_name alg)) w)).
Proof.
  intros Hdbg Hlen Hty Hhl Hcrc Halg Hsz Hn Hfrom Hfit Hview Hsp.
  unfold fil_decompress_page.
  erewrite bind_done by (apply ut_ad_true, neqb_true, Hlen).
  erewrite bind_done by (apply access_some, Hty).
  rewrite Hhl.
  erewrite bind_done by (apply access_some, Hcrc).
  rewrite Z.eqb_refl. cbn [negb orb].
  assert (Hm : (negb (ptype =? FIL_PAGE_PAGE_COMPRESSED)
                && negb (ptype =? FIL_PAGE_PAGE_COMPRESSED_ENCRYPTED))%bool
               = false).
  { unfold compressed_header_len in Hhl.
    destruct (ptype =? FIL_PAGE_PAGE_COMPRESSED_ENCRYPTED);
      [ apply andb_false_r | ].
    destruct (ptype =? FIL_PAGE_PAGE_COMPRESSED); [ reflexivity | discriminate ]. }
  rewrite Hm.
  erewrite bind_done by (apply access_some, Halg).
  erewrite bind_done by (apply access_some, Hsz).
  replace (n =? 0) with false by (symmetry; apply Z.eqb_neq; lia).
  replace (UNIV_PAGE_SIZE <? n) with false by (symmetry; apply Z.ltb_ge; lia).
  cbn [orb].
  erewrite bind_done
    by (apply decompress_switch_none with (from := from); trivial; lia).
  cbv beta iota. unfold decompress_err_exit.
  erewrite bind_done by (apply access_some, Hsp).
  erewrite bind_done by reflexivity.
  erewrite bind_done by reflexivity.
  unfold bind, ut_ad, ut_a, ut_error. rewrite Hdbg. reflexivity.
Qed.

(** ** What a call leaves of the world *)

Lemma leaves_ret {A T} (f : world -> T) (a : A) : leaves f (ret a).
Proof. intros w a' w' H. apply ret_inv in H. now destruct H as [_ ->]. Qed.

Lemma leaves_bind {A B' T} (f : world -> T) (c : M A) (k : A -> M B') :
  leaves f c -> (forall a, leaves f (k a)) -> leaves f (bind c k).
Proof.
  intros Hc Hk w b w' H. inv_bind H as a w1 E.
  rewrite (Hk _ _ _ _ H). eapply Hc, E.
Qed.

Lemma leaves_access {A T} (f : world -> T) (o : option A) : leaves f (access o).
Proof. intros w a w' H. apply access_inv in H. now destruct H as [_ ->]. Qed.

Lemma leaves_ut_error {A T} (f : world -> T) : leaves f (@ut_error A).
Proof. intros w a w' H. discriminate H. Qed.

Lemma leaves_ut_a {T} (f : world -> T) b : leaves f (ut_a b).
Proof. intros w a w' H. apply ut_a_inv in H. now destruct H as [-> _]. Qed.

Lemma leaves_ut_ad {T} (f : world -> T) b : leaves f (ut_ad b).
Proof. intros w a w' H. apply ut_ad_inv in H. now subst. Qed.

Lemma counters_emit e : leaves compress_counters (emit e).
Proof. intros w a w' H. injection H as _ <-. reflexivity. Qed.

Lemma counters_invoke c : leaves compress_counters (invoke c).
Proof. intros w a w' H. injection H as _ <-. reflexivity. Qed.

Lemma counters_decompressed :
  leaves compress_counters (update_stats inc_pages_page_decompressed).
Proof. intros w a w' H. injection H as _ <-. reflexivity. Qed.

Create HintDb frame discriminated.

#[local] Hint Resolve leaves_ret leaves_access leaves_ut_error leaves_ut_a
  leaves_ut_ad counters_emit counters_invoke counters_decompressed : frame.

(** Steps known to leave it first, then through the computation. *)
Ltac frame :=
  repeat first
    [ solve [ auto 1 with frame nocore ]
    | apply leaves_bind; [ | intros ? ]
    | match goal with
      | |- leaves _ (if ?b then _ else _) => destruct b
      | |- leaves _ (match ?x with _ => _ end) => destruct x
      | |- leaves _ (let _ := _ in _) => cbv zeta
      end ].

Lemma decompress_switch_leaves_counters alg buf in_buf hl actual_size len :
  leaves compress_counters (decompress_switch alg buf in_buf hl actual_size len).
Proof. unfold decompress_switch, decompress_arm. frame. Qed.

#[local] Hint Resolve decompress_switch_leaves_counters : frame.

(** [fil_decompress_page] does not touch the counters of compression. *)
Lemma decompress_leaves_counters page_buf buf len write_size return_error :
  leaves compress_counters
    (fil_decompress_page page_buf buf len write_size return_error).
Proof.
  unfold fil_decompress_page, decompress_error_return, decompress_err_exit.
  frame.
Qed.

#[local] Hint Resolve decompress_leaves_counters : frame.

Lemma verify_leaves_counters space out_buf len write_size comp_method :
  leaves compress_counters
    (verify_compressed_page space out_buf len write_size comp_method).
Proof. unfold verify_compressed_page. frame. Qed.

Lemma align_write_size_world out_buf n hl bs w a w' :
  align_write_size out_buf n hl bs w = Done a w' -> w' = w.
Proof.
  unfold align_write_size. intros H.
  inv_bind H as u w1 E. apply ut_ad_inv in E. subst w1.
  destruct (negb _).
  - inv_bind H as o w2 E2. apply access_inv in E2. destruct E2 as [_ ->].
    inv_bind H as u3 w3 E3.
    assert (w3 = w).
    { destruct UNIV_DEBUG.
      - inv_bind E3 as u4 w4 E4. apply ut_a_inv in E4, E3.
        destruct E4 as [-> _], E3 as [-> _]. reflexivity.
      - apply ret_inv in E3. now destruct E3. }
    subst w3. apply ret_inv in H. now destruct H.
  - apply ret_inv in H. now destruct H.
Qed.

(** The worlds of a finished run of [compress_finish]: the one the debug
    check leaves, then the two counters. *)
Lemma compress_finish_world space buf allocated len bs encrypted hl cm l w r w' :
  compress_finish space buf allocated len bs encrypted hl cm l w = Done r w' ->
  exists out1 w1 a,
    set_up_page_header (c_out_buf l) buf cm encrypted (c_write_size l)
    = Some out1 /\
    verify_compressed_page space out1 len (c_write_size l) cm w = Done tt w1 /\
    align_write_size out1 (c_write_size l) hl bs w1 = Done a w1 /\
    w' = with_stats inc_pages_page_compressed
           (with_stats (add_page_compression_saved (ulint (len - fst a))) w1).
Proof.
  unfold compress_finish. intros H.
  inv_bind H as out1 w0 E1. inv_access E1.
  inv_bind H as u2 w1 E2. destruct u2.
  inv_bind H as a w3 E3.
  pose proof (align_write_size_world _ _ _ _ _ _ _ E3). subst w3.
  inv_bind H as u4 w4 E4. apply update_stats_inv in E4. subst w4.
  inv_bind H as u5 w5 E5. apply update_stats_inv in E5. subst w5.
  inv_bind H as b w6 E6.
  assert (w6 = with_stats inc_pages_page_compressed
                 (with_stats (add_page_compression_saved (ulint (len - fst a))) w1)).
  { destruct (negb srv_use_trim).
    - inv_bind E6 as o w7 E7. apply access_inv in E7. destruct E7 as [_ ->].
      apply ret_inv in E6. now destruct E6.
    - apply ret_inv in E6. now destruct E6. }
  subst w6.
  assert (w' = with_stats inc_pages_page_compressed
                 (with_stats (add_page_compression_saved (ulint (len - fst a))) w1)).
  { destruct allocated.
    - inv_bind H as d w8 E8. apply access_inv in E8. destruct E8 as [_ ->].
      inv_bind H as b' w9 E9. apply access_inv in E9. destruct E9 as [_ ->].
      apply ret_inv in H. now destruct H.
    - apply ret_inv in H. now destruct H. }
  exists out1, w1, a. auto.
Qed.

(** X1: a successful compression is counted once in
    [pages_page_compressed], adds the input length less the aligned
    length to [page_compression_saved], with [srv_use_trim] off too,
    leaves [pages_page_compression_error] alone and logs no
    compression warning. *)
Theorem successful_compression_is_counted
    space buf out_buf len level block_size encrypted w ptype src n out r w' :
  LayoutOk ->
  len = UNIV_PAGE_SIZE ->
  (forall s, space = Some s -> FSP_FLAGS_GET_ZIP_SSIZE (flags s) = 0) ->
  fil_page_get_type buf = Some ptype ->
  page_type_rejected ptype = false ->
  mem_read buf 0 len = Some src ->
  codec_compress innodb_compression_algorithm src (effective_level level)
    (compress_header_len encrypted) = Some (true, n, out) ->
  0 <= n <= UNIV_PAGE_SIZE - compress_header_len encrypted ->
  UNIV_PAGE_SIZE mod effective_block_size block_size = 0 ->
  UNIV_PAGE_SIZE <= blen (output_buffer innodb_compression_algorithm out_buf) ->
  working_memory_fits innodb_compression_algorithm
    (output_buffer innodb_compression_algorithm out_buf) ->
  fil_compress_page space buf out_buf len level block_size encrypted w
  = Done r w' ->
  let aligned :=
    ut_uint64_align_up (n + compress_header_len encrypted)
      (effective_block_size block_size) in
  pages_page_compressed (srv_stats w')
  = ulint (pages_page_compressed (srv_stats w) + 1) /\
  page_compression_saved (srv_stats w')
  = ulint (page_compression_saved (srv_stats w) + (len - aligned)) /\
  pages_page_compression_error (srv_stats w')
  = pages_page_compression_error (srv_stats w) /\
  compression_warnings w' = compression_warnings w.
Proof.
  intros L Hlen Hzip Hty Hrej Hsrc Hview Hn Hdiv Hroom Hwrk H aligned.
  destruct (header_len_bounds encrypted L) as [Hhl _].
  pose proof (page_max L) as Hps.
  destruct (compress_success_run space buf out_buf len level block_size
              encrypted w ptype src n out r w' L ltac:(lia) Hzip Hty Hrej
              Hsrc Hview (proj2 Hn) Hwrk H) as (l & Hl & Hob & F).
  pose proof (mem_write_length _ _ _ _ Hob) as Lob.
  apply compress_finish_world in F.
  destruct F as (out1 & w1 & a & Hset & Hv & Ha & ->).
  destruct (set_up_page_header_fields _ _ _ _ _ _ L Hset) as (L1 & _).
  apply align_write_size_spec in Ha; trivial; try lia.
  destruct Ha as (Ea & _). rewrite Hl in Ea. fold aligned in Ea. rewrite Ea.
  pose proof (effective_block_size_pos block_size) as Hb.
  assert (Hlo : 0 <= n + compress_header_len encrypted) by lia.
  assert (Hup : n + compress_header_len encrypted <= UNIV_PAGE_SIZE) by lia.
  destruct (align_up_bounds _ _ _ Hb Hlo Hup Hdiv) as (Hbd & _).
  fold aligned in Hbd.
  pose proof (verify_leaves_counters _ _ _ _ _ _ _ _ Hv) as Hc.
  unfold compress_counters in Hc. cbn [srv_stats record_call] in Hc.
  injection Hc as Hs Hp He.
  pose proof (quiet_verify space out1 len (c_write_size l)
                innodb_compression_algorithm
                (record_call (CompressCall innodb_compression_algorithm) w) w1)
    as Hq.
  rewrite Hv in Hq. specialize (Hq eq_refl).
  cbn [srv_stats with_stats inc_pages_page_compressed
         add_page_compression_saved pages_page_compressed
         page_compression_saved pages_page_compression_error].
  rewrite Hs, Hp, He.
  rewrite (ulint_small (len - aligned)) by lia.
  repeat split; trivial.
Qed.

Lemma compress_err_exit_stats space buf out_buf len err write_size comp_method w :
  exists r w',
    compress_err_exit space buf out_buf len err write_size comp_method w
    = Done r w' /\
    srv_stats w' = inc_pages_page_compression_error (srv_stats w) /\
    calls w' = calls w /\
    compression_warnings w' = (compression_warnings w + allowance space)%nat.
Proof.
  unfold compress_err_exit, compression_warnings.
  destruct space as [s | ]; [ destruct (printed_compression_failure s) eqn:P | ];
    cbn [negb allowance]; rewrite ?P; unfold bind, ret, emit, update_stats; cbn;
    do 2 eexists; (split; [ reflexivity | ]); cbn;
    rewrite ?filter_app, ?length_app; cbn; auto with zarith.
Qed.

(** X2: a compression that fails in the codec is counted once in
    [pages_page_compression_error] and in no other counter, has run the
    compress primitive once, and logs the warning exactly when the
    tablespace has not logged one before. *)
Theorem failed_compression_is_counted
    space buf out_buf len level block_size encrypted w ptype src ok n out :
  LayoutOk ->
  0 < len < 2 ^ 31 ->
  (forall s, space = Some s -> FSP_FLAGS_GET_ZIP_SSIZE (flags s) = 0) ->
  fil_page_get_type buf = Some ptype ->
  page_type_rejected ptype = false ->
  mem_read buf 0 len = Some src ->
  codec_compress innodb_compression_algorithm src (effective_level level)
    (compress_header_len encrypted) = Some (ok, n, out) ->
  (relies_on_capacity innodb_compression_algorithm = true ->
   ok = true -> n <= UNIV_PAGE_SIZE - compress_header_len encrypted) ->
  compress_header_len encrypted + blen out
  <= blen (output_buffer innodb_compression_algorithm out_buf) ->
  working_memory_fits innodb_compression_algorithm
    (output_buffer innodb_compression_algorithm out_buf) ->
  ok = false \/ UNIV_PAGE_SIZE - compress_header_len encrypted < n ->
  exists r w',
    fil_compress_page space buf out_buf len level block_size encrypted w
    = Done r w' /\
    srv_stats w' = inc_pages_page_compression_error (srv_stats w) /\
    calls w' = calls w ++ [CompressCall innodb_compression_algorithm] /\
    compression_warnings w' = (compression_warnings w + allowance space)%nat.
Proof.
  intros L Hlen Hzip Hty Hrej Hsrc Hview Hcap Hroom Hwrk Hfail.
  assert (Hlen0 : len <> 0) by lia.
  rewrite (compress_eligible _ _ _ _ _ _ _ _ _ Hlen0 Hzip Hty Hrej).
  destruct (header_len_bounds encrypted L) as [Hhl _].
  pose proof (page_max L) as Hps.
  assert (Hlen' : 0 <= len < 2 ^ 31) by lia.
  pose proof (compress_switch_spec innodb_compression_algorithm buf
                (output_buffer innodb_compression_algorithm out_buf)
                len (effective_level level) (compress_header_len encrypted)
                src ok n out w Hhl Hps Hlen' Hsrc Hwrk Hview) as S.
  destruct (mem_write_some (output_buffer innodb_compression_algorithm out_buf)
              (compress_header_len encrypted) out) as [ob' Hw];
    [ lia | exact Hroom | ].
  rewrite Hw in S. destruct S as (l & _ & _ & S).
  assert (F : negb ok
              || (negb (relies_on_capacity innodb_compression_algorithm)
                  && (UNIV_PAGE_SIZE - compress_header_len encrypted <? n))
              = true).
  { destruct ok; cbn [negb orb]; trivial.
    destruct Hfail as [Hf | Hf]; [ discriminate | ].
    destruct (relies_on_capacity innodb_compression_algorithm).
    - specialize (Hcap eq_refl eq_refl). lia.
    - cbn [negb andb]. now apply Z.ltb_lt. }
  rewrite F in S. erewrite bind_done by exact S.
  destruct (compress_err_exit_stats space buf
              (caller_view out_buf (c_out_buf l)) len (c_err l)
              (c_write_size l) innodb_compression_algorithm
              (record_call (CompressCall innodb_compression_algorithm) w))
    as (r & w' & E & Hs & Hc & Hd).
  exists r, w'. auto.
Qed.

(** ** The buffers of a call *)

Lemma compress_arm_buffer cm ob hl err ws out failed w x w' :
  compress_arm cm ob hl err ws out failed w = Done x w' ->
  match x with
  | CBreak l | CErrExit l => blen (c_out_buf l) = blen ob
  | CReturnBuf => True
  end.
Proof.
  unfold compress_arm. intros H.
  inv_bind H as u w1 E1. inv_bind H as o w2 E2.
  apply access_inv in E2. destruct E2 as [E2 _].
  apply mem_write_length in E2.
  destruct failed; apply ret_inv in H; destruct H as [-> _]; exact E2.
Qed.

Lemma compress_switch_buffer cm buf ob len lvl hl ws w x w' :
  compress_switch cm buf ob len lvl hl ws w = Done x w' ->
  match x with
  | CBreak l | CErrExit l => blen (c_out_buf l) = blen ob
  | CReturnBuf => True
  end.
Proof.
  unfold compress_switch. intros H.
  repeat match type of H with
         | (if ?c then _ else _) _ = _ => destruct c
         end;
    try discriminate H;
    try (apply ret_inv in H; destruct H as [-> _]; exact I);
    repeat match type of H with
           | bind (access _) _ _ = _ =>
               let a := fresh "a" in let w := fresh "w" in
               let E := fresh "E" in inv_bind H as a w E; clear E
           end;
    eapply compress_arm_buffer, H.
Qed.

Lemma set_up_page_header_length ob buf cm encrypted ws o :
  set_up_page_header ob buf cm encrypted ws = Some o -> blen o = blen ob.
Proof.
  unfold set_up_page_header, mach_write_to_2, mach_write_to_4, mach_write_to_8.
  intros H.
  repeat match type of H with
         | match ?x with _ => _ end = Some _ =>
             let E := fresh "E" in destruct x eqn:E; [ | discriminate H ]
         end.
  destruct encrypted.
  - repeat match goal with
           | E : match ?x with _ => _ end = Some _ |- _ =>
               let E' := fresh "E" in destruct x eqn:E'; [ | discriminate E ]
           end.
    repeat match goal with
           | E : mem_write _ _ _ = Some _ |- _ => apply mem_write_length in E
           end.
    congruence.
  - repeat match goal with
           | E : mem_write _ _ _ = Some _ |- _ => apply mem_write_length in E
           end.
    congruence.
Qed.

Lemma align_write_size_length out_buf n hl bs w a w' :
  align_write_size out_buf n hl bs w = Done a w' ->
  blen (snd a) = blen out_buf.
Proof.
  unfold align_write_size. intros H.
  inv_bind H as u w1 E.
  destruct (negb _).
  - inv_bind H as o w2 E2. apply access_inv in E2. destruct E2 as [E2 _].
    inv_bind H as u3 w3 E3.
    apply ret_inv in H. destruct H as [-> _]. cbn [snd].
    eapply memset_length, E2.
  - apply ret_inv in H. now destruct H as [-> _].
Qed.

Lemma compress_finish_buffers
    space buf allocated len bs encrypted hl cm l w r w' :
  compress_finish space buf allocated len bs encrypted hl cm l w = Done r w' ->
  if allocated
  then r_ptr r = RetBuf /\ r_out_buf r = None /\ blen (r_buf r) = blen buf
  else r_ptr r = RetOutBuf /\ r_buf r = buf /\
       exists o, r_out_buf r = Some o /\ blen o = blen (c_out_buf l).
Proof.
  unfold compress_finish. intros H.
  inv_bind H as out1 w0 E1. apply access_inv in E1. destruct E1 as [E1 _].
  apply set_up_page_header_length in E1.
  inv_bind H as u2 w1 E2.
  inv_bind H as a w3 E3. apply align_write_size_length in E3.
  inv_bind H as u4 w4 E4. inv_bind H as u5 w5 E5.
  inv_bind H as b w6 E6.
  assert (Lb : blen (snd b) = blen (snd a)).
  { destruct (negb srv_use_trim).
    - inv_bind E6 as o w7 E7. apply access_inv in E7. destruct E7 as [E7 _].
      apply ret_inv in E6. destruct E6 as [-> _]. cbn [snd].
      eapply memset_length, E7.
    - apply ret_inv in E6. now destruct E6 as [-> _]. }
  destruct allocated.
  - inv_bind H as d w8 E8. inv_bind H as b' w9 E9.
    apply access_inv in E9. destruct E9 as [E9 _].
    apply mem_write_length in E9.
    apply ret_inv in H. destruct H as [-> _]. cbn. auto.
  - apply ret_inv in H. destruct H as [-> _]. cbn.
    repeat split. eexists. split; [ reflexivity | congruence ].
Qed.

Lemma compress_err_exit_buffers space buf out_buf len err ws cm w r w' :
  compress_err_exit space buf out_buf len err ws cm w = Done r w' ->
  r_ptr r = RetBuf /\ r_buf r = buf /\ r_out_buf r = out_buf.
Proof.
  intros H.
  destruct (compress_err_exit_done space buf out_buf len err ws cm w)
    as (r0 & w0 & E & Hp & Hb & Ho & _).
  rewrite E in H. injection H as <- <-. auto.
Qed.

(** X3: however a call of [fil_compress_page] ends, without an output
    buffer of the caller's it returns [buf], never the block it
    allocated, and [buf] keeps its length; with one it leaves [buf] as
    it was and the output buffer keeps its length. *)
Theorem compress_buffer_discipline
    space buf out_buf len level block_size encrypted w r w' :
  fil_compress_page space buf out_buf len level block_size encrypted w
  = Done r w' ->
  match out_buf with
  | None => r_ptr r = RetBuf /\ r_out_buf r = None /\ blen (r_buf r) = blen buf
  | Some o =>
      r_buf r = buf /\ exists o', r_out_buf r = Some o' /\ blen o' = blen o
  end.
Proof.
  unfold fil_compress_page. intros H.
  inv_bind H as u0 w0 E0. inv_bind H as u1 w1 E1.
  inv_bind H as ptype w2 E2.
  destruct (page_type_rejected ptype).
  - apply compress_err_exit_buffers in H. destruct H as (Hp & Hb & Ho).
    destruct out_buf as [o | ]; cbn in *; rewrite ?Hb; eauto.
  - inv_bind H as x w3 E3. apply compress_switch_buffer in E3.
    destruct x as [l | l | ].
    + apply compress_finish_buffers in H.
      destruct out_buf as [o | ]; cbn in *.
      * destruct H as (_ & Hb & o' & Ho & Hl). split; [ exact Hb | ].
        exists o'. split; [ exact Ho | congruence ].
      * exact H.
    + apply compress_err_exit_buffers in H. destruct H as (Hp & Hb & Ho).
      destruct out_buf as [o | ]; cbn in *; rewrite ?Hb; eauto.
    + apply ret_inv in H. destruct H as [-> _].
      destruct out_buf as [o | ]; cbn; eauto.
Qed.

(** ** The header fields compression does not write *)

(** [set_up_page_header] copies the page header and then writes the
    checksum field, the page type and the 8-byte field only: the rest of
    the header, page number, LSN and space id among it, is the one of
    the page. *)
Lemma set_up_page_header_keeps ob buf cm encrypted ws o off k :
  LayoutOk ->
  set_up_page_header ob buf cm encrypted ws = Some o ->
  0 <= off -> 0 <= k -> off + k <= FIL_PAGE_DATA ->
  off + k <= FIL_PAGE_SPACE_OR_CHKSUM \/ FIL_PAGE_SPACE_OR_CHKSUM + 4 <= off ->
  off + k <= FIL_PAGE_TYPE \/ FIL_PAGE_TYPE + 2 <= off ->
  off + k <= FIL_PAGE_FILE_FLUSH_LSN_OR_KEY_VERSION
  \/ FIL_PAGE_FILE_FLUSH_LSN_OR_KEY_VERSION + 8 <= off ->
  mem_read o off k = mem_read buf off k.
Proof.
  intros L H Hoff Hk Hend Dc Dt Dl. destruct L.
  unfold set_up_page_header in H.
  destruct (mem_read buf 0 FIL_PAGE_DATA) as [hdr | ] eqn:R0; [ | discriminate ].
  destruct (mem_write ob 0 hdr) as [o1 | ] eqn:W1; [ | discriminate ].
  destruct (mach_write_to_4 o1 _ _) as [o2 | ] eqn:W2; [ | discriminate ].
  destruct (mach_write_to_8 o2 _ _) as [o3 | ] eqn:W3; [ | discriminate ].
  pose proof (mem_read_length _ _ _ _ R0) as Lh.
  unfold mach_write_to_4, mach_write_to_8 in W2, W3.
  assert (Hcopy : mem_read o1 off k = mem_read buf off k).
  { rewrite (mem_read_write_inside _ _ _ _ off k W1) by lia.
    rewrite Z.sub_0_r.
    rewrite (mem_read_read _ _ _ _ off k R0) by lia.
    reflexivity. }
  destruct encrypted.
  - destruct (mach_write_to_2 o3 _ _) as [o4 | ] eqn:W4; [ | discriminate ].
    destruct (mach_write_to_2 o4 _ _) as [o5 | ] eqn:W5; [ | discriminate ].
    unfold mach_write_to_2 in W4, W5, H.
    behind H. behind W5. behind W4. behind W3. behind W2. exact Hcopy.
  - destruct (mach_write_to_2 o3 _ _) as [o4 | ] eqn:W4; [ | discriminate ].
    unfold mach_write_to_2 in W4, H.
    behind H. behind W4. behind W3. behind W2. exact Hcopy.
Qed.

(** X4: the compressed page carries the header of the logical page in
    every byte outside the three fields compression writes (checksum,
    page type, 8-byte algorithm field): page number, LSN and space id
    come through a successful compression unchanged. *)
Theorem compressed_page_keeps_header_fields
    space buf out_buf len level block_size encrypted w ptype src n out r w'
    off k :
  LayoutOk ->
  len = UNIV_PAGE_SIZE ->
  (forall s, space = Some s -> FSP_FLAGS_GET_ZIP_SSIZE (flags s) = 0) ->
  fil_page_get_type buf = Some ptype ->
  page_type_rejected ptype = false ->
  mem_read buf 0 len = Some src ->
  codec_compress innodb_compression_algorithm src (effective_level level)
    (compress_header_len encrypted) = Some (true, n, out) ->
  0 <= n <= UNIV_PAGE_SIZE - compress_header_len encrypted ->
  UNIV_PAGE_SIZE mod effective_block_size block_size = 0 ->
  UNIV_PAGE_SIZE <= blen (output_buffer innodb_compression_algorithm out_buf) ->
  working_memory_fits innodb_compression_algorithm
    (output_buffer innodb_compression_algorithm out_buf) ->
  fil_compress_page space buf out_buf len level block_size encrypted w
  = Done r w' ->
  0 <= off -> 0 <= k -> off + k <= FIL_PAGE_DATA ->
  off + k <= FIL_PAGE_SPACE_OR_CHKSUM \/ FIL_PAGE_SPACE_OR_CHKSUM + 4 <= off ->
  off + k <= FIL_PAGE_TYPE \/ FIL_PAGE_TYPE + 2 <= off ->
  off + k <= FIL_PAGE_FILE_FLUSH_LSN_OR_KEY_VERSION
  \/ FIL_PAGE_FILE_FLUSH_LSN_OR_KEY_VERSION + 8 <= off ->
  mem_read (returned_page r) off k = mem_read buf off k.
Proof.
  intros L Hlen Hzip Hty Hrej Hsrc Hview Hn Hdiv Hroom Hwrk H
    Hoff Hk Hend Dc Dt Dl.
  destruct (header_len_bounds encrypted L) as [Hhl Hhd].
  pose proof (page_max L) as Hps.
  destruct (compress_success_run space buf out_buf len level block_size
              encrypted w ptype src n out r w' L ltac:(lia) Hzip Hty Hrej
              Hsrc Hview (proj2 Hn) Hwrk H) as (l & Hl & Hob & F).
  pose proof (mem_write_length _ _ _ _ Hob) as Lob.
  apply compress_finish_page in F; trivial; try (rewrite Hl; lia); try lia.
  cbv zeta in F. rewrite Hl in F.
  destruct F as (_ & _ & _ & _ & _ & _ & out1 & Hset & Hkeep & _).
  rewrite Hkeep by lia.
  apply (set_up_page_header_keeps _ _ _ _ _ _ off k L Hset); trivial.
Qed.

(** ** The end of the page without trim *)

Lemma compress_finish_tail space buf allocated len bs encrypted cm l w r w' :
  LayoutOk ->
  len = UNIV_PAGE_SIZE ->
  0 <= c_write_size l <= UNIV_PAGE_SIZE - compress_header_len encrypted ->
  UNIV_PAGE_SIZE mod effective_block_size bs = 0 ->
  UNIV_PAGE_SIZE <= blen (c_out_buf l) ->
  srv_use_trim = false ->
  compress_finish space buf allocated len bs encrypted
    (compress_header_len encrypted) cm l w = Done r w' ->
  let aligned :=
    ut_uint64_align_up (c_write_size l + compress_header_len encrypted)
      (effective_block_size bs) in
  mem_read (returned_page r) aligned (len - aligned)
  = Some (repeat zero_byte (Z.to_nat (len - aligned))).
Proof.
  intros L Hlen Hn Hdiv Hroom Htrim H aligned. subst len.
  destruct (header_len_bounds encrypted L) as [Hhl _].
  pose proof (page_max L) as Hps.
  pose proof (effective_block_size_pos bs) as Hb.
  assert (Hlo : 0 <= c_write_size l + compress_header_len encrypted) by lia.
  assert (Hup : c_write_size l + compress_header_len encrypted
                <= UNIV_PAGE_SIZE) by lia.
  destruct (align_up_bounds _ _ _ Hb Hlo Hup Hdiv) as (Hbd & _ & _).
  fold aligned in Hbd.
  unfold compress_finish in H. rewrite Htrim in H. cbn [negb] in H.
  inv_bind H as out1 w1 E1. inv_access E1.
  destruct (set_up_page_header_fields _ _ _ _ _ _ L E1) as (L1 & _).
  inv_bind H as u2 w2 E2.
  inv_bind H as a w3 E3.
  apply align_write_size_spec in E3; trivial; try lia.
  destruct E3 as (Ea & _ & La & _). fold aligned in Ea.
  inv_bind H as u4 w4 E4. inv_bind H as u5 w5 E5.
  inv_bind H as b w6 E6.
  inv_bind E6 as o w7 E7. inv_access E7.
  apply ret_inv in E6. destruct E6 as [-> _]. cbn [fst snd] in H.
  rewrite Ea in E7. rewrite ulint_small in E7 by lia.
  pose proof (mem_read_memset _ _ _ _ _ E7) as Hz.
  pose proof (memset_length _ _ _ _ _ E7) as Lo.
  destruct allocated.
  - inv_bind H as d w8 E8. inv_access E8.
    inv_bind H as buf' w9 E9. inv_access E9.
    apply ret_inv in H. destruct H as [-> _].
    unfold returned_page. cbn.
    pose proof (mem_read_length _ _ _ _ E8) as Lr.
    rewrite (mem_read_write_inside _ _ _ _ aligned
               (UNIV_PAGE_SIZE - aligned) E9) by lia.
    rewrite Z.sub_0_r.
    rewrite (mem_read_read _ _ _ _ aligned (UNIV_PAGE_SIZE - aligned) E8)
      by lia.
    exact Hz.
  - apply ret_inv in H. destruct H as [-> _].
    unfold returned_page. cbn. exact Hz.
Qed.

(** X5: with [srv_use_trim] off, every byte of the page a successful
    compression returns, from the aligned length to the end of the page,
    is zero. *)
Theorem untrimmed_page_ends_in_zeros
    space buf out_buf len level block_size encrypted w ptype src n out r w' :
  LayoutOk ->
  len = UNIV_PAGE_SIZE ->
  (forall s, space = Some s -> FSP_FLAGS_GET_ZIP_SSIZE (flags s) = 0) ->
  fil_page_get_type buf = Some ptype ->
  page_type_rejected ptype = false ->
  mem_read buf 0 len = Some src ->
  codec_compress innodb_compression_algorithm src (effective_level level)
    (compress_header_len encrypted) = Some (true, n, out) ->
  0 <= n <= UNIV_PAGE_SIZE - compress_header_len encrypted ->
  UNIV_PAGE_SIZE mod effective_block_size block_size = 0 ->
  UNIV_PAGE_SIZE <= blen (output_buffer innodb_compression_algorithm out_buf) ->
  working_memory_fits innodb_compression_algorithm
    (output_buffer innodb_compression_algorithm out_buf) ->
  srv_use_trim = false ->
  fil_compress_page space buf out_buf len level block_size encrypted w
  = Done r w' ->
  let aligned :=
    ut_uint64_align_up (n + compress_header_len encrypted)
      (effective_block_size block_size) in
  r_out_len r = len /\
  mem_read (returned_page r) aligned (len - aligned)
  = Some (repeat zero_byte (Z.to_nat (len - aligned))).
Proof.
  intros L Hlen Hzip Hty Hrej Hsrc Hview Hn Hdiv Hroom Hwrk Htrim H aligned.
  destruct (header_len_bounds encrypted L) as [Hhl Hhd].
  pose proof (page_max L) as Hps.
  destruct (compress_success_run space buf out_buf len level block_size
              encrypted w ptype src n out r w' L ltac:(lia) Hzip Hty Hrej
              Hsrc Hview (proj2 Hn) Hwrk H) as (l & Hl & Hob & F).
  pose proof (mem_write_length _ _ _ _ Hob) as Lob.
  split.
  - apply compress_finish_page in F; trivial; try (rewrite Hl; lia); try lia.
    cbv zeta in F. destruct F as (_ & Hout & _). now rewrite Htrim in Hout.
  - apply compress_finish_tail in F; trivial; try (rewrite Hl; lia); try lia.
    cbv zeta in F. rewrite Hl in F. exact F.
Qed.

(** ** Compressing a compressed page *)

(** X6: a page that [fil_compress_page] compressed with the plain header
    is not compressed a second time: handed to [fil_compress_page]
    again, whatever the other arguments, it comes back as it is, with
    [*out_len] the input length, without a call of a codec primitive, and
    counted as a compression error. *)
Theorem compressed_page_is_not_compressed_again
    space buf out_buf len level block_size w ptype src n out r w'
    out_buf2 level2 block_size2 encrypted2 w2 :
  LayoutOk ->
  len = UNIV_PAGE_SIZE ->
  (forall s, space = Some s -> FSP_FLAGS_GET_ZIP_SSIZE (flags s) = 0) ->
  fil_page_get_type buf = Some ptype ->
  page_type_rejected ptype = false ->
  mem_read buf 0 len = Some src ->
  codec_compress innodb_compression_algorithm src (effective_level level)
    (compress_header_len false) = Some (true, n, out) ->
  0 <= n <= UNIV_PAGE_SIZE - compress_header_len false ->
  UNIV_PAGE_SIZE mod effective_block_size block_size = 0 ->
  UNIV_PAGE_SIZE <= blen (output_buffer innodb_compression_algorithm out_buf) ->
  working_memory_fits innodb_compression_algorithm
    (output_buffer innodb_compression_algorithm out_buf) ->
  fil_compress_page space buf out_buf len level block_size false w
  = Done r w' ->
  exists r2 w2',
    fil_compress_page (r_space r) (returned_page r) out_buf2 len level2
      block_size2 encrypted2 w2 = Done r2 w2' /\
    r_ptr r2 = RetBuf /\ returned_page r2 = returned_page r /\
    r_out_len r2 = len /\ calls w2' = calls w2 /\
    pages_page_compression_error (srv_stats w2')
    = ulint (pages_page_compression_error (srv_stats w2) + 1).
Proof.
  intros L Hlen Hzip Hty Hrej Hsrc Hview Hn Hdiv Hroom Hwrk H.
  destruct (header_len_bounds false L) as [Hhl Hhd].
  pose proof (page_max L) as Hps.
  pose proof L as L'. destruct L'.
  destruct (compress_success_run space buf out_buf len level block_size
              false w ptype src n out r w' L ltac:(lia) Hzip Hty Hrej
              Hsrc Hview (proj2 Hn) Hwrk H) as (l & Hl & Hob & F).
  pose proof (mem_write_length _ _ _ _ Hob) as Lob.
  apply compress_finish_page in F; trivial; try (rewrite Hl; lia); try lia.
  cbv zeta in F. rewrite Hl in F.
  destruct F as (_ & _ & Hsp & _ & _ & _ & out1 & Hset & Hkeep & _).
  destruct (set_up_page_header_fields _ _ _ _ _ _ L Hset) as (_ & Ft & _).
  assert (Hty2 : fil_page_get_type (returned_page r)
                 = Some FIL_PAGE_PAGE_COMPRESSED).
  { unfold fil_page_get_type, mach_read_from_2.
    rewrite Hkeep by lia. exact Ft. }
  assert (Hrej2 : page_type_rejected FIL_PAGE_PAGE_COMPRESSED = true).
  { apply page_type_rejected_iff. auto. }
  assert (Hlen0 : len <> 0) by lia.
  rewrite Hsp.
  rewrite (compress_rejected space (returned_page r) out_buf2 len level2
             block_size2 encrypted2 w2 _ Hlen0 Hzip Hty2 Hrej2).
  destruct (compress_err_exit_done space (returned_page r) out_buf2 len Z_OK 0
              innodb_compression_algorithm w2)
    as (r2 & w2' & E & Hp & Hb & _ & Hl2 & Hc & Hcnt & _).
  exists r2, w2'. rewrite (returned_page_ret_buf _ Hp). auto 10.
Qed.

(** ** Corruption found in the header *)

Lemma our_format_marker ptype hl :
  compressed_header_len ptype = Some hl ->
  (negb (ptype =? FIL_PAGE_PAGE_COMPRESSED)
   && negb (ptype =? FIL_PAGE_PAGE_COMPRESSED_ENCRYPTED))%bool = false.
Proof.
  unfold compressed_header_len. intros Hhl.
  destruct (ptype =? FIL_PAGE_PAGE_COMPRESSED_ENCRYPTED);
    [ apply andb_false_r | ].
  destruct (ptype =? FIL_PAGE_PAGE_COMPRESSED); [ reflexivity | discriminate ].
Qed.

(** X7: a page with a compressed marker whose checksum field does not
    hold the no-checksum magic is logged as corrupted before any codec
    runs; in report mode the call returns with the page, the scratch
    buffer and [*write_size] as they were, otherwise the process
    aborts. *)
Theorem bad_magic_is_reported_or_fatal
    page_buf buf len write_size return_error w ptype hl crc :
  len <> 0 ->
  mach_read_from_2 buf FIL_PAGE_TYPE = Some ptype ->
  compressed_header_len ptype = Some hl ->
  mach_read_from_4 buf FIL_PAGE_SPACE_OR_CHKSUM = Some crc ->
  crc <> BUF_NO_CHECKSUM_MAGIC ->
  fil_decompress_page page_buf buf len write_size return_error w
  = if return_error
    then Done {| dr_buf := buf; dr_page_buf := page_buf;
                 dr_write_size := write_size |}
           (record_event (ErrCorruptCRC crc ptype len) w)
    else Fatal (record_event (ErrCorruptCRC crc ptype len) w).
Proof.
  intros Hlen Hty Hhl Hcrc Hbad. unfold fil_decompress_page.
  erewrite bind_done by (apply ut_ad_true, neqb_true, Hlen).
  erewrite bind_done by (apply access_some, Hty).
  rewrite Hhl.
  erewrite bind_done by (apply access_some, Hcrc).
  rewrite (neqb_true _ _ Hbad). cbn [orb].
  erewrite bind_done by reflexivity.
  destruct return_error; [ | reflexivity ].
  unfold decompress_error_return, ret. now destruct page_buf.
Qed.

(** X8: a page with a compressed marker and the magic whose payload
    length field is 0 or more than the page size is logged as corrupted
    before any codec runs; in report mode the call returns with the page,
    the scratch buffer and [*write_size] as they were, otherwise the
    process aborts. *)
Theorem bad_payload_length_is_reported_or_fatal
    page_buf buf len write_size return_error w ptype hl alg n :
  len <> 0 ->
  mach_read_from_2 buf FIL_PAGE_TYPE = Some ptype ->
  compressed_header_len ptype = Some hl ->
  mach_read_from_4 buf FIL_PAGE_SPACE_OR_CHKSUM = Some BUF_NO_CHECKSUM_MAGIC ->
  read_compression_alg ptype buf = Some alg ->
  read_actual_size buf = Some n ->
  n = 0 \/ UNIV_PAGE_SIZE < n ->
  fil_decompress_page page_buf buf len write_size return_error w
  = if return_error
    then Done {| dr_buf := buf; dr_page_buf := page_buf;
                 dr_write_size := write_size |}
           (record_event
              (ErrCorruptSize n (fil_get_compression_alg_name alg)) w)
    else Fatal (record_event
                  (ErrCorruptSize n (fil_get_compression_alg_name alg)) w).
Proof.
  intros Hlen Hty Hhl Hcrc Halg Hsz Hbad. unfold fil_decompress_page.
  erewrite bind_done by (apply ut_ad_true, neqb_true, Hlen).
  erewrite bind_done by (apply access_some, Hty).
  rewrite Hhl.
  erewrite bind_done by (apply access_some, Hcrc).
  rewrite Z.eqb_refl. cbn [negb orb].
  rewrite (our_format_marker _ _ Hhl).
  erewrite bind_done by (apply access_some, Halg).
  erewrite bind_done by (apply access_some, Hsz).
  replace ((n =? 0) || (UNIV_PAGE_SIZE <? n))%bool with true
    by (symmetry; rewrite orb_true_iff, Z.eqb_eq, Z.ltb_lt; exact Hbad).
  erewrite bind_done by reflexivity.
  destruct return_error; [ | reflexivity ].
  unfold decompress_error_return, ret. now destruct page_buf.
Qed.

(** ** A payload the codec does not accept *)

(** The scratch buffer of a call. *)
Lemma decompress_switch_rejects alg buf in_buf hl actual_size len from w :
  mem_from buf hl = Some from ->
  0 <= actual_size -> hl + actual_size <= blen buf ->
  (forall len' out,
     codec_decompress alg from actual_size len <> Some (true, len', out)) ->
  (forall ok len' out,
     codec_decompress alg from actual_size len = Some (ok, len', out) ->
     blen out <= blen in_buf) ->
  exists l w1,
    decompress_switch alg buf in_buf hl actual_size len w
    = Done (DErrExit l) w1 /\
    diag w1 = diag w /\ srv_stats w1 = srv_stats w /\
    blen (d_in_buf l) = blen in_buf /\
    (calls w1 = calls w \/ calls w1 = calls w ++ [DecompressCall alg]).
Proof.
  intros Hfrom Hn Hfit Hno Hroom.
  pose proof (mem_read_of_from _ _ _ _ Hfrom Hn Hfit) as Hsrc.
  unfold decompress_switch, codec_decompress in *.
  destruct (alg =? PAGE_ZLIB_ALGORITHM) eqn:E0;
    [ | destruct (HAVE_LZ4 && (alg =? PAGE_LZ4_ALGORITHM)) eqn:E1;
        [ | destruct (HAVE_LZO && (alg =? PAGE_LZO_ALGORITHM)) eqn:E2;
            [ | destruct (HAVE_LZMA && (alg =? PAGE_LZMA_ALGORITHM)) eqn:E3;
                [ | destruct (HAVE_BZIP2 && (alg =? PAGE_BZIP2_ALGORITHM)) eqn:E4;
                    [ | destruct (HAVE_SNAPPY && (alg =? PAGE_SNAPPY_ALGORITHM)) eqn:E5;
                        [ | do 2 eexists; split; [ reflexivity | auto ] ] ] ] ] ] ];
    first [ erewrite bind_done by (apply access_some, Hsrc)
          | erewrite bind_done by (apply access_some, Hfrom) ];
    match type of Hroom with
    | forall ok len' out, Some (?b, ?l, ?o) = _ -> _ =>
        specialize (Hroom b l o eq_refl);
        assert (Hb : b = false)
          by (destruct b eqn:Eb; [ exfalso; eapply Hno; reflexivity | reflexivity ]);
        destruct (mem_write_some in_buf 0 o) as [ib' Hw]; [ lia | lia | ]
    end;
    pose proof (mem_write_length _ _ _ _ Hw) as Lw;
    unfold decompress_arm, bind, invoke, access, ret; rewrite Hw;
    rewrite ?andb_false_iff, ?negb_false_iff, ?orb_true_iff in Hb;
    repeat match goal with
           | H : _ \/ _ |- _ => destruct H
           end;
    repeat match goal with
           | H : ?b = true |- context [?b] => rewrite H
           | H : ?b = false |- context [?b] => rewrite H
           end;
    cbn [negb orb]; rewrite ?orb_true_r;
    do 2 eexists; (split; [ reflexivity | ]); cbn; auto.
Qed.

(** X9: when the codec does not accept the payload of a page with a
    well-formed compression header, or the header names an algorithm
    without an arm, [return_error] makes no difference: there is one
    outcome, and the call has it with [return_error] set and without.
    The failure is logged with the space id of the page, the page is
    printed, the primitive has been called at most once, and then a
    [UNIV_DEBUG] build aborts while any other build returns, with the
    page as it was, [pages_page_decompressed] as it was and [*write_size]
    already set to the payload length. *)
Theorem failed_decompression_ignores_report_mode
    page_buf buf len write_size w ptype hl alg n from space_id :
  len <> 0 ->
  mach_read_from_2 buf FIL_PAGE_TYPE = Some ptype ->
  compressed_header_len ptype = Some hl ->
  mach_read_from_4 buf FIL_PAGE_SPACE_OR_CHKSUM = Some BUF_NO_CHECKSUM_MAGIC ->
  read_compression_alg ptype buf = Some alg ->
  read_actual_size buf = Some n ->
  0 < n <= UNIV_PAGE_SIZE ->
  mem_from buf hl = Some from -> hl + n <= blen buf ->
  (forall len' out, codec_decompress alg from n len <> Some (true, len', out)) ->
  (forall ok len' out,
     codec_decompress alg from n len = Some (ok, len', out) ->
     blen out <= UNIV_PAGE_SIZE /\
     forall pb, page_buf = Some pb -> blen out <= blen pb) ->
  mach_read_from_4 buf FIL_PAGE_SPACE_ID = Some space_id ->
  exists err len' scratch w1,
    diag w1
    = diag w
      ++ [ErrUncompressFailed space_id
            (space_name_or "NULL" (fil_space_acquire_for_io space_id))
            err n len' (fil_get_compression_alg_name alg);
          PagePrinted] /\
    srv_stats w1 = srv_stats w /\
    (calls w1 = calls w \/ calls w1 = calls w ++ [DecompressCall alg]) /\
    forall return_error,
      fil_decompress_page page_buf buf len write_size return_error w
      = if UNIV_DEBUG
        then Fatal w1
        else Done {| dr_buf := buf;
                     dr_page_buf := option_map (fun _ => scratch) page_buf;
                     dr_write_size := option_map (fun _ => n) write_size |} w1.
Proof.
  intros Hlen Hty Hhl Hcrc Halg Hsz Hn Hfrom Hfit Hno Hroom Hsp.
  pose (in_buf := match page_buf with
                  | Some pb => pb
                  | None => repeat zero_byte (Z.to_nat UNIV_PAGE_SIZE)
                  end).
  destruct (decompress_switch_rejects alg buf in_buf hl n len from w
              Hfrom ltac:(lia) Hfit Hno) as (l & w0 & S & Hd & Hs & _ & Hc).
  { intros ok len' out Hv. destruct (Hroom ok len' out Hv) as [Hu Hpb].
    unfold in_buf. destruct page_buf as [pb | ].
    - now apply Hpb.
    - rewrite blen_repeat. lia. }
  exists (d_err l), (d_len l), (d_in_buf l),
    (record_event PagePrinted
       (record_event
          (ErrUncompressFailed space_id
             (space_name_or "NULL" (fil_space_acquire_for_io space_id))
             (d_err l) n (d_len l) (fil_get_compression_alg_name alg))
          w0)).
  split; [ cbn; rewrite Hd, <- app_assoc; reflexivity | ].
  split; [ cbn; exact Hs | ].
  split; [ cbn; exact Hc | ].
  intros return_error.
  unfold fil_decompress_page.
  erewrite bind_done by (apply ut_ad_true, neqb_true, Hlen).
  erewrite bind_done by (apply access_some, Hty).
  rewrite Hhl.
  erewrite bind_done by (apply access_some, Hcrc).
  rewrite Z.eqb_refl. cbn [negb orb].
  rewrite (our_format_marker _ _ Hhl).
  erewrite bind_done by (apply access_some, Halg).
  erewrite bind_done by (apply access_some, Hsz).
  replace (n =? 0) with false by (symmetry; apply Z.eqb_neq; lia).
  replace (UNIV_PAGE_SIZE <? n) with false by (symmetry; apply Z.ltb_ge; lia).
  cbn [orb].
  erewrite bind_done by exact S.
  cbv beta iota. unfold decompress_err_exit.
  erewrite bind_done by (apply access_some, Hsp).
  erewrite bind_done by reflexivity.
  erewrite bind_done by reflexivity.
  unfold bind, ut_ad, ut_a, ut_error, ret.
  destruct UNIV_DEBUG; reflexivity.
Qed.

(** ** A payload the codec accepts *)

Lemma decompress_accepted_run
    page_buf P len write_size return_error w ptype hl alg n from len' out
    ib' d P' :
  len <> 0 ->
  mach_read_from_2 P FIL_PAGE_TYPE = Some ptype ->
  compressed_header_len ptype = Some hl ->
  mach_read_from_4 P FIL_PAGE_SPACE_OR_CHKSUM = Some BUF_NO_CHECKSUM_MAGIC ->
  read_compression_alg ptype P = Some alg ->
  read_actual_size P = Some n ->
  0 < n <= UNIV_PAGE_SIZE ->
  mem_from P hl = Some from ->
  hl + n <= blen P ->
  codec_decompress alg from n len = Some (true, len', out) ->
  mem_write (match page_buf with
             | Some pb => pb
             | None => repeat zero_byte (Z.to_nat UNIV_PAGE_SIZE)
             end) 0 out = Some ib' ->
  mem_read ib' 0 len' = Some d ->
  mem_write P 0 d = Some P' ->
  fil_decompress_page page_buf P len write_size return_error w
  = Done {| dr_buf := P';
            dr_page_buf := option_map (fun _ => ib') page_buf;
            dr_write_size := option_map (fun _ => n) write_size |}
      (with_stats inc_pages_page_decompressed
         (record_call (DecompressCall alg) w)).
Proof.
  intros Hlen Hty Hhl Hcrc Halg Hsz Hn Hfrom Hfit Hview Hw Hr HP'.
  unfold fil_decompress_page.
  erewrite bind_done by (apply ut_ad_true, neqb_true, Hlen).
  erewrite bind_done by (apply access_some, Hty).
  rewrite Hhl.
  erewrite bind_done by (apply access_some, Hcrc).
  rewrite Z.eqb_refl. cbn [negb orb].
  rewrite (our_format_marker _ _ Hhl).
  erewrite bind_done by (apply access_some, Halg).
  erewrite bind_done by (apply access_some, Hsz).
  replace (n =? 0) with false by (symmetry; apply Z.eqb_neq; lia).
  replace (UNIV_PAGE_SIZE <? n) with false by (symmetry; apply Z.ltb_ge; lia).
  cbn [orb].
  set (in_buf := match page_buf with
                 | Some pb => pb
                 | None => repeat zero_byte (Z.to_nat UNIV_PAGE_SIZE)
                 end) in *.
  pose proof (decompress_switch_accepts alg P in_buf hl n len from len' out w
                Hfrom ltac:(lia) Hfit Hview) as S.
  rewrite Hw in S. destruct S as (l & Hl & Hi & S).
  erewrite bind_done by exact S.
  cbv beta iota.
  erewrite bind_done by reflexivity.
  rewrite Hl, Hi.
  erewrite bind_done by (apply access_some, Hr).
  erewrite bind_done by (apply access_some, HP').
  reflexivity.
Qed.

(** What a decompression the codec accepts does to the world and to the
    buffer. *)
Lemma decompress_accepted_effects
    page_buf P len write_size return_error w ptype hl alg n from len' out :
  len <> 0 ->
  mach_read_from_2 P FIL_PAGE_TYPE = Some ptype ->
  compressed_header_len ptype = Some hl ->
  mach_read_from_4 P FIL_PAGE_SPACE_OR_CHKSUM = Some BUF_NO_CHECKSUM_MAGIC ->
  read_compression_alg ptype P = Some alg ->
  read_actual_size P = Some n ->
  0 < n <= UNIV_PAGE_SIZE ->
  mem_from P hl = Some from ->
  hl + n <= blen P ->
  codec_decompress alg from n len = Some (true, len', out) ->
  0 <= len' <= UNIV_PAGE_SIZE -> len' <= blen P ->
  blen out <= UNIV_PAGE_SIZE ->
  (forall pb, page_buf = Some pb -> blen out <= blen pb /\ len' <= blen pb) ->
  exists r2 w2,
    fil_decompress_page page_buf P len write_size return_error w
    = Done r2 w2 /\
    srv_stats w2 = inc_pages_page_decompressed (srv_stats w) /\
    calls w2 = calls w ++ [DecompressCall alg] /\
    diag w2 = diag w /\
    dr_write_size r2 = option_map (fun _ => n) write_size /\
    blen (dr_buf r2) = blen P /\
    forall o k, len' <= o -> mem_read (dr_buf r2) o k = mem_read P o k.
Proof.
  intros Hlen Hty Hhl Hcrc Halg Hsz Hn Hfrom Hfit Hview Hl' HlP Hout Hpb.
  set (in_buf := match page_buf with
                 | Some pb => pb
                 | None => repeat zero_byte (Z.to_nat UNIV_PAGE_SIZE)
                 end).
  assert (Hib : blen out <= blen in_buf /\ len' <= blen in_buf).
  { unfold in_buf. destruct page_buf as [pb | ].
    - now apply Hpb.
    - rewrite blen_repeat. lia. }
  pose proof (blen_nonneg out) as Hout0.
  destruct (mem_write_some in_buf 0 out) as [ib' Hw]; [ lia | lia | ].
  pose proof (mem_write_length _ _ _ _ Hw) as Lw.
  destruct (mem_read_some ib' 0 len') as [d Hr]; [ lia | lia | lia | ].
  pose proof (mem_read_length _ _ _ _ Hr) as Lr.
  destruct (mem_write_some P 0 d) as [P' HP']; [ lia | lia | ].
  rewrite (decompress_accepted_run page_buf P len write_size return_error w
             ptype hl alg n from len' out ib' d P'); trivial.
  do 2 eexists. split; [ reflexivity | ]. cbn.
  repeat split; trivial.
  - eapply mem_write_length, HP'.
  - intros o k Ho. eapply mem_read_write_other; eauto. right. lia.
Qed.

(** X10: a decompression the codec accepts is counted once in
    [pages_page_decompressed], has run the decompress primitive once,
    logs nothing, stores the payload length of the header in
    [*write_size], and writes the first [len'] bytes of [buf] only, where
    [len'] is the length the codec arm copies. *)
Theorem successful_decompression_is_counted
    page_buf P len write_size return_error w ptype hl alg n from len' out :
  len <> 0 ->
  mach_read_from_2 P FIL_PAGE_TYPE = Some ptype ->
  compressed_header_len ptype = Some hl ->
  mach_read_from_4 P FIL_PAGE_SPACE_OR_CHKSUM = Some BUF_NO_CHECKSUM_MAGIC ->
  read_compression_alg ptype P = Some alg ->
  read_actual_size P = Some n ->
  0 < n <= UNIV_PAGE_SIZE ->
  mem_from P hl = Some from ->
  hl + n <= blen P ->
  codec_decompress alg from n len = Some (true, len', out) ->
  0 <= len' <= UNIV_PAGE_SIZE -> len' <= blen P ->
  blen out <= UNIV_PAGE_SIZE ->
  (forall pb, page_buf = Some pb -> blen out <= blen pb /\ len' <= blen pb) ->
  exists r2 w2,
    fil_decompress_page page_buf P len write_size return_error w
    = Done r2 w2 /\
    srv_stats w2 = inc_pages_page_decompressed (srv_stats w) /\
    calls w2 = calls w ++ [DecompressCall alg] /\
    diag w2 = diag w /\
    dr_write_size r2 = option_map (fun _ => n) write_size /\
    blen (dr_buf r2) = blen P /\
    forall o k, len' <= o -> mem_read (dr_buf r2) o k = mem_read P o k.
Proof.
  intros. eapply decompress_accepted_effects; eauto.
Qed.

Lemma mem_read_repeat c U o k :
  0 <= o -> 0 <= k -> o + k <= Z.of_nat U ->
  mem_read (repeat c U) o k = Some (repeat c (Z.to_nat k)).
Proof.
  intros Ho Hk Hfit. unfold mem_read. rewrite blen_repeat.
  replace ((0 <=? o) && (0 <=? k) && (o + k <=? Z.of_nat U))%bool with true
    by (symmetry; rewrite !andb_true_iff, !Z.leb_le; lia).
  f_equal. apply nth_error_ext. intros i.
  rewrite nth_error_firstn, nth_error_skipn.
  destruct (Nat.ltb_spec i (Z.to_nat k)).
  - rewrite !nth_error_repeat by lia. reflexivity.
  - symmetry. apply nth_error_None. rewrite repeat_length. lia.
Qed.

(** X11: where the codec arm copies more bytes than the primitive
    stored, the bytes in between are those of the scratch buffer: zeros
    when [fil_decompress_page] allocated it, and whatever the caller's
    [page_buf] held otherwise. *)
Theorem short_output_is_padded_from_scratch
    page_buf P len write_size return_error w ptype hl alg n from len' out :
  len <> 0 ->
  mach_read_from_2 P FIL_PAGE_TYPE = Some ptype ->
  compressed_header_len ptype = Some hl ->
  mach_read_from_4 P FIL_PAGE_SPACE_OR_CHKSUM = Some BUF_NO_CHECKSUM_MAGIC ->
  read_compression_alg ptype P = Some alg ->
  read_actual_size P = Some n ->
  0 < n <= UNIV_PAGE_SIZE ->
  mem_from P hl = Some from ->
  hl + n <= blen P ->
  codec_decompress alg from n len = Some (true, len', out) ->
  blen out <= len' <= UNIV_PAGE_SIZE -> len' <= blen P ->
  (forall pb, page_buf = Some pb -> len' <= blen pb) ->
  exists r2 w2,
    fil_decompress_page page_buf P len write_size return_error w
    = Done r2 w2 /\
    mem_read (dr_buf r2) 0 (blen out) = Some out /\
    mem_read (dr_buf r2) (blen out) (len' - blen out)
    = match page_buf with
      | Some pb => mem_read pb (blen out) (len' - blen out)
      | None => Some (repeat zero_byte (Z.to_nat (len' - blen out)))
      end.
Proof.
  intros Hlen Hty Hhl Hcrc Halg Hsz Hn Hfrom Hfit Hview Hl' HlP Hpb.
  set (in_buf := match page_buf with
                 | Some pb => pb
                 | None => repeat zero_byte (Z.to_nat UNIV_PAGE_SIZE)
                 end).
  assert (Hib : len' <= blen in_buf).
  { unfold in_buf. destruct page_buf as [pb | ].
    - now apply Hpb.
    - rewrite blen_repeat. lia. }
  pose proof (blen_nonneg out) as Hout0.
  destruct (mem_write_some in_buf 0 out) as [ib' Hw]; [ lia | lia | ].
  pose proof (mem_write_length _ _ _ _ Hw) as Lw.
  destruct (mem_read_some ib' 0 len') as [d Hr]; [ lia | lia | lia | ].
  pose proof (mem_read_length _ _ _ _ Hr) as Lr.
  destruct (mem_write_some P 0 d) as [P' HP']; [ lia | lia | ].
  rewrite (decompress_accepted_run page_buf P len write_size return_error w
             ptype hl alg n from len' out ib' d P'); trivial.
  do 2 eexists. split; [ reflexivity | ]. cbn [dr_buf]. split.
  - rewrite (mem_read_write_inside _ _ _ _ 0 (blen out) HP') by lia.
    rewrite (mem_read_read _ _ _ _ (0 - 0) (blen out) Hr) by lia.
    apply (mem_read_write_same _ _ _ _ Hw).
  - rewrite (mem_read_write_inside _ _ _ _ (blen out) (len' - blen out) HP')
      by lia.
    rewrite Z.sub_0_r.
    rewrite (mem_read_read _ _ _ _ (blen out) (len' - blen out) Hr) by lia.
    rewrite (mem_read_write_other _ _ _ _ (0 + blen out) (len' - blen out) Hw)
      by (right; lia).
    unfold in_buf. destruct page_buf as [pb | ]; [ reflexivity | ].
    apply mem_read_repeat; lia.
Qed.

(** ** Round trip: the payload length *)

(** The header of a buffer that shows, up to the end of the payload, what
    [set_up_page_header] left behind the output of the codec. *)
Lemma image_header P encrypted ob ob' buf out1 out n :
  LayoutOk ->
  mem_write ob (compress_header_len encrypted) out = Some ob' ->
  set_up_page_header ob' buf innodb_compression_algorithm encrypted n
  = Some out1 ->
  n = blen out ->
  0 < n <= UNIV_PAGE_SIZE - compress_header_len encrypted ->
  (forall o k, 0 <= o -> 0 <= k -> o + k <= n + compress_header_len encrypted ->
               mem_read P o k = mem_read out1 o k) ->
  mach_read_from_2 P FIL_PAGE_TYPE = Some (header_marker encrypted) /\
  mach_read_from_4 P FIL_PAGE_SPACE_OR_CHKSUM = Some BUF_NO_CHECKSUM_MAGIC /\
  read_compression_alg (header_marker encrypted) P
  = Some innodb_compression_algorithm /\
  read_actual_size P = Some n /\
  compress_header_len encrypted + n <= blen P /\
  exists rest, mem_from P (compress_header_len encrypted) = Some (out ++ rest).
Proof.
  intros L Hob Hset Hnl Hn Hp.
  destruct (header_len_bounds encrypted L) as [Hhl Hhd].
  destruct (set_up_page_header_fields _ _ _ _ _ _ L Hset)
    as (_ & Ft & Fc & F8 & F2 & Fs & Fpay).
  pose proof (chksum_first L). pose proof (chksum_type L).
  pose proof (type_lsn L). pose proof (lsn_data L).
  pose proof (size_room L). pose proof (method_room L).
  pose proof (page_max L). pose proof (method_range L).
  pose proof (markers_differ L) as Hmd.
  assert (Hpay : mem_read P (compress_header_len encrypted) n = Some out).
  { rewrite Hp by lia. rewrite Fpay by lia.
    rewrite Hnl. eapply mem_read_write_same; eauto. }
  pose proof (mem_read_bounds _ _ _ _ Hpay) as Bpay.
  repeat split.
  - unfold mach_read_from_2. rewrite Hp by lia. exact Ft.
  - unfold mach_read_from_4. rewrite Hp by lia. exact Fc.
  - unfold read_compression_alg, header_marker. destruct encrypted.
    + rewrite Z.eqb_refl. unfold mach_read_from_2.
      rewrite Hp
        by (cbv beta iota delta [compress_header_len] in *; lia).
      fold (mach_read_from_2 out1 (FIL_PAGE_DATA + FIL_PAGE_COMPRESSED_SIZE)).
      rewrite F2, Z.mod_small by trivial. reflexivity.
    + apply Z.eqb_neq in Hmd. rewrite Hmd.
      unfold mach_read_from_8. rewrite Hp by lia.
      fold (mach_read_from_8 out1 FIL_PAGE_FILE_FLUSH_LSN_OR_KEY_VERSION).
      rewrite F8, Z.mod_small by lia. reflexivity.
  - unfold read_actual_size, mach_read_from_2. rewrite Hp by lia.
    fold (mach_read_from_2 out1 FIL_PAGE_DATA).
    rewrite Fs, Z.mod_small by lia. reflexivity.
  - lia.
  - exact (mem_from_read _ _ _ _ Hpay).
Qed.

(** X12: decompressing a page that [fil_compress_page] compressed
    reports, in [*write_size], the payload length the compress primitive
    produced, counts the page in [pages_page_decompressed] and runs the
    decompress primitive of the configured algorithm once. *)
Theorem round_trip_reports_payload_length
    space buf out_buf len level block_size encrypted w ptype n out r w1
    page_buf write_size return_error :
  LayoutOk ->
  len = UNIV_PAGE_SIZE -> blen buf = len ->
  (forall s, space = Some s -> FSP_FLAGS_GET_ZIP_SSIZE (flags s) = 0) ->
  fil_page_get_type buf = Some ptype ->
  page_type_rejected ptype = false ->
  codec_compress innodb_compression_algorithm buf (effective_level level)
    (compress_header_len encrypted) = Some (true, n, out) ->
  n <= UNIV_PAGE_SIZE - compress_header_len encrypted ->
  codec_inverts innodb_compression_algorithm buf (effective_level level)
    (compress_header_len encrypted) ->
  UNIV_PAGE_SIZE mod effective_block_size block_size = 0 ->
  UNIV_PAGE_SIZE <= blen (output_buffer innodb_compression_algorithm out_buf) ->
  working_memory_fits innodb_compression_algorithm
    (output_buffer innodb_compression_algorithm out_buf) ->
  (forall pb, page_buf = Some pb -> UNIV_PAGE_SIZE <= blen pb) ->
  fil_compress_page space buf out_buf len level block_size encrypted w
  = Done r w1 ->
  exists r2 w2,
    fil_decompress_page page_buf (returned_page r) len write_size
      return_error w1 = Done r2 w2 /\
    dr_write_size r2 = option_map (fun _ => n) write_size /\
    srv_stats w2 = inc_pages_page_decompressed (srv_stats w1) /\
    calls w2 = calls w1 ++ [DecompressCall innodb_compression_algorithm].
Proof.
  intros L Hlen Hblen Hzip Hty Hrej Hview Hn Hinv Hdiv Hroom Hwrk Hpb H.
  destruct (header_len_bounds encrypted L) as [Hhl Hhd].
  pose proof (page_max L) as Hps.
  assert (Hsrc : mem_read buf 0 len = Some buf)
    by (rewrite <- Hblen; apply mem_read_all).
  destruct (Hinv n out Hview) as (_ & Hnl & Hnpos & Hdec).
  { right. rewrite ulint_small by lia. exact Hn. }
  destruct (compress_success_run space buf out_buf len level block_size
              encrypted w ptype buf n out r w1 L ltac:(lia) Hzip Hty Hrej
              Hsrc Hview Hn Hwrk H) as (l & Hl & Hob & F).
  pose proof (mem_write_length _ _ _ _ Hob) as Lob.
  apply compress_finish_page in F; trivial; try (rewrite Hl; lia); try lia.
  cbv zeta in F. rewrite Hl in F.
  destruct F as (_ & _ & _ & _ & _ & HlenP & out1 & Hset & Hp & _).
  destruct (image_header (returned_page r) encrypted
              (output_buffer innodb_compression_algorithm out_buf)
              (c_out_buf l) buf out1 out n L Hob Hset Hnl ltac:(lia) Hp)
    as (Ft & Fc & Fa & Fs & Ffit & rest & Hfrom).
  destruct (decompress_accepted_effects page_buf (returned_page r) len
              write_size return_error w1 (header_marker encrypted)
              (compress_header_len encrypted) innodb_compression_algorithm
              n (out ++ rest) (blen buf) buf)
    as (r2 & w2 & Hd & Hs & Hc & _ & Hws & _); trivial; try lia.
  - apply compressed_header_len_marker, L.
  - rewrite <- Hblen. apply Hdec.
  - intros pb Epb. specialize (Hpb pb Epb). lia.
  - exists r2, w2. auto.
Qed.

(** ** The self-check of a debug build *)

Lemma decompress_arm_world alg in_buf err out failed l1 l2 w x w' :
  decompress_arm alg in_buf err out failed l1 l2 w = Done x w' ->
  w' = record_call (DecompressCall alg) w.
Proof.
  unfold decompress_arm. intros H.
  inv_bind H as u w1 E1. injection E1 as _ <-.
  inv_bind H as o w2 E2. apply access_inv in E2. destruct E2 as [_ ->].
  destruct failed; apply ret_inv in H; now destruct H.
Qed.

Lemma decompress_switch_world alg buf in_buf hl actual_size len w x w' :
  decompress_switch alg buf in_buf hl actual_size len w = Done x w' ->
  match x with
  | DBreak _ => w' = record_call (DecompressCall alg) w
  | DErrExit _ => True
  end.
Proof.
  unfold decompress_switch. intros H.
  destruct x as [l | l]; [ | exact I ].
  repeat match type of H with
         | (if ?c then _ else _) _ = _ => destruct c
         end;
    try (apply ret_inv in H; destruct H as [H _]; discriminate H);
    repeat match type of H with
           | bind (access _) _ _ = _ =>
               let a := fresh "a" in let w := fresh "w" in
               let E := fresh "E" in
               inv_bind H as a w E; apply access_inv in E;
               destruct E as [_ ->]
           end;
    eapply decompress_arm_world, H.
Qed.

(** In a [UNIV_DEBUG] build without report mode, a call on a page with a
    compressed marker that returns has decompressed the page. *)
Lemma decompress_returns_debug
    page_buf P len write_size w r w' ptype hl :
  UNIV_DEBUG = true ->
  mach_read_from_2 P FIL_PAGE_TYPE = Some ptype ->
  compressed_header_len ptype = Some hl ->
  fil_decompress_page page_buf P len write_size false w = Done r w' ->
  exists alg,
    read_compression_alg ptype P = Some alg /\
    w' = with_stats inc_pages_page_decompressed
           (record_call (DecompressCall alg) w).
Proof.
  intros Hdbg Hty Hhl H. unfold fil_decompress_page in H.
  inv_bind H as u0 w0 E0. apply ut_ad_inv in E0. subst w0.
  inv_bind H as pt w1 E1. apply access_inv in E1. destruct E1 as [E1 ->].
  rewrite Hty in E1. injection E1 as <-. rewrite Hhl in H.
  inv_bind H as crc w2 E2. apply access_inv in E2. destruct E2 as [_ ->].
  destruct (negb (crc =? BUF_NO_CHECKSUM_MAGIC) || _)%bool.
  { inv_bind H as u3 w3 E3. discriminate H. }
  inv_bind H as alg w4 E4. apply access_inv in E4. destruct E4 as [E4 ->].
  inv_bind H as n w5 E5. apply access_inv in E5. destruct E5 as [_ ->].
  destruct ((n =? 0) || (UNIV_PAGE_SIZE <? n))%bool.
  { inv_bind H as u6 w6 E6. discriminate H. }
  inv_bind H as x w7 E7. apply decompress_switch_world in E7.
  destruct x as [l | l].
  - subst w7.
    inv_bind H as u8 w8 E8. apply update_stats_inv in E8. subst w8.
    inv_bind H as d w9 E9. apply access_inv in E9. destruct E9 as [_ ->].
    inv_bind H as b w10 E10. apply access_inv in E10. destruct E10 as [_ ->].
    apply ret_inv in H. destruct H as [_ ->]. eauto.
  - unfold decompress_err_exit in H.
    inv_bind H as sid w8 E8. inv_bind H as u9 w9 E9.
    inv_bind H as u10 w10 E10. inv_bind H as u11 w11 E11.
    unfold ut_ad in E11. rewrite Hdbg in E11. discriminate E11.
Qed.

(** X13: a [UNIV_DEBUG] build verifies every page it compresses by
    decompressing it: a successful compression there also runs the
    decompress primitive of the configured algorithm once and is counted
    in [pages_page_decompressed]; a build without [UNIV_DEBUG] runs the
    compress primitive only and leaves that counter alone. *)
Theorem debug_build_counts_its_self_check
    space buf out_buf len level block_size encrypted w ptype src n out r w' :
  LayoutOk ->
  len = UNIV_PAGE_SIZE ->
  (forall s, space = Some s -> FSP_FLAGS_GET_ZIP_SSIZE (flags s) = 0) ->
  fil_page_get_type buf = Some ptype ->
  page_type_rejected ptype = false ->
  mem_read buf 0 len = Some src ->
  codec_compress innodb_compression_algorithm src (effective_level level)
    (compress_header_len encrypted) = Some (true, n, out) ->
  0 <= n <= UNIV_PAGE_SIZE - compress_header_len encrypted ->
  UNIV_PAGE_SIZE <= blen (output_buffer innodb_compression_algorithm out_buf) ->
  working_memory_fits innodb_compression_algorithm
    (output_buffer innodb_compression_algorithm out_buf) ->
  fil_compress_page space buf out_buf len level block_size encrypted w
  = Done r w' ->
  if UNIV_DEBUG
  then calls w' = calls w ++ [CompressCall innodb_compression_algorithm;
                              DecompressCall innodb_compression_algorithm] /\
       pages_page_decompressed (srv_stats w')
       = ulint (pages_page_decompressed (srv_stats w) + 1)
  else calls w' = calls w ++ [CompressCall innodb_compression_algorithm] /\
       pages_page_decompressed (srv_stats w')
       = pages_page_decompressed (srv_stats w).
Proof.
  intros L Hlen Hzip Hty Hrej Hsrc Hview Hn Hroom Hwrk H.
  destruct (header_len_bounds encrypted L) as [Hhl Hhd].
  pose proof (page_max L) as Hps.
  pose proof (method_range L) as Hcm.
  destruct (compress_success_run space buf out_buf len level block_size
              encrypted w ptype src n out r w' L ltac:(lia) Hzip Hty Hrej
              Hsrc Hview (proj2 Hn) Hwrk H) as (l & Hl & Hob & F).
  apply compress_finish_world in F.
  destruct F as (out1 & w1 & a & Hset & Hv & _ & ->).
  destruct (set_up_page_header_fields _ _ _ _ _ _ L Hset)
    as (_ & Ft & _ & F8 & F2 & _).
  unfold verify_compressed_page in Hv.
  destruct UNIV_DEBUG eqn:Hdbg.
  - inv_bind Hv as pt w2 E2. apply access_inv in E2. destruct E2 as [_ ->].
    inv_bind Hv as u3 w3 E3. apply ut_ad_inv in E3. subst w3.
    inv_bind Hv as crc w4 E4. apply access_inv in E4. destruct E4 as [_ ->].
    inv_bind Hv as u5 w5 E5. apply ut_ad_inv in E5. subst w5.
    inv_bind Hv as sz w6 E6. apply access_inv in E6. destruct E6 as [_ ->].
    inv_bind Hv as u7 w7 E7. apply ut_ad_inv in E7. subst w7.
    inv_bind Hv as a8 w8 E8. apply access_inv in E8. destruct E8 as [_ ->].
    inv_bind Hv as u9 w9 E9.
    assert (w9 = record_call (CompressCall innodb_compression_algorithm) w).
    { destruct (a8 =? innodb_compression_algorithm).
      - apply ret_inv in E9. now destruct E9.
      - inv_bind E9 as a2 w10 E10. apply access_inv in E10.
        destruct E10 as [_ ->]. now apply ut_ad_inv in E9. }
    subst w9.
    inv_bind Hv as comp_page w11 E11. apply access_inv in E11.
    destruct E11 as [Hcp ->].
    inv_bind Hv as rd w12 E12.
    pose proof (mem_read_bounds _ _ _ _ Hcp) as Bcp.
    apply decompress_returns_debug
      with (ptype := header_marker encrypted)
           (hl := compress_header_len encrypted) in E12; trivial.
    + destruct E12 as (alg & Halg & ->).
      assert (alg = innodb_compression_algorithm).
      { rewrite (read_compression_alg_marker encrypted comp_page L) in Halg.
        pose proof (lsn_data L). pose proof (type_lsn L).
        pose proof (chksum_type L). pose proof (chksum_first L).
        pose proof (size_room L). pose proof (method_room L).
        pose proof (page_room L).
        destruct encrypted.
        - unfold mach_read_from_2 in Halg.
          rewrite (mem_read_read _ _ _ _
                     (FIL_PAGE_DATA + FIL_PAGE_COMPRESSED_SIZE) 2 Hcp) in Halg
            by (cbv beta iota delta [compress_header_len] in *; lia).
          fold (mach_read_from_2 out1
                  (0 + (FIL_PAGE_DATA + FIL_PAGE_COMPRESSED_SIZE))) in Halg.
          rewrite Z.add_0_l, (F2 eq_refl), Z.mod_small in Halg by lia.
          congruence.
        - unfold mach_read_from_8 in Halg.
          rewrite (mem_read_read _ _ _ _
                     FIL_PAGE_FILE_FLUSH_LSN_OR_KEY_VERSION 8 Hcp) in Halg
            by lia.
          fold (mach_read_from_8 out1
                  (0 + FIL_PAGE_FILE_FLUSH_LSN_OR_KEY_VERSION)) in Halg.
          rewrite Z.add_0_l, F8, Z.mod_small in Halg by lia.
          congruence. }
      subst alg.
      assert (w1 = with_stats inc_pages_page_decompressed
                     (record_call (DecompressCall innodb_compression_algorithm)
                        (record_call (CompressCall innodb_compression_algorithm) w))).
      { destruct (dr_page_buf rd) as [up | ].
        - destruct (buf_page_is_corrupted up space).
          + inv_bind Hv as u13 w13 E13. unfold ut_ad in Hv.
            rewrite Hdbg in Hv. discriminate Hv.
          + apply ret_inv in Hv. now destruct Hv.
        - apply ret_inv in Hv. now destruct Hv. }
      subst w1. cbn. rewrite <- app_assoc. auto.
    + unfold mach_read_from_2.
      pose proof (lsn_data L). pose proof (type_lsn L).
      pose proof (chksum_type L). pose proof (chksum_first L).
      rewrite (mem_read_read _ _ _ _ FIL_PAGE_TYPE 2 Hcp) by lia.
      exact Ft.
    + apply compressed_header_len_marker, L.
  - apply ret_inv in Hv. destruct Hv as [_ ->]. cbn. auto.
Qed.

(** ** An algorithm without an arm *)

(** X21: for a page of a type that is not rejected, an algorithm id that
    has no arm in the [switch] of this build and is not
    [PAGE_UNCOMPRESSED] aborts the process, in every build and before
    anything is counted or logged; a page of a rejected type never gets
    that far. *)
Theorem unsupported_algorithm_aborts_compression
    space buf out_buf len level block_size encrypted w ptype src :
  0 < len < 2 ^ 31 ->
  (forall s, space = Some s -> FSP_FLAGS_GET_ZIP_SSIZE (flags s) = 0) ->
  fil_page_get_type buf = Some ptype ->
  page_type_rejected ptype = false ->
  mem_read buf 0 len = Some src ->
  codec_compress innodb_compression_algorithm src (effective_level level)
    (compress_header_len encrypted) = None ->
  innodb_compression_algorithm <> PAGE_UNCOMPRESSED ->
  fil_compress_page space buf out_buf len level block_size encrypted w
  = Fatal w.
Proof.
  intros Hlen Hzip Hty Hrej Hsrc Hview Hnone.
  assert (Hlen0 : len <> 0) by lia.
  assert (Hlen' : 0 <= len < 2 ^ 31) by lia.
  rewrite (compress_eligible _ _ _ _ _ _ _ _ _ Hlen0 Hzip Hty Hrej).
  unfold bind.
  rewrite (compress_switch_none _ _ _ _ _ _ _ _ _ Hlen' Hsrc Hview).
  apply Z.eqb_neq in Hnone. now rewrite Hnone.
Qed.

End Claims.

(** ** Warnings over a sequence of calls *)

Section Sequences.

Context {K : Consts} {B : Build} {C : Codecs} {X : Collab}.

Lemma compress_calls_within cs :
  forall space w,
    match compress_calls space cs w with
    | Done sp w' =>
        (compression_warnings w' + allowance sp
         <= compression_warnings w + allowance space)%nat
    | Fatal w' =>
        (compression_warnings w' <= compression_warnings w + allowance space)%nat
    | Undefined => True
    end.
Proof.
  induction cs as [ | c cs IH]; intros space w.
  - cbn. lia.
  - cbn [compress_calls]. unfold bind.
    pose proof (within_compress (V := cc_vars c) space (cc_buf c) (cc_out_buf c)
                  (cc_len c) (cc_level c) (cc_block_size c) (cc_encrypted c) w)
      as Hc.
    destruct (fil_compress_page space (cc_buf c) (cc_out_buf c) (cc_len c)
                (cc_level c) (cc_block_size c) (cc_encrypted c) w)
      as [r w1 | w1 | ]; trivial.
    specialize (IH (r_space r) w1).
    destruct (compress_calls (r_space r) cs w1) as [sp w2 | w2 | ]; trivial; lia.
Qed.

(** C9: over any sequence of [fil_compress_page] calls on one tablespace,
    whatever pages, levels, block sizes and server variables the calls
    have and however the sequence ends, no compression-failure warning is
    logged once the tablespace's flag is set, and at most one is logged
    before. *)
Theorem warning_logged_at_most_once s cs w w' :
  final_world (compress_calls (Some s) cs w) = Some w' ->
  (compression_warnings w'
   <= compression_warnings w
      + (if printed_compression_failure s then 0 else 1))%nat.
Proof.
  intros H. pose proof (compress_calls_within cs (Some s) w) as Hc.
  cbn [allowance] in Hc.
  destruct (compress_calls (Some s) cs w) as [sp w1 | w1 | ];
    cbn in H; [ | | discriminate ]; injection H as <-; lia.
Qed.

End Sequences.

(** * Reading the next row: facts *)

Section AriaFacts.

Context {E : Aria}.

(** ** Runs *)

Lemma ma_bind_inv {A B} (c : MA A) (k : A -> MA B) w b w2 :
  ma_bind c k w = Returns b w2 ->
  exists a w1, c w = Returns a w1 /\ k a w1 = Returns b w2.
Proof.
  unfold ma_bind. destruct (c w) as [a w1 | | ]; try discriminate.
  eauto.
Qed.

Lemma ma_bind_returns {A B} (c : MA A) (k : A -> MA B) w a w1 :
  c w = Returns a w1 -> ma_bind c k w = k a w1.
Proof. unfold ma_bind. now intros ->. Qed.

Lemma ma_ret_inv {A} (a b : A) w w' :
  ma_ret a w = Returns b w' -> b = a /\ w' = w.
Proof. unfold ma_ret. intros H. injection H as <- <-. auto. Qed.

Lemma look_inv {A} (f : mem -> A) w a w' :
  look f w = Returns a w' -> a = f (memory w) /\ w' = w.
Proof. unfold look. intros H. injection H as <- <-. auto. Qed.

Lemma alter_inv (f : mem -> mem) w u w' :
  alter f w = Returns u w' ->
  memory w' = f (memory w) /\ trace w' = trace w.
Proof. unfold alter. intros H. injection H as _ <-. auto. Qed.

Lemma note_inv e w u w' :
  note e w = Returns u w' ->
  memory w' = memory w /\ trace w' = trace w ++ [e].
Proof. unfold note. intros H. injection H as _ <-. auto. Qed.

Lemma deref_inv {A} (o : option A) w a w' :
  deref o w = Returns a w' -> o = Some a /\ w' = w.
Proof.
  unfold deref. destruct o; [ | discriminate ].
  intros H. injection H as <- <-. auto.
Qed.

Lemma call_inv c w r w' :
  call c w = Returns r w' ->
  r = fst (collaborator c (memory w)) /\
  memory w' = snd (collaborator c (memory w)) /\
  trace w' = trace w ++ [Called c r].
Proof. unfold call. intros H. injection H as <- <-. auto. Qed.


Lemma call_returns c w :
  call c w
  = Returns (fst (collaborator c (memory w)))
      {| memory := snd (collaborator c (memory w));
         trace := trace w ++ [Called c (fst (collaborator c (memory w)))] |}.
Proof. reflexivity. Qed.

Lemma look_returns {A} (f : mem -> A) w : look f w = Returns (f (memory w)) w.
Proof. reflexivity. Qed.

(** [inv_ma H as a w E]: from [H], a run of [c ;; k] that returns, the
    run [E] of [c] and, in [H], the run of [k]. *)
Tactic Notation "inv_ma" hyp(H) "as" ident(a) ident(w) ident(E) :=
  apply ma_bind_inv in H; destruct H as (a & w & E & H).

Lemma land_lor_same u a : Z.land (Z.lor u a) a = a.
Proof.
  apply Z.bits_inj'. intros n Hn. rewrite Z.land_spec, Z.lor_spec.
  destruct (Z.testbit u n), (Z.testbit a n); reflexivity.
Qed.

Lemma ldiff_masked u m a : Z.ldiff (Z.lor (Z.land u m) a) (Z.lor m a) = 0.
Proof.
  apply Z.bits_inj'. intros n Hn.
  rewrite Z.ldiff_spec, !Z.lor_spec, Z.land_spec, Z.bits_0.
  destruct (Z.testbit u n), (Z.testbit m n), (Z.testbit a n); reflexivity.
Qed.

(** ** The steps of the search *)

(** Runs that end without returning. *)
Lemma ma_bind_stopped {A B} (c : MA A) (k : A -> MA B) w w' :
  stopped (ma_bind c k w) w' ->
  stopped (c w) w' \/ exists a w1, c w = Returns a w1 /\ stopped (k a w1) w'.
Proof.
  unfold ma_bind. destruct (c w) as [a w1 | w1 | w1]; intros H.
  - right. exists a, w1. auto.
  - left. destruct H as [H | H]; [ | discriminate H ].
    injection H as <-. now left.
  - left. destruct H as [H | H]; [ discriminate H | ].
    injection H as <-. now right.
Qed.

Lemma returns_not_stopped {A} (o : aria_outcome A) a w w' :
  o = Returns a w -> ~ stopped o w'.
Proof. intros -> [H | H]; discriminate H. Qed.

Lemma call_stopped c w w' : ~ stopped (call c w) w'.
Proof. intros [H | H]; discriminate H. Qed.

Lemma look_stopped {A} (f : mem -> A) w w' : ~ stopped (look f w) w'.
Proof. intros [H | H]; discriminate H. Qed.

Lemma alter_stopped f w w' : ~ stopped (alter f w) w'.
Proof. intros [H | H]; discriminate H. Qed.

Lemma note_stopped e w w' : ~ stopped (note e w) w'.
Proof. intros [H | H]; discriminate H. Qed.

Lemma ma_ret_stopped {A} (a : A) w w' : ~ stopped (ma_ret a w) w'.
Proof. intros [H | H]; discriminate H. Qed.

Lemma deref_stopped {A} (o : option A) w w' :
  stopped (deref o w) w' -> w' = w.
Proof.
  unfold deref. destruct o; intros [H | H]; try discriminate H.
  now injection H as <-.
Qed.

Tactic Notation "stop_ma" hyp(H) "as" ident(a) ident(w) ident(E) :=
  apply ma_bind_stopped in H; destruct H as [H | (a & w & E & H)].

Lemma key_alg_at_stopped inx w w' : stopped (key_alg_at inx w) w' -> w' = w.
Proof.
  unfold key_alg_at. intros H.
  stop_ma H as ks w1 E1; [ now apply look_stopped in H | ].
  apply look_inv in E1. destruct E1 as [_ ->].
  stop_ma H as k w2 E2; [ now apply deref_stopped in H | ].
  now apply ma_ret_stopped in H.
Qed.

Lemma key_root_at_stopped inx w w' : stopped (key_root_at inx w) w' -> w' = w.
Proof.
  unfold key_root_at. intros H.
  stop_ma H as rs w1 E1; [ now apply look_stopped in H | ].
  apply look_inv in E1. destruct E1 as [_ ->].
  now apply deref_stopped in H.
Qed.

Lemma key_alg_at_inv inx w a w' :
  key_alg_at inx w = Returns a w' -> w' = w.
Proof.
  unfold key_alg_at. intros H.
  inv_ma H as ks w1 E1. apply look_inv in E1. destruct E1 as [_ ->].
  inv_ma H as k w2 E2. apply deref_inv in E2. destruct E2 as [_ ->].
  apply ma_ret_inv in H. now destruct H.
Qed.

Lemma key_root_at_inv inx w a w' :
  key_root_at inx w = Returns a w' -> w' = w.
Proof.
  unfold key_root_at. intros H.
  inv_ma H as ks w1 E1. apply look_inv in E1. destruct E1 as [_ ->].
  apply deref_inv in H. now destruct H.
Qed.

(** Lines 49-90 call exactly one search function. *)
Lemma rnext_search_inv flag changed inx w e w' :
  rnext_search flag changed inx w = Returns e w' ->
  exists c,
    one_call w w' c e /\ is_search_event (Called c e) = true /\
    is_probe c = false.
Proof.
  unfold rnext_search, last_key_length, maria_rtree_get_first,
    maria_rtree_get_next, _ma_search_first, _ma_search_next, _ma_search.
  intros H.
  inv_ma H as alg w1 E1. apply key_alg_at_inv in E1. subst w1.
  destruct (flag =? 0), (HAVE_RTREE_KEYS && (alg =? HA_KEY_ALG_RTREE))%bool.
  - inv_ma H as n w2 E2. apply look_inv in E2. destruct E2 as [_ ->].
    apply call_inv in H. eexists. split; [ exact H | split; reflexivity ].
  - inv_ma H as root w2 E2. apply key_root_at_inv in E2. subst w2.
    apply call_inv in H. eexists. split; [ exact H | split; reflexivity ].
  - inv_ma H as n w2 E2. apply look_inv in E2. destruct E2 as [_ ->].
    apply call_inv in H. eexists. split; [ exact H | split; reflexivity ].
  - inv_ma H as kf w2 E2. apply look_inv in E2. destruct E2 as [_ ->].
    inv_ma H as root w3 E3. apply key_root_at_inv in E3. subst w3.
    destruct (changed =? 0); apply call_inv in H;
      eexists; (split; [ exact H | split; reflexivity ]).
Qed.

(** Lines 49-90 go wild, if at all, before the search function is
    called. *)
Lemma rnext_search_stopped flag changed inx w w' :
  stopped (rnext_search flag changed inx w) w' -> w' = w.
Proof.
  unfold rnext_search, last_key_length, maria_rtree_get_first,
    maria_rtree_get_next, _ma_search_first, _ma_search_next, _ma_search.
  intros H.
  stop_ma H as alg w1 E1; [ now apply key_alg_at_stopped in H | ].
  apply key_alg_at_inv in E1. subst w1.
  destruct (flag =? 0), (HAVE_RTREE_KEYS && (alg =? HA_KEY_ALG_RTREE))%bool.
  - stop_ma H as n w2 E2; [ now apply look_stopped in H | ].
    now apply call_stopped in H.
  - stop_ma H as root w2 E2; [ now apply key_root_at_stopped in H | ].
    now apply call_stopped in H.
  - stop_ma H as n w2 E2; [ now apply look_stopped in H | ].
    now apply call_stopped in H.
  - stop_ma H as kf w2 E2; [ now apply look_stopped in H | ].
    apply look_inv in E2. destruct E2 as [_ ->].
    stop_ma H as root w3 E3; [ now apply key_root_at_stopped in H | ].
    destruct (changed =? 0); now apply call_stopped in H.
Qed.

(** Lines 94-102: the loop calls collaborators of the search only; it
    ends without an error only behind a row that is visible and for
    which the index condition returned something other than 0; and an
    index condition that returns something other than 0 ends it. *)
Lemma skip_rows_inv fuel buf inx :
  forall icp0 w e icp w',
    skip_rows fuel buf inx icp0 w = Returns (e, icp) w' ->
    exists d,
      trace w' = trace w ++ d /\
      Forall (fun ev => is_search_event ev = true) d /\
      (steady_locking ->
       lock_key_trees (share (memory w'))
       = lock_key_trees (share (memory w))) /\
      (e = 0 ->
       icp <> 0 /\
       exists d0 v,
         v <> 0 /\
         d = d0 ++ [Called Call_row_is_visible v;
                    Called (Call_ma_check_index_cond inx buf) icp] /\
         (forall j b x,
            In (Called (Call_ma_check_index_cond j b) x) d0 -> x = 0)) /\
      (forall j b x,
         In (Called (Call_ma_check_index_cond j b) x) d -> x <> 0 ->
         e = 0 /\ icp = x).
Proof.
  induction fuel as [ | fuel IH]; intros icp0 w e icp w' H; [ discriminate H | ].
  cbn [skip_rows] in H. unfold row_is_visible, ma_check_index_cond in H.
  (* one more row, from the world [w1] with the trace [t1] *)
  assert (Hnext : forall icp1 w1 d1,
             trace w1 = trace w ++ d1 ->
             Forall (fun ev => is_search_event ev = true) d1 ->
             (steady_locking ->
              lock_key_trees (share (memory w1))
              = lock_key_trees (share (memory w))) ->
             (forall j b x,
                In (Called (Call_ma_check_index_cond j b) x) d1 -> x = 0) ->
             ma_bind (key_root_at inx)
               (fun root =>
                  ma_bind (_ma_search_next SEARCH_BIGGER root)
                    (fun error =>
                       if negb (error =? 0) then ma_ret (error, icp1)
                       else skip_rows fuel buf inx icp1)) w1
             = Returns (e, icp) w' ->
             exists d,
               trace w' = trace w ++ d /\
               Forall (fun ev => is_search_event ev = true) d /\
               (steady_locking ->
                lock_key_trees (share (memory w'))
                = lock_key_trees (share (memory w))) /\
               (e = 0 ->
                icp <> 0 /\
                exists d0 v,
                  v <> 0 /\
                  d = d0 ++ [Called Call_row_is_visible v;
                             Called (Call_ma_check_index_cond inx buf) icp] /\
                  (forall j b x,
                     In (Called (Call_ma_check_index_cond j b) x) d0 ->
                     x = 0)) /\
               (forall j b x,
                  In (Called (Call_ma_check_index_cond j b) x) d -> x <> 0 ->
                  e = 0 /\ icp = x)).
  { intros icp1 w1 d1 Ht1 Hf1 Hs1 Hz1 H1.
    inv_ma H1 as root w2 E2. apply key_root_at_inv in E2. subst w2.
    inv_ma H1 as err w3 E3. apply call_inv in E3.
    destruct E3 as (Herr & Hm3 & Ht3).
    destruct (err =? 0) eqn:Ee; cbn [negb] in H1.
    - apply IH in H1. destruct H1 as (d & Ht & Hf & Hs & He & Hx).
      exists (d1 ++ [Called (Call_ma_search_next SEARCH_BIGGER root) err] ++ d).
      split; [ | split; [ | split; [ | split ] ] ].
      + rewrite Ht, Ht3, Ht1, <- !app_assoc. reflexivity.
      + apply Forall_app. split; [ exact Hf1 | ].
        constructor; [ reflexivity | exact Hf ].
      + intros S. rewrite (Hs S), Hm3, (S _ _). apply (Hs1 S).
      + intros H0. destruct (He H0) as (Hi & d0 & v & Hv & Hd & Hz0).
        split; [ exact Hi | ].
        exists (d1 ++ [Called (Call_ma_search_next SEARCH_BIGGER root) err]
                ++ d0), v.
        split; [ exact Hv | ].
        split; [ rewrite Hd, <- !app_assoc; reflexivity | ].
        intros j b x Hin. apply in_app_or in Hin.
        destruct Hin as [Hin | Hin]; [ exact (Hz1 _ _ _ Hin) | ].
        destruct Hin as [Hin | Hin]; [ discriminate Hin | ].
        exact (Hz0 _ _ _ Hin).
      + intros j b x Hin Hx0.
        apply in_app_or in Hin. destruct Hin as [Hin | Hin].
        * specialize (Hz1 _ _ _ Hin). contradiction.
        * destruct Hin as [Hin | Hin]; [ discriminate Hin | ].
          eapply Hx; eauto.
    - apply ma_ret_inv in H1. destruct H1 as [H1 ->].
      injection H1 as -> ->.
      exists (d1 ++ [Called (Call_ma_search_next SEARCH_BIGGER root) err]).
      split; [ | split; [ | split; [ | split ] ] ].
      + rewrite Ht3, Ht1, <- app_assoc. reflexivity.
      + apply Forall_app. split; [ exact Hf1 | ].
        constructor; [ reflexivity | constructor ].
      + intros S. rewrite Hm3, (S _ _). apply (Hs1 S).
      + intros H0. apply Z.eqb_neq in Ee. contradiction.
      + intros j b x Hin Hx0.
        apply in_app_or in Hin. destruct Hin as [Hin | Hin].
        * specialize (Hz1 _ _ _ Hin). contradiction.
        * destruct Hin as [Hin | []]. discriminate Hin. }
  inv_ma H as vis w1 E1. apply call_inv in E1. destruct E1 as (Hv & Hm1 & Ht1).
  destruct (vis =? 0) eqn:Ev.
  - apply (Hnext icp0 w1 [Called Call_row_is_visible vis]); trivial.
    + constructor; [ reflexivity | constructor ].
    + intros S. rewrite Hm1. apply S.
    + intros j b x [Hin | []]. discriminate Hin.
  - inv_ma H as ic w2 E2. apply call_inv in E2. destruct E2 as (Hi & Hm2 & Ht2).
    destruct (ic =? 0) eqn:Ei.
    + apply Z.eqb_eq in Ei.
      apply (Hnext ic w2 [Called Call_row_is_visible vis;
                          Called (Call_ma_check_index_cond inx buf) ic]);
        trivial.
      * rewrite Ht2, Ht1, <- app_assoc. reflexivity.
      * repeat constructor.
      * intros S. rewrite Hm2, (S _ _), Hm1. apply S.
      * intros j b x [Hin | [Hin | []]]; [ discriminate Hin | ].
        injection Hin as _ _ <-. exact Ei.
    + apply ma_ret_inv in H. destruct H as [H ->]. injection H as -> ->.
      apply Z.eqb_neq in Ei, Ev.
      exists [Called Call_row_is_visible vis;
              Called (Call_ma_check_index_cond inx buf) ic].
      split; [ | split; [ | split; [ | split ] ] ].
      * rewrite Ht2, Ht1, <- app_assoc. reflexivity.
      * repeat constructor.
      * intros S. rewrite Hm2, (S _ _), Hm1. apply S.
      * intros _. split; [ exact Ei | ]. exists [], vis.
        split; [ exact Ev | ]. split; [ reflexivity | ].
        intros j b x [].
      * intros j b x [Hin | [Hin | []]] Hx0; [ discriminate Hin | ].
        injection Hin as _ _ <-. auto.
Qed.

(** A loop that ends without returning, for lack of fuel or on a wild
    index, has seen the index condition return nothing but 0. *)
Lemma skip_rows_stopped fuel buf inx :
  forall icp0 w w',
    stopped (skip_rows fuel buf inx icp0 w) w' ->
    exists d,
      trace w' = trace w ++ d /\
      forall j b x, In (Called (Call_ma_check_index_cond j b) x) d -> x = 0.
Proof.
  induction fuel as [ | fuel IH]; intros icp0 w w' H.
  { exists []. destruct H as [H | H]; [ discriminate H | ].
    injection H as <-. split; [ now rewrite app_nil_r | intros j b x [] ]. }
  cbn [skip_rows] in H. unfold row_is_visible, ma_check_index_cond in H.
  assert (Hnext : forall icp1 w1 d1,
             trace w1 = trace w ++ d1 ->
             (forall j b x,
                In (Called (Call_ma_check_index_cond j b) x) d1 -> x = 0) ->
             stopped
               (ma_bind (key_root_at inx)
                  (fun root =>
                     ma_bind (_ma_search_next SEARCH_BIGGER root)
                       (fun error =>
                          if negb (error =? 0) then ma_ret (error, icp1)
                          else skip_rows fuel buf inx icp1)) w1) w' ->
             exists d,
               trace w' = trace w ++ d /\
               forall j b x,
                 In (Called (Call_ma_check_index_cond j b) x) d -> x = 0).
  { intros icp1 w1 d1 Ht1 Hz1 H1.
    stop_ma H1 as root w2 E2.
    { apply key_root_at_stopped in H1. subst w'. eauto. }
    apply key_root_at_inv in E2. subst w2.
    stop_ma H1 as err w3 E3; [ now apply call_stopped in H1 | ].
    apply call_inv in E3. destruct E3 as (_ & _ & Ht3).
    destruct (err =? 0); cbn [negb] in H1;
      [ | now apply ma_ret_stopped in H1 ].
    apply IH in H1. destruct H1 as (d & Ht & Hz).
    exists (d1 ++ [Called (Call_ma_search_next SEARCH_BIGGER root) err] ++ d).
    split.
    - rewrite Ht, Ht3, Ht1, <- !app_assoc. reflexivity.
    - intros j b x Hin. apply in_app_or in Hin.
      destruct Hin as [Hin | Hin]; [ exact (Hz1 _ _ _ Hin) | ].
      destruct Hin as [Hin | Hin]; [ discriminate Hin | ].
      exact (Hz _ _ _ Hin). }
  stop_ma H as vis w1 E1; [ now apply call_stopped in H | ].
  apply call_inv in E1. destruct E1 as (_ & _ & Ht1).
  destruct (vis =? 0).
  - apply (Hnext icp0 w1 [Called Call_row_is_visible vis]); trivial.
    intros j b x [Hin | []]. discriminate Hin.
  - stop_ma H as ic w2 E2; [ now apply call_stopped in H | ].
    apply call_inv in E2. destruct E2 as (_ & _ & Ht2).
    destruct (ic =? 0) eqn:Ei; [ | now apply ma_ret_stopped in H ].
    apply Z.eqb_eq in Ei.
    apply (Hnext ic w2 [Called Call_row_is_visible vis;
                        Called (Call_ma_check_index_cond inx buf) ic]);
      trivial.
    + rewrite Ht2, Ht1, <- app_assoc. reflexivity.
    + intros j b x [Hin | [Hin | []]]; [ discriminate Hin | ].
      injection Hin as _ _ <-. exact Ei.
Qed.

(** ** The end of the call *)

(** Lines 107-129: either no record is read, and then the status bits
    are the masked ones and a failed search returns [my_errno], or
    [read_record] is called, once and last. *)
Lemma rnext_finish_inv buf e icp w r w' :
  rnext_finish buf e icp w = Returns r w' ->
  (trace w' = trace w /\
   update (info (memory w'))
   = Z.lor (Z.land (update (info (memory w)))
              (Z.lor HA_STATE_CHANGED HA_STATE_ROW_CHANGED))
       HA_STATE_NEXT_FOUND /\
   share (memory w') = share (memory w) /\
   (e <> 0 \/ icp <> 1 ->
    r = my_errno (memory w') /\
    (HA_ERR_KEY_NOT_FOUND <> HA_ERR_END_OF_FILE -> r <> HA_ERR_KEY_NOT_FOUND) /\
    (icp = 2 -> r = HA_ERR_END_OF_FILE)) /\
   (e = 0 -> icp = 1 ->
    buf = 0 /\
    r = if cur_row_lastpos (info (memory w')) =? HA_OFFSET_ERROR
        then my_errno (memory w') else 0))
  \/
  (e = 0 /\ icp = 1 /\ buf <> 0 /\
   exists rr,
     trace w'
     = trace w ++ [Called (Call_read_record buf
                             (cur_row_lastpos (info (memory w)))) rr] /\
     if rr =? 0
     then r = 0 /\
          Z.land (update (info (memory w'))) HA_STATE_AKTIV = HA_STATE_AKTIV
     else r = my_errno (memory w')).
Proof.
  unfold rnext_finish, read_record. intros H.
  inv_ma H as u1 w1 E1. apply alter_inv in E1. destruct E1 as [M1 T1].
  inv_ma H as u2 w2 E2. apply alter_inv in E2. destruct E2 as [M2 T2].
  inv_ma H as u3 w3 E3.
  assert (Hw3 : trace w3 = trace w /\
                info (memory w3) = info (memory w2) /\
                share (memory w3) = share (memory w2) /\
                (icp = 2 -> my_errno (memory w3) = HA_ERR_END_OF_FILE)).
  { destruct (icp =? 2) eqn:E2'.
    - apply alter_inv in E3. destruct E3 as [M3 T3]. rewrite M3, T3, T2, T1.
      auto.
    - apply ma_ret_inv in E3. destruct E3 as [_ ->]. rewrite T2, T1.
      apply Z.eqb_neq in E2'. repeat split; trivial. contradiction. }
  destruct Hw3 as (T3 & I3 & S3 & X3).
  assert (U3 : update (info (memory w3))
               = Z.lor (Z.land (update (info (memory w)))
                          (Z.lor HA_STATE_CHANGED HA_STATE_ROW_CHANGED))
                   HA_STATE_NEXT_FOUND).
  { rewrite I3, M2, M1. reflexivity. }
  assert (P3 : cur_row_lastpos (info (memory w3))
               = cur_row_lastpos (info (memory w))).
  { rewrite I3, M2, M1. reflexivity. }
  assert (S0 : share (memory w3) = share (memory w)).
  { rewrite S3, M2, M1. reflexivity. }
  destruct (negb (e =? 0) || negb (icp =? 1))%bool eqn:Efail.
  - (* the search failed, or the index condition ended the scan *)
    left.
    inv_ma H as er w4 E4. apply look_inv in E4. destruct E4 as [-> ->].
    inv_ma H as u5 w5 E5. apply look_inv in H. destruct H as [-> ->].
    assert (Hw5 : trace w5 = trace w3 /\
                  info (memory w5) = info (memory w3) /\
                  share (memory w5) = share (memory w3) /\
                  (HA_ERR_KEY_NOT_FOUND <> HA_ERR_END_OF_FILE ->
                   my_errno (memory w5) <> HA_ERR_KEY_NOT_FOUND) /\
                  (my_errno (memory w3) = HA_ERR_END_OF_FILE ->
                   my_errno (memory w5) = HA_ERR_END_OF_FILE)).
    { destruct (my_errno (memory w3) =? HA_ERR_KEY_NOT_FOUND) eqn:Ek.
      - apply alter_inv in E5. destruct E5 as [M5 T5]. rewrite M5, T5.
        cbn. repeat split; auto.
      - apply ma_ret_inv in E5. destruct E5 as [_ ->].
        apply Z.eqb_neq in Ek. auto. }
    destruct Hw5 as (T5 & I5 & S5 & K5 & X5).
    split; [ congruence | ]. split; [ congruence | ].
    split; [ congruence | ]. split.
    + intros _. split; [ reflexivity | ]. split; [ exact K5 | ]. auto.
    + intros He Hi. subst e icp. discriminate Efail.
  - apply orb_false_iff in Efail. destruct Efail as [Ee Ei].
    apply negb_false_iff, Z.eqb_eq in Ee, Ei. subst e icp.
    destruct (buf =? 0) eqn:Eb.
    + (* no buffer: the position only *)
      left. apply Z.eqb_eq in Eb.
      inv_ma H as pos w4 E4. apply look_inv in E4. destruct E4 as [-> ->].
      assert (w' = w3 /\
              r = if cur_row_lastpos (info (memory w3)) =? HA_OFFSET_ERROR
                  then my_errno (memory w3) else 0) as [-> ->].
      { destruct (_ =? HA_OFFSET_ERROR).
        - apply look_inv in H. now destruct H.
        - apply ma_ret_inv in H. now destruct H. }
      split; [ exact T3 | ]. split; [ exact U3 | ]. split; [ exact S0 | ].
      split.
      * intros [F | F]; contradiction.
      * auto.
    + right. apply Z.eqb_neq in Eb.
      inv_ma H as pos w4 E4. apply look_inv in E4. destruct E4 as [-> ->].
      inv_ma H as rr w5 E5. apply call_inv in E5. destruct E5 as (Hr & M5 & T5).
      repeat split; trivial. exists rr. split.
      * rewrite <- P3, <- T3. 
        destruct (rr =? 0).
        -- inv_ma H as u6 w6 E6. apply alter_inv in E6. destruct E6 as [M6 T6].
           apply ma_ret_inv in H. destruct H as [_ ->]. congruence.
        -- apply look_inv in H. destruct H as [_ ->]. exact T5.
      * destruct (rr =? 0).
        -- inv_ma H as u6 w6 E6. apply alter_inv in E6. destruct E6 as [M6 T6].
           apply ma_ret_inv in H. destruct H as [-> ->].
           split; [ reflexivity | ]. rewrite M6. cbn. apply land_lor_same.
        -- apply look_inv in H. now destruct H as [-> ->].
Qed.

(** ** The call as a whole *)

(** The run of [maria_rnext]: the two ways out before the search, and
    behind them the search between the lock and the unlock, then the end
    of the call. *)
Lemma maria_rnext_inv fuel buf inx w r w' :
  maria_rnext fuel buf inx w = Returns r w' ->
  let c1 := collaborator (Call_ma_check_index inx) (memory w) in
  let c2 := collaborator Call_fast_ma_readinfo (snd c1) in
  if fst c1 <? 0 then
    r = my_errno (snd c1) /\ memory w' = snd c1 /\
    trace w' = trace w ++ [Called (Call_ma_check_index inx) (fst c1)]
  else if negb (fst c2 =? 0) then
    r = my_errno (snd c2) /\ memory w' = snd c2 /\
    trace w' = trace w ++ [Called (Call_ma_check_index inx) (fst c1);
                           Called Call_fast_ma_readinfo (fst c2)]
  else
    exists mid e icp w3,
      trace w3
      = trace w
        ++ [Called (Call_ma_check_index inx) (fst c1);
            Called Call_fast_ma_readinfo (fst c2)]
        ++ (if lock_key_trees (share (snd c2)) then [RdLock (fst c1)] else [])
        ++ mid
        ++ (if lock_key_trees (share (memory w3))
            then [Unlock (fst c1)] else []) /\
      Forall (fun ev => is_search_event ev = true) mid /\
      (steady_locking ->
       lock_key_trees (share (memory w3)) = lock_key_trees (share (snd c2))) /\
      (e = 0 ->
       icp <> 0 /\
       exists d0 v,
         v <> 0 /\
         mid = d0 ++ [Called Call_row_is_visible v;
                      Called (Call_ma_check_index_cond (fst c1) buf) icp] /\
         (forall j b x,
            In (Called (Call_ma_check_index_cond j b) x) d0 -> x = 0)) /\
      (forall j b x,
         In (Called (Call_ma_check_index_cond j b) x) mid -> x <> 0 ->
         e = 0 /\ icp = x) /\
      rnext_finish buf e icp w3 = Returns r w'.
Proof.
  intros H c1 c2.
  unfold maria_rnext, _ma_check_index, fast_ma_readinfo, _ma_test_if_changed,
    mysql_rwlock_rdlock, mysql_rwlock_unlock in H.
  inv_ma H as i w1 E1. apply call_inv in E1. destruct E1 as (Hi & M1 & T1).
  fold c1 in Hi, M1. subst i.
  destruct (fst c1 <? 0).
  { apply look_inv in H. destruct H as [-> ->]. rewrite M1. auto. }
  inv_ma H as flag w2 E2. apply look_inv in E2. destruct E2 as [_ ->].
  inv_ma H as rr w3 E3. apply call_inv in E3. destruct E3 as (Hr & M3 & T3).
  rewrite M1 in Hr, M3. fold c2 in Hr, M3. subst rr.
  destruct (negb (fst c2 =? 0)).
  { apply look_inv in H. destruct H as [-> ->]. rewrite M3, T3, T1.
    rewrite <- app_assoc. auto. }
  inv_ma H as locking w4 E4. apply look_inv in E4. destruct E4 as [-> ->].
  rewrite M3 in H.
  inv_ma H as u5 w5 E5.
  assert (Hw5 : memory w5 = snd c2 /\
                trace w5 = trace w3
                           ++ (if lock_key_trees (share (snd c2))
                               then [RdLock (fst c1)] else [])).
  { destruct (lock_key_trees (share (snd c2))).
    - apply note_inv in E5. destruct E5 as [-> ->]. auto.
    - apply ma_ret_inv in E5. destruct E5 as [_ ->].
      rewrite app_nil_r. auto. }
  destruct Hw5 as [M5 T5].
  inv_ma H as changed w6 E6. apply call_inv in E6. destruct E6 as (Hc & M6 & T6).
  inv_ma H as error w7 E7. apply rnext_search_inv in E7.
  destruct E7 as (cs & (He & M7 & T7) & Fs & Np).
  inv_ma H as x w8 E8.
  (* the loop, or no loop *)
  assert (Hloop : exists d,
             trace w8 = trace w7 ++ d /\
             Forall (fun ev => is_search_event ev = true) d /\
             (steady_locking ->
              lock_key_trees (share (memory w8))
              = lock_key_trees (share (memory w7))) /\
             (fst x = 0 ->
              snd x <> 0 /\
              exists d0 v,
                v <> 0 /\
                d = d0 ++ [Called Call_row_is_visible v;
                           Called (Call_ma_check_index_cond (fst c1) buf)
                             (snd x)] /\
                (forall j b y,
                   In (Called (Call_ma_check_index_cond j b) y) d0 ->
                   y = 0)) /\
             (forall j b y,
                In (Called (Call_ma_check_index_cond j b) y) d -> y <> 0 ->
                fst x = 0 /\ snd x = y)).
  { destruct (error =? 0) eqn:Ee.
    - destruct x as [e icp]. apply skip_rows_inv in E8. exact E8.
    - apply ma_ret_inv in E8. destruct E8 as [-> ->]. exists [].
      apply Z.eqb_neq in Ee. cbn [fst snd].
      split; [ now rewrite app_nil_r | ].
      split; [ constructor | ]. split; [ reflexivity | ].
      split; [ contradiction | ]. intros j b y []. }
  destruct Hloop as (d & T8 & Fd & S8 & H0 & Hx).
  inv_ma H as locking w9 E9. apply look_inv in E9. destruct E9 as [-> ->].
  inv_ma H as u10 w10 E10.
  assert (Hw10 : memory w10 = memory w8 /\
                 trace w10 = trace w8
                             ++ (if lock_key_trees (share (memory w8))
                                 then [Unlock (fst c1)] else [])).
  { destruct (lock_key_trees (share (memory w8))).
    - apply note_inv in E10. destruct E10 as [-> ->]. auto.
    - apply ma_ret_inv in E10. destruct E10 as [_ ->].
      rewrite app_nil_r. auto. }
  destruct Hw10 as [M10 T10].
  exists ([Called Call_ma_test_if_changed changed; Called cs error] ++ d),
    (fst x), (snd x), w10.
  split; [ | split; [ | split; [ | split; [ | split ] ] ] ].
  - rewrite M10, T10, T8, T7, T6, T5, T3, T1, <- !app_assoc. reflexivity.
  - constructor; [ reflexivity | ]. constructor; [ exact Fs | exact Fd ].
  - intros S. rewrite M10, (S8 S), M7, (S _ _), M6, (S _ _), M5. reflexivity.
  - intros Hz. destruct (H0 Hz) as (Hn & d0 & v & Hv & -> & Hz0).
    split; [ exact Hn | ].
    exists ([Called Call_ma_test_if_changed changed; Called cs error] ++ d0), v.
    split; [ exact Hv | ].
    split; [ rewrite <- !app_assoc; reflexivity | ].
    intros j b y Hin. destruct Hin as [Hin | [Hin | Hin]].
    + discriminate Hin.
    + injection Hin as -> _. discriminate Np.
    + exact (Hz0 _ _ _ Hin).
  - intros j b y Hin Hy. destruct Hin as [Hin | [Hin | Hin]].
    + discriminate Hin.
    + (* the search functions are not the index condition *)
      injection Hin as -> _. discriminate Np.
    + eapply Hx; eauto.
  - exact H.
Qed.

(** Lines 107-129 return. *)
Lemma rnext_finish_stopped buf e icp w w' :
  ~ stopped (rnext_finish buf e icp w) w'.
Proof.
  unfold rnext_finish, read_record. intros H.
  stop_ma H as u1 w1 E1; [ now apply alter_stopped in H | ].
  stop_ma H as u2 w2 E2; [ now apply alter_stopped in H | ].
  stop_ma H as u3 w3 E3.
  { destruct (icp =? 2);
      [ now apply alter_stopped in H | now apply ma_ret_stopped in H ]. }
  destruct (negb (e =? 0) || negb (icp =? 1))%bool.
  - stop_ma H as er w4 E4; [ now apply look_stopped in H | ].
    stop_ma H as u5 w5 E5; [ | now apply look_stopped in H ].
    destruct (er =? HA_ERR_KEY_NOT_FOUND);
      [ now apply alter_stopped in H | now apply ma_ret_stopped in H ].
  - destruct (buf =? 0).
    + stop_ma H as pos w4 E4; [ now apply look_stopped in H | ].
      destruct (pos =? HA_OFFSET_ERROR);
        [ now apply look_stopped in H | now apply ma_ret_stopped in H ].
    + stop_ma H as pos w4 E4; [ now apply look_stopped in H | ].
      stop_ma H as rr w5 E5; [ now apply call_stopped in H | ].
      destruct (rr =? 0); [ | now apply look_stopped in H ].
      stop_ma H as u6 w6 E6; [ now apply alter_stopped in H | ].
      now apply ma_ret_stopped in H.
Qed.

(** Look for an event in a trace that is given piece by piece; the lock
    events are those of [L]. *)
Ltac no_index_cond Hin L :=
  repeat first
    [ discriminate Hin
    | match type of Hin with
      | In _ (_ ++ _) => apply in_app_or in Hin; destruct Hin as [Hin | Hin]
      | In _ (_ :: _) => destruct Hin as [Hin | Hin]
      | In _ [] => destruct Hin
      | In _ _ => specialize (L _ Hin); discriminate L
      end ].

(** A call that ends without returning has seen the index condition
    return nothing but 0. *)
Lemma maria_rnext_stopped fuel buf inx w w' :
  stopped (maria_rnext fuel buf inx w) w' ->
  exists d,
    trace w' = trace w ++ d /\
    forall j b x, In (Called (Call_ma_check_index_cond j b) x) d -> x = 0.
Proof.
  unfold maria_rnext, _ma_check_index, fast_ma_readinfo, _ma_test_if_changed,
    mysql_rwlock_rdlock, mysql_rwlock_unlock.
  intros H.
  stop_ma H as i w1 E1; [ now apply call_stopped in H | ].
  apply call_inv in E1. destruct E1 as (_ & _ & T1).
  destruct (i <? 0); [ now apply look_stopped in H | ].
  stop_ma H as flag w2 E2; [ now apply look_stopped in H | ].
  apply look_inv in E2. destruct E2 as [_ ->].
  stop_ma H as rr w3 E3; [ now apply call_stopped in H | ].
  apply call_inv in E3. destruct E3 as (_ & _ & T3).
  destruct (negb (rr =? 0)); [ now apply look_stopped in H | ].
  stop_ma H as locking w4 E4; [ now apply look_stopped in H | ].
  apply look_inv in E4. destruct E4 as [-> ->].
  stop_ma H as u5 w5 E5.
  { destruct (lock_key_trees (share (memory w3)));
      [ now apply note_stopped in H | now apply ma_ret_stopped in H ]. }
  assert (T5 : exists l5,
             trace w5 = trace w3 ++ l5 /\
             forall ev, In ev l5 -> is_lock_event ev = true).
  { destruct (lock_key_trees (share (memory w3))).
    - apply note_inv in E5. destruct E5 as [_ ->].
      eexists. split; [ reflexivity | ]. intros ev [<- | []]. reflexivity.
    - apply ma_ret_inv in E5. destruct E5 as [_ ->].
      exists []. split; [ now rewrite app_nil_r | intros ev [] ]. }
  destruct T5 as (l5 & T5 & L5).
  stop_ma H as changed w6 E6; [ now apply call_stopped in H | ].
  apply call_inv in E6. destruct E6 as (_ & _ & T6).
  stop_ma H as error w7 E7.
  { apply rnext_search_stopped in H. subst w'.
    eexists. split.
    - rewrite T6, T5, T3, T1, <- !app_assoc. reflexivity.
    - intros j b x Hin. exfalso. no_index_cond Hin L5. }
  apply rnext_search_inv in E7.
  destruct E7 as (cs & (_ & _ & T7) & _ & Np).
  stop_ma H as x w8 E8.
  { destruct (error =? 0); [ | now apply ma_ret_stopped in H ].
    apply skip_rows_stopped in H. destruct H as (d & T & Hz).
    eexists. split.
    - rewrite T, T7, T6, T5, T3, T1, <- !app_assoc. reflexivity.
    - intros j b y Hin. no_index_cond Hin L5.
      + injection Hin as -> _. discriminate Np.
      + exact (Hz _ _ _ Hin). }
  stop_ma H as locking w9 E9; [ now apply look_stopped in H | ].
  stop_ma H as u10 w10 E10.
  { destruct locking;
      [ now apply note_stopped in H | now apply ma_ret_stopped in H ]. }
  now apply rnext_finish_stopped in H.
Qed.

Lemma lock_events_app d1 d2 :
  lock_events (d1 ++ d2) = lock_events d1 ++ lock_events d2.
Proof. apply filter_app. Qed.

Lemma lock_events_search d :
  Forall (fun ev => is_search_event ev = true) d -> lock_events d = [].
Proof.
  induction 1 as [ | ev d Hev _ IH]; [ reflexivity | ].
  unfold lock_events in *. cbn [filter]. rewrite IH.
  unfold is_search_event in Hev. apply andb_prop in Hev.
  destruct Hev as [Hev _]. apply negb_true_iff in Hev. now rewrite Hev.
Qed.

Lemma search_event_not_record d b p rr :
  Forall (fun ev => is_search_event ev = true) d ->
  ~ In (Called (Call_read_record b p) rr) d.
Proof.
  intros F Hin. rewrite Forall_forall in F. specialize (F _ Hin).
  discriminate F.
Qed.

Lemma search_events_read_nothing d :
  Forall (fun ev => is_search_event ev = true) d ->
  filter is_read_record d = [].
Proof.
  induction 1 as [ | ev l Hev _ IH]; [ reflexivity | ].
  cbn [filter]. rewrite IH. unfold is_search_event in Hev.
  apply andb_prop in Hev. destruct Hev as [_ Hev].
  apply negb_true_iff in Hev. now rewrite Hev.
Qed.

(** X14: a wrong index, or a failure of [fast_ma_readinfo], ends the
    call at once, whatever the fuel: it returns [my_errno] as the
    collaborator left it, and has taken no lock, searched nothing and
    read no record. *)
Theorem rnext_stops_before_the_search fuel buf inx w :
  let c1 := collaborator (Call_ma_check_index inx) (memory w) in
  let c2 := collaborator Call_fast_ma_readinfo (snd c1) in
  fst c1 < 0 \/ fst c2 <> 0 ->
  exists w',
    maria_rnext fuel buf inx w = Returns (my_errno (memory w')) w' /\
    memory w' = (if fst c1 <? 0 then snd c1 else snd c2) /\
    trace w'
    = trace w
      ++ Called (Call_ma_check_index inx) (fst c1)
         :: (if fst c1 <? 0 then []
             else [Called Call_fast_ma_readinfo (fst c2)]).
Proof.
  intros c1 c2 Hstop.
  unfold maria_rnext, _ma_check_index, fast_ma_readinfo.
  rewrite (ma_bind_returns _ _ _ _ _ (call_returns _ _)). fold c1.
  destruct (fst c1 <? 0) eqn:E1.
  - eexists. split; [ reflexivity | ]. cbn. auto.
  - rewrite (ma_bind_returns _ _ _ _ _ (look_returns _ _)).
    rewrite (ma_bind_returns _ _ _ _ _ (call_returns _ _)).
    cbn [memory trace]. fold c2. apply Z.ltb_ge in E1.
    destruct Hstop as [Hstop | Hstop]; [ lia | ].
    apply Z.eqb_neq in Hstop. rewrite Hstop. cbn [negb].
    eexists. split; [ reflexivity | ]. cbn. rewrite <- app_assoc. auto.
Qed.

(** X15: when no collaborator changes [share->lock_key_trees], every
    call that returns has left the key tree unlocked: it took the read
    lock of the index once and released it once if it got to the search
    and key trees are locked, and touched no lock otherwise. *)
Theorem rnext_releases_the_lock fuel buf inx w r w' :
  steady_locking ->
  maria_rnext fuel buf inx w = Returns r w' ->
  let c1 := collaborator (Call_ma_check_index inx) (memory w) in
  let c2 := collaborator Call_fast_ma_readinfo (snd c1) in
  exists d,
    trace w' = trace w ++ d /\
    lock_events d
    = if (0 <=? fst c1) && (fst c2 =? 0) && lock_key_trees (share (snd c2))
      then [RdLock (fst c1); Unlock (fst c1)]
      else [].
Proof.
  intros S H c1 c2. apply maria_rnext_inv in H. cbv zeta in H.
  fold c1 c2 in H.
  destruct (Z.ltb_spec (fst c1) 0) as [Hneg | Hpos].
  { destruct H as (_ & _ & ->). eexists. split; [ reflexivity | ].
    replace (0 <=? fst c1) with false by (symmetry; apply Z.leb_gt; lia).
    reflexivity. }
  replace (0 <=? fst c1) with true by (symmetry; apply Z.leb_le; lia).
  destruct (fst c2 =? 0) eqn:E2; cbn [negb andb] in *.
  2: { destruct H as (_ & _ & ->). eexists. split; reflexivity. }
  destruct H as (mid & e & icp & w3 & T3 & Fm & S3 & _ & _ & H).
  rewrite (S3 S) in T3.
  apply rnext_finish_inv in H.
  assert (Ht : exists tail, trace w' = trace w3 ++ tail /\ lock_events tail = []).
  { destruct H as [(T & _) | (_ & _ & _ & rr & T & _)].
    - exists []. rewrite app_nil_r. auto.
    - eexists. split; [ exact T | reflexivity ]. }
  destruct Ht as (tail & T & Lt).
  eexists. split.
  - rewrite T, T3, <- !app_assoc. reflexivity.
  - rewrite !lock_events_app, Lt, (lock_events_search _ Fm).
    destruct (lock_key_trees (share (snd c2))); reflexivity.
Qed.

(** X16: [read_record] is called at most once, as the last thing the
    call does: the trace ends with that call and holds no other call of
    [read_record] before it. It is called with the caller's buffer, and
    only when the search ended on a row that [row_is_visible] accepted
    and for which the index condition returned 1; the key tree is
    unlocked by then. If it succeeds the call returns 0 and the handler
    is marked [HA_STATE_AKTIV]. *)
Theorem record_is_read_after_a_match fuel buf inx w r w' d b p rr :
  maria_rnext fuel buf inx w = Returns r w' ->
  trace w' = trace w ++ d ->
  In (Called (Call_read_record b p) rr) d ->
  b = buf /\ buf <> 0 /\
  (exists d0 v i u,
     v <> 0 /\ (u = [] \/ u = [Unlock i]) /\
     d = d0
         ++ [Called Call_row_is_visible v;
             Called (Call_ma_check_index_cond i buf) 1]
         ++ u ++ [Called (Call_read_record buf p) rr] /\
     filter is_read_record d0 = []) /\
  (rr = 0 ->
   r = 0 /\
   Z.land (update (info (memory w'))) HA_STATE_AKTIV = HA_STATE_AKTIV).
Proof.
  intros H Hd Hin. apply maria_rnext_inv in H. cbv zeta in H.
  set (c1 := collaborator (Call_ma_check_index inx) (memory w)) in *.
  set (c2 := collaborator Call_fast_ma_readinfo (snd c1)) in *.
  destruct (fst c1 <? 0).
  { destruct H as (_ & _ & T). rewrite T in Hd. apply app_inv_head in Hd.
    subst d. destruct Hin as [Hin | []]. discriminate Hin. }
  destruct (negb (fst c2 =? 0)).
  { destruct H as (_ & _ & T). rewrite T in Hd. apply app_inv_head in Hd.
    subst d. destruct Hin as [Hin | [Hin | []]]; discriminate Hin. }
  destruct H as (mid & e & icp & w3 & T3 & Fm & _ & H0 & _ & H).
  apply rnext_finish_inv in H.
  destruct H as [(T & _) | (He & Hi & Hb & rr' & T & Hr)].
  - (* no record was read *)
    exfalso. rewrite T, T3 in Hd. apply app_inv_head in Hd. subst d.
    cbn [app] in Hin.
    destruct Hin as [Hin | [Hin | Hin]]; try discriminate Hin.
    apply in_app_or in Hin. destruct Hin as [Hin | Hin].
    { destruct (lock_key_trees (share (snd c2)));
        [ destruct Hin as [Hin | []]; discriminate Hin | destruct Hin ]. }
    apply in_app_or in Hin. destruct Hin as [Hin | Hin].
    { exact (search_event_not_record _ _ _ _ Fm Hin). }
    destruct (lock_key_trees (share (memory w3)));
      [ destruct Hin as [Hin | []]; discriminate Hin | destruct Hin ].
  - destruct (H0 He) as (_ & d0 & v & Hv & Hmid & _). subst icp mid.
    apply Forall_app in Fm. destruct Fm as [Fm _].
    rewrite T, T3, <- !app_assoc in Hd. apply app_inv_head in Hd.
    assert (Hlast : Called (Call_read_record b p) rr
                    = Called (Call_read_record buf
                                (cur_row_lastpos (info (memory w3)))) rr').
    { rewrite <- Hd in Hin. cbn [app] in Hin.
      destruct Hin as [Hin | [Hin | Hin]]; try discriminate Hin.
      apply in_app_or in Hin. destruct Hin as [Hin | Hin].
      { destruct (lock_key_trees (share (snd c2)));
          [ destruct Hin as [Hin | []]; discriminate Hin | destruct Hin ]. }
      apply in_app_or in Hin. destruct Hin as [Hin | Hin].
      { exfalso. exact (search_event_not_record _ _ _ _ Fm Hin). }
      destruct Hin as [Hin | [Hin | Hin]]; try discriminate Hin.
      apply in_app_or in Hin. destruct Hin as [Hin | Hin].
      { destruct (lock_key_trees (share (memory w3)));
          [ destruct Hin as [Hin | []]; discriminate Hin | destruct Hin ]. }
      destruct Hin as [Hin | []]. now symmetry. }
    injection Hlast as -> -> ->.
    split; [ reflexivity | ]. split; [ exact Hb | ]. split.
    + exists ([Called (Call_ma_check_index inx) (fst c1);
               Called Call_fast_ma_readinfo (fst c2)]
              ++ (if lock_key_trees (share (snd c2))
                  then [RdLock (fst c1)] else [])
              ++ d0), v, (fst c1),
        (if lock_key_trees (share (memory w3)) then [Unlock (fst c1)] else []).
      split; [ exact Hv | ]. split; [ | split ].
      * destruct (lock_key_trees (share (memory w3))); auto.
      * rewrite <- Hd, <- !app_assoc. reflexivity.
      * cbn [app filter is_read_record]. rewrite filter_app.
        rewrite (search_events_read_nothing _ Fm).
        destruct (lock_key_trees (share (snd c2))); reflexivity.
    + intros ->. exact Hr.
Qed.

(** The end of a call that got to the search and read no record. *)
Lemma rnext_without_record fuel buf inx w r w' d :
  maria_rnext fuel buf inx w = Returns r w' ->
  trace w' = trace w ++ d ->
  let c1 := collaborator (Call_ma_check_index inx) (memory w) in
  let c2 := collaborator Call_fast_ma_readinfo (snd c1) in
  0 <= fst c1 -> fst c2 = 0 ->
  (forall p rr, ~ In (Called (Call_read_record buf p) rr) d) ->
  exists u e icp,
    update (info (memory w'))
    = Z.lor (Z.land u (Z.lor HA_STATE_CHANGED HA_STATE_ROW_CHANGED))
        HA_STATE_NEXT_FOUND /\
    (e <> 0 \/ icp <> 1 ->
     r = my_errno (memory w') /\
     (HA_ERR_KEY_NOT_FOUND <> HA_ERR_END_OF_FILE ->
      r <> HA_ERR_KEY_NOT_FOUND)) /\
    (e = 0 -> icp = 1 -> buf = 0).
Proof.
  intros H Hd c1 c2 H1 H2 Hno. apply maria_rnext_inv in H. cbv zeta in H.
  fold c1 c2 in H.
  replace (fst c1 <? 0) with false in H by (symmetry; apply Z.ltb_ge; lia).
  rewrite H2 in H. cbn [Z.eqb negb] in H.
  destruct H as (mid & e & icp & w3 & T3 & _ & _ & _ & _ & H).
  apply rnext_finish_inv in H.
  destruct H as [(_ & U & _ & Hf & Hb) | (_ & _ & _ & rr & T & _)].
  - exists (update (info (memory w3))), e, icp.
    split; [ exact U | ]. split.
    + intros F. destruct (Hf F) as (Hr & Hk & _). auto.
    + intros He Hi. now destruct (Hb He Hi).
  - exfalso. rewrite T, T3, <- !app_assoc in Hd. apply app_inv_head in Hd.
    eapply Hno. rewrite <- Hd.
    cbn [app]. right. right. apply in_or_app. right.
    apply in_or_app. right. apply in_or_app. right. left. reflexivity.
Qed.


(** X18: a call that got to the search and read no record leaves
    [HA_STATE_NEXT_FOUND] set in [info->update] and, of all other status
    bits, at most [HA_STATE_CHANGED] and [HA_STATE_ROW_CHANGED]. *)
Theorem rnext_status_bits fuel buf inx w r w' d :
  maria_rnext fuel buf inx w = Returns r w' ->
  trace w' = trace w ++ d ->
  0 <= fst (collaborator (Call_ma_check_index inx) (memory w)) ->
  fst (collaborator Call_fast_ma_readinfo
         (snd (collaborator (Call_ma_check_index inx) (memory w)))) = 0 ->
  (forall p rr, ~ In (Called (Call_read_record buf p) rr) d) ->
  Z.land (update (info (memory w'))) HA_STATE_NEXT_FOUND = HA_STATE_NEXT_FOUND /\
  Z.ldiff (update (info (memory w')))
    (Z.lor (Z.lor HA_STATE_CHANGED HA_STATE_ROW_CHANGED) HA_STATE_NEXT_FOUND)
  = 0.
Proof.
  intros H Hd H1 H2 Hno.
  destruct (rnext_without_record fuel buf inx w r w' d H Hd H1 H2 Hno)
    as (u & e & icp & -> & _).
  split; [ apply land_lor_same | apply ldiff_masked ].
Qed.

(** X19: an index condition that returns 2, beyond the end of the
    scanned range, ends the scan and the call. Whatever the fuel, a run
    whose trace, up to where it returned, went wild or was cut off,
    shows the index condition returning 2 has returned, with
    [HA_ERR_END_OF_FILE], in [my_errno] too. That call of the index
    condition was the last call of a collaborator: nothing was searched
    after it, only the key tree was unlocked, and no record was read.
    It was made on the caller's buffer for a row that [row_is_visible]
    accepted, and the index condition had returned 0 for every row before
    it. *)
Theorem index_condition_out_of_range_is_end_of_file
    fuel buf inx w d j b :
  trace (last_world (maria_rnext fuel buf inx w)) = trace w ++ d ->
  In (Called (Call_ma_check_index_cond j b) 2) d ->
  exists w' d0 v u,
    maria_rnext fuel buf inx w = Returns HA_ERR_END_OF_FILE w' /\
    my_errno (memory w') = HA_ERR_END_OF_FILE /\
    b = buf /\ v <> 0 /\ (u = [] \/ u = [Unlock j]) /\
    d = d0
        ++ [Called Call_row_is_visible v;
            Called (Call_ma_check_index_cond j buf) 2]
        ++ u /\
    (forall i c x, In (Called (Call_ma_check_index_cond i c) x) d0 -> x = 0) /\
    filter is_read_record d = [].
Proof.
  intros Hd Hin.
  destruct (maria_rnext fuel buf inx w) as [r w' | w' | w'] eqn:H;
    cbn [last_world] in Hd.
  2, 3: exfalso;
    destruct (maria_rnext_stopped fuel buf inx w w') as (d' & T & Hz);
    [ rewrite H; first [ now left | now right ] | ];
    rewrite T in Hd; apply app_inv_head in Hd; subst d';
    specialize (Hz _ _ _ Hin); discriminate Hz.
  apply maria_rnext_inv in H. cbv zeta in H.
  set (c1 := collaborator (Call_ma_check_index inx) (memory w)) in *.
  set (c2 := collaborator Call_fast_ma_readinfo (snd c1)) in *.
  destruct (fst c1 <? 0).
  { exfalso. destruct H as (_ & _ & T). rewrite T in Hd.
    apply app_inv_head in Hd. subst d.
    destruct Hin as [Hin | []]. discriminate Hin. }
  destruct (negb (fst c2 =? 0)).
  { exfalso. destruct H as (_ & _ & T). rewrite T in Hd.
    apply app_inv_head in Hd. subst d.
    destruct Hin as [Hin | [Hin | []]]; discriminate Hin. }
  destruct H as (mid & e & icp & w3 & T3 & Fm & _ & H0 & Hx & H).
  apply rnext_finish_inv in H.
  assert (Hpre : forall ev,
             In ev (if lock_key_trees (share (snd c2))
                    then [RdLock (fst c1)] else []) ->
             is_lock_event ev = true).
  { intros ev Hev. destruct (lock_key_trees (share (snd c2)));
      [ destruct Hev as [<- | []]; reflexivity | destruct Hev ]. }
  assert (Hpost : forall ev,
             In ev (if lock_key_trees (share (memory w3))
                    then [Unlock (fst c1)] else []) ->
             is_lock_event ev = true).
  { intros ev Hev. destruct (lock_key_trees (share (memory w3)));
      [ destruct Hev as [<- | []]; reflexivity | destruct Hev ]. }
  assert (Hm : forall tail,
             (forall ev, In ev tail -> is_read_record ev = true) ->
             d = [Called (Call_ma_check_index inx) (fst c1);
                  Called Call_fast_ma_readinfo (fst c2)]
                 ++ (if lock_key_trees (share (snd c2))
                     then [RdLock (fst c1)] else [])
                 ++ mid
                 ++ (if lock_key_trees (share (memory w3))
                     then [Unlock (fst c1)] else [])
                 ++ tail ->
             In (Called (Call_ma_check_index_cond j b) 2) mid).
  { intros tail Ht ->. cbn [app] in Hin.
    destruct Hin as [Hin | [Hin | Hin]]; try discriminate Hin.
    apply in_app_or in Hin. destruct Hin as [Hin | Hin].
    { specialize (Hpre _ Hin). discriminate Hpre. }
    apply in_app_or in Hin. destruct Hin as [Hin | Hin]; [ exact Hin | ].
    apply in_app_or in Hin. destruct Hin as [Hin | Hin].
    { specialize (Hpost _ Hin). discriminate Hpost. }
    specialize (Ht _ Hin). discriminate Ht. }
  destruct H as [(T & _ & _ & Hf & _) | (_ & Hi & _ & rr & T & _)].
  - rewrite T, T3 in Hd. apply app_inv_head in Hd.
    specialize (Hm []). rewrite app_nil_r in Hm.
    specialize (Hm ltac:(intros ev []) (eq_sym Hd)).
    destruct (Hx _ _ _ Hm ltac:(lia)) as [He Hi].
    destruct (H0 He) as (_ & d0 & v & Hv & Hmid & Hz0).
    destruct (Hf ltac:(right; lia)) as (Hr & _ & H2).
    specialize (H2 Hi). subst icp.
    (* the call in question is the last one of the loop *)
    assert (Hjb : j = fst c1 /\ b = buf).
    { rewrite Hmid in Hm. apply in_app_or in Hm.
      destruct Hm as [Hm | [Hm | [Hm | []]]].
      - specialize (Hz0 _ _ _ Hm). discriminate Hz0.
      - discriminate Hm.
      - injection Hm as -> ->. auto. }
    destruct Hjb as [-> ->].
    exists w',
      ([Called (Call_ma_check_index inx) (fst c1);
        Called Call_fast_ma_readinfo (fst c2)]
       ++ (if lock_key_trees (share (snd c2)) then [RdLock (fst c1)] else [])
       ++ d0), v,
      (if lock_key_trees (share (memory w3)) then [Unlock (fst c1)] else []).
    split; [ now rewrite H2 | ]. split; [ congruence | ].
    split; [ reflexivity | ]. split; [ exact Hv | ].
    split; [ destruct (lock_key_trees (share (memory w3))); auto | ].
    split; [ rewrite <- Hd, Hmid, <- !app_assoc; reflexivity | ].
    split.
    + intros i c x Hi. cbn [app] in Hi.
      destruct Hi as [Hi | [Hi | Hi]]; try discriminate Hi.
      apply in_app_or in Hi. destruct Hi as [Hi | Hi].
      * specialize (Hpre _ Hi). discriminate Hpre.
      * exact (Hz0 _ _ _ Hi).
    + rewrite <- Hd. cbn [app filter is_read_record].
      rewrite !filter_app, (search_events_read_nothing _ Fm).
      destruct (lock_key_trees (share (snd c2))),
        (lock_key_trees (share (memory w3))); reflexivity.
  - exfalso. rewrite T, T3, <- !app_assoc in Hd. apply app_inv_head in Hd.
    assert (Hmid : In (Called (Call_ma_check_index_cond j b) 2) mid).
    { eapply Hm; [ | symmetry; exact Hd ].
      intros ev [<- | []]. reflexivity. }
    destruct (Hx _ _ _ Hmid ltac:(lia)) as [_ Hi2]. lia.
Qed.

(** ** The loop ends *)

Lemma settles_bind {A B} (c : MA A) (k : A -> MA B) w :
  settles (c w) ->
  (forall a w1, c w = Returns a w1 -> settles (k a w1)) ->
  settles (ma_bind c k w).
Proof.
  unfold ma_bind. intros Hc Hk.
  destruct (c w) as [a w1 | | ]; [ now apply Hk | exact I | exact Hc ].
Qed.

Lemma settles_call c w : settles (call c w).
Proof. exact I. Qed.

Lemma settles_look {A} (f : mem -> A) w : settles (look f w).
Proof. exact I. Qed.

Lemma settles_deref {A} (o : option A) w : settles (deref o w).
Proof. unfold deref. now destruct o. Qed.

Lemma settles_key_root_at inx w : settles (key_root_at inx w).
Proof.
  unfold key_root_at. apply settles_bind; [ exact I | ].
  intros. apply settles_deref.
Qed.

Lemma settles_key_alg_at inx w : settles (key_alg_at inx w).
Proof.
  unfold key_alg_at. apply settles_bind; [ exact I | ]. intros.
  apply settles_bind; [ apply settles_deref | ]. intros. exact I.
Qed.

Lemma settles_search flag changed inx w :
  settles (rnext_search flag changed inx w).
Proof.
  unfold rnext_search. apply settles_bind; [ apply settles_key_alg_at | ].
  intros alg w1 _.
  destruct (flag =? 0), (HAVE_RTREE_KEYS && (alg =? HA_KEY_ALG_RTREE))%bool;
    repeat first
      [ exact I
      | apply settles_key_root_at
      | apply settles_bind; [ | intros ? ? _ ]
      | match goal with |- settles ((if ?b then _ else _) _) => destruct b end ].
Qed.

Lemma settles_finish buf e icp w : settles (rnext_finish buf e icp w).
Proof.
  unfold rnext_finish.
  repeat first
    [ exact I
    | apply settles_bind; [ | intros ? ? _ ]
    | match goal with
      | |- settles ((if ?b then _ else _) _) => destruct b
      | |- settles (if ?b then _ else _) => destruct b
      end ].
Qed.

(** With as much fuel as there are rows left, the loop ends. *)
Lemma skip_rows_settles (left : mem -> nat) buf inx :
  (forall c m, is_probe c = true ->
               (left (snd (collaborator c m)) <= left m)%nat) ->
  (forall f p m, fst (collaborator (Call_ma_search_next f p) m) = 0 ->
                 (left (snd (collaborator (Call_ma_search_next f p) m))
                  < left m)%nat) ->
  forall fuel icp0 w,
    (left (memory w) < fuel)%nat ->
    settles (skip_rows fuel buf inx icp0 w).
Proof.
  intros Hprobe Hnext. induction fuel as [ | fuel IH]; intros icp0 w Hfuel;
    [ lia | ].
  cbn [skip_rows].
  assert (Hstep : forall icp1 w1,
             (left (memory w1) <= left (memory w))%nat ->
             settles
               (ma_bind (key_root_at inx)
                  (fun root =>
                     ma_bind (_ma_search_next SEARCH_BIGGER root)
                       (fun error =>
                          if negb (error =? 0) then ma_ret (error, icp1)
                          else skip_rows fuel buf inx icp1)) w1)).
  { intros icp1 w1 Hle.
    apply settles_bind; [ apply settles_key_root_at | ].
    intros root w2 E2. apply key_root_at_inv in E2. subst w2.
    apply settles_bind; [ exact I | ].
    intros err w3 E3. apply call_inv in E3. destruct E3 as (He & M3 & _).
    destruct (err =? 0) eqn:Ee; cbn [negb]; [ | exact I ].
    apply Z.eqb_eq in Ee. apply IH. rewrite M3.
    specialize (Hnext SEARCH_BIGGER root (memory w1)).
    rewrite <- He in Hnext. specialize (Hnext Ee). lia. }
  apply settles_bind; [ exact I | ].
  intros vis w1 E1. apply call_inv in E1. destruct E1 as (_ & M1 & _).
  assert (L1 : (left (memory w1) <= left (memory w))%nat)
    by (rewrite M1; now apply Hprobe).
  destruct (vis =? 0); [ now apply Hstep | ].
  apply settles_bind; [ exact I | ].
  intros ic w2 E2. apply call_inv in E2. destruct E2 as (_ & M2 & _).
  destruct (ic =? 0); [ | exact I ].
  apply Hstep. rewrite M2.
  etransitivity; [ apply Hprobe; reflexivity | exact L1 ].
Qed.

(** X20: when the collaborators that look at the current row do not
    move the position back, every successful [_ma_search_next] leaves
    fewer rows ahead, and no collaborator adds rows to the index, the
    loop that skips invisible and unmatched rows ends: with fuel for
    one round more than the index has rows, [maria_rnext] does not run
    out of fuel. *)
Theorem rnext_settles (left cap : mem -> nat) buf inx w :
  (forall c m, is_probe c = true ->
               (left (snd (collaborator c m)) <= left m)%nat) ->
  (forall f p m, fst (collaborator (Call_ma_search_next f p) m) = 0 ->
                 (left (snd (collaborator (Call_ma_search_next f p) m))
                  < left m)%nat) ->
  (forall c m, cap (snd (collaborator c m)) = cap m) ->
  (forall m, (left m <= cap m)%nat) ->
  settles (maria_rnext (S (cap (memory w))) buf inx w).
Proof.
  intros Hprobe Hnext Hcap Hleft.
  unfold maria_rnext, _ma_check_index, fast_ma_readinfo, _ma_test_if_changed,
    mysql_rwlock_rdlock, mysql_rwlock_unlock.
  apply settles_bind; [ exact I | ].
  intros i w1 E1. apply call_inv in E1. destruct E1 as (_ & M1 & _).
  destruct (i <? 0); [ exact I | ].
  apply settles_bind; [ exact I | ].
  intros flag w2 E2. apply look_inv in E2. destruct E2 as [_ ->].
  apply settles_bind; [ exact I | ].
  intros rr w3 E3. apply call_inv in E3. destruct E3 as (_ & M3 & _).
  destruct (negb (rr =? 0)); [ exact I | ].
  apply settles_bind; [ exact I | ].
  intros locking w4 E4. apply look_inv in E4. destruct E4 as [_ ->].
  apply settles_bind; [ destruct locking; exact I | ].
  intros u5 w5 E5.
  assert (M5 : memory w5 = memory w3).
  { destruct locking.
    - apply note_inv in E5. now destruct E5.
    - apply ma_ret_inv in E5. now destruct E5 as [_ ->]. }
  apply settles_bind; [ exact I | ].
  intros changed w6 E6. apply call_inv in E6. destruct E6 as (_ & M6 & _).
  apply settles_bind; [ apply settles_search | ].
  intros error w7 E7. apply rnext_search_inv in E7.
  destruct E7 as (cs & (_ & M7 & _) & _).
  assert (C7 : cap (memory w7) = cap (memory w)).
  { rewrite M7, Hcap, M6, Hcap, M5, M3, Hcap, M1, Hcap. reflexivity. }
  apply settles_bind.
  { destruct (error =? 0); [ | exact I ].
    apply (skip_rows_settles left); trivial.
    rewrite <- C7. specialize (Hleft (memory w7)). lia. }
  intros x w8 _.
  apply settles_bind; [ exact I | ]. intros locking' w9 _.
  apply settles_bind; [ destruct locking'; exact I | ]. intros u10 w10 _.
  apply settles_finish.
Qed.

End AriaFacts.

(** * The concrete configuration *)

Lemma mariadb_layout_ok trim :
  LayoutOk (K := mariadb_consts) (V := zlib_vars trim).
Proof.
  constructor; cbn; try lia.
  repeat constructor; cbn; intuition discriminate.
Qed.

Lemma no_compressed_row_format s :
  Some test_space = Some s ->
  FSP_FLAGS_GET_ZIP_SSIZE (Collab := plain_collab) (flags s) = 0.
Proof. intros E. injection E as <-. reflexivity. Qed.

(** The run-length codec in the zlib slot inverts itself on the blank
    index page, in both header variants. *)
Lemma rle_inverts_blank_page debug trim encrypted :
  codec_inverts (K := mariadb_consts) (B := full_build debug)
    (V := zlib_vars trim) (C := rle_codecs)
    1 (blank_page 17855) 6
    (compress_header_len (K := mariadb_consts) encrypted).
Proof.
  intros n payload H _.
  destruct encrypted; vm_compute in H; injection H as <- <-;
    (split; [ vm_compute; discriminate | ]);
    (split; [ reflexivity | ]);
    (split; [ reflexivity | ]);
    intros rest; vm_compute; reflexivity.
Qed.

(** C8, at a 4 KiB index page that was never compressed. *)
Lemma decompress_passes_foreign_page_through_witness :
  fil_decompress_page (K := mariadb_consts) (B := debug_build)
    (V := zlib_vars true) (C := rle_codecs) (X := plain_collab)
    None (blank_page 17855) 4096 None false empty_world
  = Done {| dr_buf := blank_page 17855; dr_page_buf := None;
            dr_write_size := None |} empty_world.
Proof.
  apply (decompress_passes_foreign_page_through (K := mariadb_consts)
           (B := debug_build) (V := zlib_vars true) (C := rle_codecs)
           (X := plain_collab) None (blank_page 17855) 4096 None false
           empty_world 17855).
  - discriminate.
  - reflexivity.
  - discriminate.
  - discriminate.
Defined.

(** C6, at an extent-descriptor page. *)
Lemma compress_rejects_without_codec_witness :
  exists r w',
    fil_compress_page (K := mariadb_consts) (B := debug_build)
      (V := zlib_vars true) (C := rle_codecs) (X := plain_collab)
      (Some test_space) (blank_page 9) None 4096 6 512 false empty_world
    = Done r w' /\
    r_ptr r = RetBuf /\ returned_page r = blank_page 9 /\ r_out_len r = 4096 /\
    calls w' = calls empty_world.
Proof.
  apply (compress_rejects_without_codec (K := mariadb_consts)
           (B := debug_build) (V := zlib_vars true) (C := rle_codecs)
           (X := plain_collab) (Some test_space) (blank_page 9) None 4096 6
           512 false empty_world 9).
  - apply mariadb_layout_ok.
  - discriminate.
  - apply no_compressed_row_format.
  - reflexivity.
  - left. right. right. left. reflexivity.
Defined.

(** C10, at a file-space header page of a tablespace that has not warned
    yet. *)
Lemma rejected_page_counts_as_compression_error_witness :
  fil_compress_page (K := mariadb_consts) (B := release_build)
    (V := zlib_vars true) (C := rle_codecs) (X := plain_collab)
    (Some test_space) (blank_page 8) None 4096 6 512 false empty_world
  = compress_err_exit (X := plain_collab)
      (Some test_space) (blank_page 8) None 4096 0 0 1 empty_world.
Proof.
  refine (proj1 (rejected_page_counts_as_compression_error
                   (K := mariadb_consts) (B := release_build)
                   (V := zlib_vars true) (C := rle_codecs)
                   (X := plain_collab) (Some test_space) (blank_page 8) None
                   4096 6 512 false empty_world 8 _ _ _ _)).
  - discriminate.
  - apply no_compressed_row_format.
  - reflexivity.
  - right. left. reflexivity.
Defined.

(** C5, at a page the run-length codec cannot shrink. *)
Lemma compression_failure_returns_original_witness :
  exists r w',
    fil_compress_page (K := mariadb_consts) (B := debug_build)
      (V := zlib_vars true) (C := rle_codecs) (X := plain_collab)
      (Some test_space) (noisy_page 17855) None 4096 6 512 false empty_world
    = Done r w' /\
    r_ptr r = RetBuf /\ returned_page r = noisy_page 17855 /\ r_out_len r = 4096.
Proof.
  apply (compression_failure_returns_original (K := mariadb_consts)
           (B := debug_build) (V := zlib_vars true) (C := rle_codecs)
           (X := plain_collab) (Some test_space) (noisy_page 17855) None 4096
           6 512 false empty_world 17855 (noisy_page 17855) false 4056 []).
  - apply mariadb_layout_ok.
  - lia.
  - apply no_compressed_row_format.
  - reflexivity.
  - vm_compute. reflexivity.
  - vm_compute. reflexivity.
  - intros _ E. discriminate E.
  - apply Z.leb_le. vm_compute. reflexivity.
  - intros E. discriminate E.
  - left. reflexivity.
Defined.

(** C4, at the encrypted variant with the longest payload a 4 KiB page
    can carry. *)
Lemma header_round_trip_witness :
  exists o ptype,
    set_up_page_header (K := mariadb_consts)
      (repeat Byte.xaa 4096) (blank_page 17855) 1 true 4054 = Some o /\
    mach_read_from_2 o 24 = Some ptype /\
    mach_read_from_4 o 0 = Some 3735928559 /\
    compressed_header_len (K := mariadb_consts) ptype = Some 42 /\
    read_actual_size (K := mariadb_consts) o = Some 4054 /\
    read_compression_alg (K := mariadb_consts) ptype o = Some 1.
Proof.
  apply (header_round_trip (K := mariadb_consts) (V := zlib_vars true)
           (repeat Byte.xaa 4096) (blank_page 17855) 1 true 4054).
  - apply mariadb_layout_ok.
  - apply Z.leb_le. vm_compute. reflexivity.
  - apply Z.leb_le. vm_compute. reflexivity.
  - cbn. lia.
  - cbn. lia.
Defined.

(** C3 does not hold as stated: the header of the encrypted variant of a
    blank index page, whose own 8-byte field is 0, carries the algorithm
    id 1 in that field. *)
Lemma encrypted_header_carries_eight_byte_id :
  ~ algorithm_field_in_plain_variant_only (K := mariadb_consts).
Proof.
  intros H.
  specialize (H (repeat Byte.xaa 4096) (blank_page 17855) 1 38).
  destruct (set_up_page_header (K := mariadb_consts) (repeat Byte.xaa 4096)
              (blank_page 17855) 1 true 38) as [o | ] eqn:E;
    [ | vm_compute in E; discriminate E ].
  specialize (H o eq_refl).
  vm_compute in E. injection E as <-.
  vm_compute in H. discriminate H.
Qed.

(** C3, amended, at the encrypted variant, and at a page whose 8-byte
    field is overwritten with the id 5. *)
Lemma algorithm_id_fields_witness :
  mach_read_from_8
    (match set_up_page_header (K := mariadb_consts) (repeat Byte.xaa 4096)
             (blank_page 17855) 1 true 38 with
     | Some o => o
     | None => []
     end) 26 = Some 1 /\
  read_compression_alg (K := mariadb_consts) 37401
    (match mach_write_to_8 (forged_page 2 Byte.xff) 26 5 with
     | Some p => p
     | None => []
     end)
  = read_compression_alg (K := mariadb_consts) 37401 (forged_page 2 Byte.xff).
Proof.
  refine (let H := algorithm_id_fields (K := mariadb_consts)
                     (V := zlib_vars true) (repeat Byte.xaa 4096)
                     (blank_page 17855) 1 true 38 _
                     (forged_page 2 Byte.xff) 5 _ _ _ _ _ in
          conj (proj1 H) (proj1 (proj2 (proj2 (proj2 (proj2 H)))))).
  - apply mariadb_layout_ok.
  - lia.
  - vm_compute. reflexivity.
  - vm_compute. reflexivity.
Defined.

(** The compression of the blank index page succeeds with a payload of 38
    bytes. *)
Lemma blank_page_compression_succeeds trim :
  compression_succeeds (K := mariadb_consts) (B := release_build)
    (V := zlib_vars trim) (C := rle_codecs) (X := plain_collab)
    (Some test_space) (blank_page 17855) None 4096 6 512 false
    empty_world 38
    (done_value (compress_page false trim (blank_page 17855)) no_result).
Proof.
  unfold compression_succeeds.
  split; [ apply mariadb_layout_ok | ].
  split; [ reflexivity | ].
  split; [ apply no_compressed_row_format | ].
  split; [ exists 17855; split; reflexivity | ].
  split; [ do 2 eexists; split; vm_compute; reflexivity | ].
  split; [ cbn; lia | ].
  split; [ apply Z.leb_le; vm_compute; reflexivity | ].
  split; [ intros E; discriminate E | ].
  exists (done_world (compress_page false trim (blank_page 17855))).
  destruct trim; vm_compute; reflexivity.
Qed.

(** C7 does not hold as stated: without [srv_use_trim] the blank index
    page, whose header and payload round up to 512, is reported with the
    page size as its length. *)
Lemma untrimmed_length_is_page_size :
  ~ output_length_is_aligned_length (K := mariadb_consts) (B := release_build)
      (V := zlib_vars false) (C := rle_codecs) (X := plain_collab).
Proof.
  intros H.
  destruct (H (Some test_space) (blank_page 17855) None 4096 6 512 false
              empty_world 38
              (done_value (compress_page false false (blank_page 17855))
                 no_result)
              (blank_page_compression_succeeds false)) as [E _].
  vm_compute in E. discriminate E.
Qed.

(** Nor is the rounded length bounded by the page size when the block
    size does not divide it: with blocks of 8 KiB and an output buffer of
    that size, the blank 4 KiB page is reported with length 8192. *)
Lemma oversized_block_exceeds_page_size :
  ~ output_length_is_aligned_length (K := mariadb_consts) (B := release_build)
      (V := zlib_vars true) (C := rle_codecs) (X := plain_collab).
Proof.
  intros H.
  destruct (H (Some test_space) (blank_page 17855)
              (Some (repeat Byte.xaa (Z.to_nat 8192))) 4096 6 8192 false
              empty_world 38
              (done_value
                 (fil_compress_page (K := mariadb_consts) (B := release_build)
                    (V := zlib_vars true) (C := rle_codecs) (X := plain_collab)
                    (Some test_space) (blank_page 17855)
                    (Some (repeat Byte.xaa (Z.to_nat 8192))) 4096 6 8192 false
                    empty_world)
                 no_result)) as (_ & E & _).
  - unfold compression_succeeds.
    split; [ apply mariadb_layout_ok | ].
    split; [ reflexivity | ].
    split; [ apply no_compressed_row_format | ].
    split; [ exists 17855; split; reflexivity | ].
    split; [ do 2 eexists; split; vm_compute; reflexivity | ].
    split; [ cbn; lia | ].
    split; [ apply Z.leb_le; vm_compute; reflexivity | ].
    split; [ intros E; discriminate E | ].
    eexists. vm_compute. reflexivity.
  - vm_compute in E. apply E. reflexivity.
Qed.

(** C7, amended, at the blank index page with [srv_use_trim] set. *)
Lemma compressed_length_is_block_aligned_witness :
  r_out_len (done_value (compress_page false true (blank_page 17855)) no_result)
  = 512.
Proof.
  refine (proj1 (compressed_length_is_block_aligned (K := mariadb_consts)
                   (B := release_build) (V := zlib_vars true)
                   (C := rle_codecs) (X := plain_collab)
                   (Some test_space) (blank_page 17855) None 4096 6 512 false
                   empty_world 38
                   (done_value (compress_page false true (blank_page 17855))
                      no_result) _ _)).
  - apply blank_page_compression_succeeds.
  - reflexivity.
Defined.

(** C1, at the blank index page, compressed by a debug build. *)
Lemma compress_then_decompress_restores_page_witness :
  exists r w1 r2 w2,
    fil_compress_page (K := mariadb_consts) (B := debug_build)
      (V := zlib_vars true) (C := rle_codecs) (X := plain_collab)
      (Some test_space) (blank_page 17855) None 4096 6 512 false empty_world
    = Done r w1 /\
    fil_decompress_page (K := mariadb_consts) (B := debug_build)
      (V := zlib_vars true) (C := rle_codecs) (X := plain_collab)
      None (returned_page r) 4096 None false w1
    = Done r2 w2 /\
    firstn (Z.to_nat 4096) (dr_buf r2) = blank_page 17855 /\
    (blen (returned_page r) = 4096 -> dr_buf r2 = blank_page 17855).
Proof.
  apply (compress_then_decompress_restores_page (K := mariadb_consts)
           (B := debug_build) (V := zlib_vars true) (C := rle_codecs)
           (X := plain_collab) (Some test_space) (blank_page 17855) None 4096
           6 512 false empty_world None None false 17855).
  - apply mariadb_layout_ok.
  - reflexivity.
  - reflexivity.
  - apply no_compressed_row_format.
  - reflexivity.
  - reflexivity.
  - intros E. discriminate E.
  - right. left. reflexivity.
  - left. reflexivity.
  - reflexivity.
  - apply (rle_inverts_blank_page true true false).
  - apply Z.leb_le. vm_compute. reflexivity.
  - intros ok n out Hc. vm_compute in Hc. injection Hc as _ _ <-.
    apply Z.leb_le. vm_compute. reflexivity.
  - intros E. discriminate E.
  - intros _. vm_compute. reflexivity.
  - discriminate.
Defined.

(** C9, at two failing calls in a row on a tablespace that has not warned
    yet: one warning. *)
Lemma warning_logged_at_most_once_witness :
  (compression_warnings
     (done_world
        (compress_calls (K := mariadb_consts) (B := release_build)
           (C := rle_codecs) (X := plain_collab)
           (Some test_space) [noisy_call; noisy_call] empty_world))
   <= 0 + 1)%nat.
Proof.
  apply (warning_logged_at_most_once (K := mariadb_consts)
           (B := release_build) (C := rle_codecs) (X := plain_collab)
           test_space [noisy_call; noisy_call] empty_world).
  vm_compute. reflexivity.
Defined.

(** C2 fails on the code: a page with the compressed marker, the
    no-checksum magic, payload length 2 and the unregistered algorithm id
    255, decoded in report mode by a [UNIV_DEBUG] build, aborts the
    process at [err_exit]. *)
Theorem unknown_algorithm_aborts_in_report_mode :
  fil_decompress_page (K := mariadb_consts) (B := debug_build)
    (V := zlib_vars true) (C := rle_codecs) (X := plain_collab)
    None (forged_page 255 Byte.xff) 4096 None true empty_world
  = Fatal {| srv_stats := srv_stats empty_world;
             diag := [ErrUncompressFailed 7 "test/t1" 0 2 4096 "NULL";
                      PagePrinted];
             calls := [] |}.
Proof. vm_compute. reflexivity. Qed.

(** The same page in a build without [UNIV_DEBUG]: [err_exit] returns,
    the page as it was, in fatal mode as in report mode. *)
Lemma unknown_algorithm_returns_in_release_build return_error :
  fil_decompress_page (K := mariadb_consts) (B := release_build)
    (V := zlib_vars true) (C := rle_codecs) (X := plain_collab)
    None (forged_page 255 Byte.xff) 4096 None return_error empty_world
  = Done {| dr_buf := forged_page 255 Byte.xff; dr_page_buf := None;
            dr_write_size := None |}
      {| srv_stats := srv_stats empty_world;
         diag := [ErrUncompressFailed 7 "test/t1" 0 2 4096 "NULL";
                  PagePrinted];
         calls := [] |}.
Proof. destruct return_error; vm_compute; reflexivity. Qed.

(** The zlib arm does not test the output length: a payload that
    decompresses to nothing is accepted, the page is counted as
    decompressed, nothing is logged and the buffer still holds the
    compressed image. *)
Lemma zlib_accepts_empty_output :
  fil_decompress_page (K := mariadb_consts) (B := release_build)
    (V := zlib_vars true) (C := rle_codecs) (X := plain_collab)
    None (forged_page 1 Byte.x00) 4096 None true empty_world
  = Done {| dr_buf := forged_page 1 Byte.x00; dr_page_buf := None;
            dr_write_size := None |}
      {| srv_stats := inc_pages_page_decompressed (srv_stats empty_world);
         diag := [];
         calls := [DecompressCall 1] |}.
Proof. vm_compute. reflexivity. Qed.

(** ** The further properties, on the concrete configuration *)

(** X1, at the blank index page: one page compressed. *)
Lemma successful_compression_is_counted_witness :
  pages_page_compressed
    (srv_stats (done_world (compress_page false true (blank_page 17855))))
  = 1.
Proof.
  refine (proj1 (successful_compression_is_counted (K := mariadb_consts)
                   (B := release_build) (V := zlib_vars true)
                   (C := rle_codecs) (X := plain_collab)
                   (Some test_space) (blank_page 17855) None 4096 6 512 false
                   empty_world 17855 (blank_page 17855) 38
                   (rle_encode (blank_page 17855))
                   (done_value (compress_page false true (blank_page 17855))
                      no_result)
                   (done_world (compress_page false true (blank_page 17855)))
                   _ _ _ _ _ _ _ _ _ _ _ _)).
  - apply mariadb_layout_ok.
  - reflexivity.
  - apply no_compressed_row_format.
  - reflexivity.
  - reflexivity.
  - vm_compute. reflexivity.
  - vm_compute. reflexivity.
  - cbn. lia.
  - reflexivity.
  - apply Z.leb_le. vm_compute. reflexivity.
  - intros E. discriminate E.
  - vm_compute. reflexivity.
Defined.

(** X2, at a page the run-length codec cannot shrink. *)
Lemma failed_compression_is_counted_witness :
  exists r w',
    fil_compress_page (K := mariadb_consts) (B := debug_build)
      (V := zlib_vars true) (C := rle_codecs) (X := plain_collab)
      (Some test_space) (noisy_page 17855) None 4096 6 512 false empty_world
    = Done r w' /\
    srv_stats w' = inc_pages_page_compression_error (srv_stats empty_world) /\
    calls w' = calls empty_world ++ [CompressCall 1] /\
    compression_warnings w'
    = (compression_warnings empty_world + allowance (Some test_space))%nat.
Proof.
  apply (failed_compression_is_counted (K := mariadb_consts)
           (B := debug_build) (V := zlib_vars true) (C := rle_codecs)
           (X := plain_collab) (Some test_space) (noisy_page 17855) None 4096
           6 512 false empty_world 17855 (noisy_page 17855) false 4056 []).
  - apply mariadb_layout_ok.
  - lia.
  - apply no_compressed_row_format.
  - reflexivity.
  - reflexivity.
  - vm_compute. reflexivity.
  - vm_compute. reflexivity.
  - intros _ E. discriminate E.
  - apply Z.leb_le. vm_compute. reflexivity.
  - intros E. discriminate E.
  - left. reflexivity.
Defined.

(** X3, at the blank index page, compressed without an output buffer. *)
Lemma compress_buffer_discipline_witness :
  r_ptr (done_value (compress_page false true (blank_page 17855)) no_result)
  = RetBuf /\
  r_out_buf (done_value (compress_page false true (blank_page 17855)) no_result)
  = None /\
  blen (r_buf (done_value (compress_page false true (blank_page 17855))
                 no_result))
  = blen (blank_page 17855).
Proof.
  apply (compress_buffer_discipline (K := mariadb_consts)
           (B := release_build) (V := zlib_vars true) (C := rle_codecs)
           (X := plain_collab) (Some test_space) (blank_page 17855) None 4096
           6 512 false empty_world
           (done_value (compress_page false true (blank_page 17855)) no_result)
           (done_world (compress_page false true (blank_page 17855)))).
  vm_compute. reflexivity.
Defined.

(** X4, at the space id of the blank index page. *)
Lemma compressed_page_keeps_header_fields_witness :
  mem_read
    (returned_page
       (done_value (compress_page false true (blank_page 17855)) no_result))
    34 4
  = mem_read (blank_page 17855) 34 4.
Proof.
  apply (compressed_page_keeps_header_fields (K := mariadb_consts)
           (B := release_build) (V := zlib_vars true) (C := rle_codecs)
           (X := plain_collab) (Some test_space) (blank_page 17855) None 4096
           6 512 false empty_world 17855 (blank_page 17855) 38
           (rle_encode (blank_page 17855))
           (done_value (compress_page false true (blank_page 17855)) no_result)
           (done_world (compress_page false true (blank_page 17855))) 34 4).
  - apply mariadb_layout_ok.
  - reflexivity.
  - apply no_compressed_row_format.
  - reflexivity.
  - reflexivity.
  - vm_compute. reflexivity.
  - vm_compute. reflexivity.
  - cbn. lia.
  - reflexivity.
  - apply Z.leb_le. vm_compute. reflexivity.
  - intros E. discriminate E.
  - vm_compute. reflexivity.
  - lia.
  - lia.
  - cbn. lia.
  - right. cbn. lia.
  - right. cbn. lia.
  - right. cbn. lia.
Defined.

(** X5, at the blank index page with [srv_use_trim] off: zeros from
    byte 512 to the end of the page. *)
Lemma untrimmed_page_ends_in_zeros_witness :
  mem_read
    (returned_page
       (done_value (compress_page false false (blank_page 17855)) no_result))
    512 (4096 - 512)
  = Some (repeat zero_byte (Z.to_nat (4096 - 512))).
Proof.
  refine (proj2 (untrimmed_page_ends_in_zeros (K := mariadb_consts)
                   (B := release_build) (V := zlib_vars false)
                   (C := rle_codecs) (X := plain_collab)
                   (Some test_space) (blank_page 17855) None 4096 6 512 false
                   empty_world 17855 (blank_page 17855) 38
                   (rle_encode (blank_page 17855))
                   (done_value (compress_page false false (blank_page 17855))
                      no_result)
                   (done_world (compress_page false false (blank_page 17855)))
                   _ _ _ _ _ _ _ _ _ _ _ _ _)).
  - apply mariadb_layout_ok.
  - reflexivity.
  - apply no_compressed_row_format.
  - reflexivity.
  - reflexivity.
  - vm_compute. reflexivity.
  - vm_compute. reflexivity.
  - cbn. lia.
  - reflexivity.
  - apply Z.leb_le. vm_compute. reflexivity.
  - intros E. discriminate E.
  - reflexivity.
  - vm_compute. reflexivity.
Defined.

(** X6, at the blank index page: compressed once, handed in again. *)
Lemma compressed_page_is_not_compressed_again_witness :
  exists r2 w2',
    fil_compress_page (K := mariadb_consts) (B := release_build)
      (V := zlib_vars true) (C := rle_codecs) (X := plain_collab)
      (r_space (done_value (compress_page false true (blank_page 17855))
                  no_result))
      (returned_page
         (done_value (compress_page false true (blank_page 17855)) no_result))
      None 4096 6 512 false empty_world
    = Done r2 w2' /\
    r_ptr r2 = RetBuf /\
    returned_page r2
    = returned_page
        (done_value (compress_page false true (blank_page 17855)) no_result) /\
    r_out_len r2 = 4096 /\ calls w2' = calls empty_world /\
    pages_page_compression_error (srv_stats w2')
    = ulint (pages_page_compression_error (srv_stats empty_world) + 1).
Proof.
  apply (compressed_page_is_not_compressed_again (K := mariadb_consts)
           (B := release_build) (V := zlib_vars true) (C := rle_codecs)
           (X := plain_collab) (Some test_space) (blank_page 17855) None 4096
           6 512 empty_world 17855 (blank_page 17855) 38
           (rle_encode (blank_page 17855))
           (done_value (compress_page false true (blank_page 17855)) no_result)
           (done_world (compress_page false true (blank_page 17855)))
           None 6 512 false empty_world).
  - apply mariadb_layout_ok.
  - reflexivity.
  - apply no_compressed_row_format.
  - reflexivity.
  - reflexivity.
  - vm_compute. reflexivity.
  - vm_compute. reflexivity.
  - cbn. lia.
  - reflexivity.
  - apply Z.leb_le. vm_compute. reflexivity.
  - intros E. discriminate E.
  - vm_compute. reflexivity.
Defined.

(** X7, at a page with the compressed marker and zeros for a checksum,
    in report mode. *)
Lemma bad_magic_is_reported_or_fatal_witness :
  fil_decompress_page (K := mariadb_consts) (B := release_build)
    (V := zlib_vars true) (C := rle_codecs) (X := plain_collab)
    None (blank_page 34354) 4096 None true empty_world
  = Done {| dr_buf := blank_page 34354; dr_page_buf := None;
            dr_write_size := None |}
      (record_event (ErrCorruptCRC 0 34354 4096) empty_world).
Proof.
  apply (bad_magic_is_reported_or_fatal (K := mariadb_consts)
           (B := release_build) (V := zlib_vars true) (C := rle_codecs)
           (X := plain_collab) None (blank_page 34354) 4096 None true
           empty_world 34354 40 0).
  - discriminate.
  - reflexivity.
  - reflexivity.
  - reflexivity.
  - discriminate.
Defined.

(** X8, at a page with the marker, the magic and payload length 0,
    without report mode. *)
Lemma bad_payload_length_is_reported_or_fatal_witness :
  fil_decompress_page (K := mariadb_consts) (B := release_build)
    (V := zlib_vars true) (C := rle_codecs) (X := plain_collab)
    None empty_payload_page 4096 None false empty_world
  = Fatal (record_event (ErrCorruptSize 0 "uncompressed") empty_world).
Proof.
  apply (bad_payload_length_is_reported_or_fatal (K := mariadb_consts)
           (B := release_build) (V := zlib_vars true) (C := rle_codecs)
           (X := plain_collab) None empty_payload_page 4096 None false
           empty_world 34354 40 0 0).
  - discriminate.
  - reflexivity.
  - reflexivity.
  - reflexivity.
  - reflexivity.
  - reflexivity.
  - left. reflexivity.
Defined.

(** X9, at a page of tablespace 7 whose payload the LZ4 slot does not
    accept, in a build without [UNIV_DEBUG]: the call returns, with
    report mode and without. *)
Lemma failed_decompression_ignores_report_mode_witness :
  exists err len' (scratch : bytes) w1,
    diag w1
    = diag empty_world
      ++ [ErrUncompressFailed 7 "test/t1" err 2 len' "LZ4"; PagePrinted] /\
    srv_stats w1 = srv_stats empty_world /\
    (calls w1 = calls empty_world
     \/ calls w1 = calls empty_world ++ [DecompressCall 2]) /\
    forall return_error,
      fil_decompress_page (K := mariadb_consts) (B := release_build)
        (V := zlib_vars true) (C := rle_codecs) (X := plain_collab)
        None (forged_page 2 Byte.xff) 4096 (Some 0) return_error empty_world
      = Done {| dr_buf := forged_page 2 Byte.xff;
                dr_page_buf := None; dr_write_size := Some 2 |} w1.
Proof.
  apply (failed_decompression_ignores_report_mode (K := mariadb_consts)
           (B := release_build) (V := zlib_vars true) (C := rle_codecs)
           (X := plain_collab) None (forged_page 2 Byte.xff) 4096 (Some 0)
           empty_world 34354 40 2 2
           (skipn 40 (forged_page 2 Byte.xff)) 7).
  - discriminate.
  - reflexivity.
  - reflexivity.
  - reflexivity.
  - reflexivity.
  - reflexivity.
  - cbn. lia.
  - reflexivity.
  - apply Z.leb_le. vm_compute. reflexivity.
  - intros len' out H. vm_compute in H. discriminate H.
  - intros ok len' out H. vm_compute in H. injection H as _ _ <-.
    split; [ cbn; lia | ]. intros pb E. discriminate E.
  - reflexivity.
Defined.

(** X10, at a page whose payload decodes to 255 zeros in the zlib
    slot. *)
Lemma successful_decompression_is_counted_witness :
  exists r2 w2,
    fil_decompress_page (K := mariadb_consts) (B := release_build)
      (V := zlib_vars true) (C := rle_codecs) (X := plain_collab)
      None (forged_page 1 Byte.xff) 4096 (Some 0) false empty_world
    = Done r2 w2 /\
    srv_stats w2 = inc_pages_page_decompressed (srv_stats empty_world) /\
    calls w2 = calls empty_world ++ [DecompressCall 1] /\
    diag w2 = diag empty_world /\
    dr_write_size r2 = Some 2 /\
    blen (dr_buf r2) = blen (forged_page 1 Byte.xff) /\
    forall o k,
      255 <= o -> mem_read (dr_buf r2) o k = mem_read (forged_page 1 Byte.xff) o k.
Proof.
  apply (successful_decompression_is_counted (K := mariadb_consts)
           (B := release_build) (V := zlib_vars true) (C := rle_codecs)
           (X := plain_collab) None (forged_page 1 Byte.xff) 4096 (Some 0)
           false empty_world 34354 40 1 2
           (skipn 40 (forged_page 1 Byte.xff)) 255
           (repeat zero_byte 255)).
  - discriminate.
  - reflexivity.
  - reflexivity.
  - reflexivity.
  - reflexivity.
  - reflexivity.
  - cbn. lia.
  - reflexivity.
  - apply Z.leb_le. vm_compute. reflexivity.
  - vm_compute. reflexivity.
  - cbn. lia.
  - apply Z.leb_le. vm_compute. reflexivity.
  - apply Z.leb_le. vm_compute. reflexivity.
  - intros pb E. discriminate E.
Defined.

(** X11, at a page whose payload decodes to 255 zeros in the LZMA slot,
    which copies a whole page: the scratch buffer is the function's own,
    the other 3841 bytes are zero. *)
Lemma short_output_is_padded_from_scratch_witness :
  exists r2 w2,
    fil_decompress_page (K := mariadb_consts) (B := release_build)
      (V := zlib_vars true) (C := rle_codecs) (X := plain_collab)
      None (forged_page 4 Byte.xff) 4096 None false empty_world
    = Done r2 w2 /\
    mem_read (dr_buf r2) 0 (blen (repeat zero_byte 255))
    = Some (repeat zero_byte 255) /\
    mem_read (dr_buf r2) (blen (repeat zero_byte 255))
      (4096 - blen (repeat zero_byte 255))
    = Some (repeat zero_byte
              (Z.to_nat (4096 - blen (repeat zero_byte 255)))).
Proof.
  apply (short_output_is_padded_from_scratch (K := mariadb_consts)
           (B := release_build) (V := zlib_vars true) (C := rle_codecs)
           (X := plain_collab) None (forged_page 4 Byte.xff) 4096 None
           false empty_world 34354 40 4 2
           (skipn 40 (forged_page 4 Byte.xff)) 4096
           (repeat zero_byte 255)).
  - discriminate.
  - reflexivity.
  - reflexivity.
  - reflexivity.
  - reflexivity.
  - reflexivity.
  - cbn. lia.
  - reflexivity.
  - apply Z.leb_le. vm_compute. reflexivity.
  - vm_compute. reflexivity.
  - split; apply Z.leb_le; vm_compute; reflexivity.
  - apply Z.leb_le. vm_compute. reflexivity.
  - intros pb E. discriminate E.
Defined.

(** X12, at the blank index page: the payload has 38 bytes. *)
Lemma round_trip_reports_payload_length_witness :
  exists r2 w2,
    fil_decompress_page (K := mariadb_consts) (B := release_build)
      (V := zlib_vars true) (C := rle_codecs) (X := plain_collab)
      None
      (returned_page
         (done_value (compress_page false true (blank_page 17855)) no_result))
      4096 (Some 0) false
      (done_world (compress_page false true (blank_page 17855)))
    = Done r2 w2 /\
    dr_write_size r2 = Some 38 /\
    srv_stats w2
    = inc_pages_page_decompressed
        (srv_stats (done_world (compress_page false true (blank_page 17855)))) /\
    calls w2
    = calls (done_world (compress_page false true (blank_page 17855)))
      ++ [DecompressCall 1].
Proof.
  apply (round_trip_reports_payload_length (K := mariadb_consts)
           (B := release_build) (V := zlib_vars true) (C := rle_codecs)
           (X := plain_collab) (Some test_space) (blank_page 17855) None 4096
           6 512 false empty_world 17855 38 (rle_encode (blank_page 17855))
           (done_value (compress_page false true (blank_page 17855)) no_result)
           (done_world (compress_page false true (blank_page 17855)))
           None (Some 0) false).
  - apply mariadb_layout_ok.
  - reflexivity.
  - reflexivity.
  - apply no_compressed_row_format.
  - reflexivity.
  - reflexivity.
  - vm_compute. reflexivity.
  - cbn. lia.
  - apply (rle_inverts_blank_page false true false).
  - reflexivity.
  - apply Z.leb_le. vm_compute. reflexivity.
  - intros E. discriminate E.
  - discriminate.
  - vm_compute. reflexivity.
Defined.

(** X13, at the blank index page in a debug build. *)
Lemma debug_build_counts_its_self_check_witness :
  calls (done_world (compress_page true true (blank_page 17855)))
  = calls empty_world ++ [CompressCall 1; DecompressCall 1] /\
  pages_page_decompressed
    (srv_stats (done_world (compress_page true true (blank_page 17855))))
  = ulint (pages_page_decompressed (srv_stats empty_world) + 1).
Proof.
  apply (debug_build_counts_its_self_check (K := mariadb_consts)
           (B := debug_build) (V := zlib_vars true) (C := rle_codecs)
           (X := plain_collab) (Some test_space) (blank_page 17855) None 4096
           6 512 false empty_world 17855 (blank_page 17855) 38
           (rle_encode (blank_page 17855))
           (done_value (compress_page true true (blank_page 17855)) no_result)
           (done_world (compress_page true true (blank_page 17855)))).
  - apply mariadb_layout_ok.
  - reflexivity.
  - apply no_compressed_row_format.
  - reflexivity.
  - reflexivity.
  - vm_compute. reflexivity.
  - vm_compute. reflexivity.
  - cbn. lia.
  - apply Z.leb_le. vm_compute. reflexivity.
  - intros E. discriminate E.
  - vm_compute. reflexivity.
Defined.

(** X21, at the blank index page, with LZ4 configured on a build that
    has zlib only. *)
Lemma unsupported_algorithm_aborts_compression_witness :
  fil_compress_page (K := mariadb_consts) (B := zlib_only_build)
    (V := lz4_vars) (C := rle_codecs) (X := plain_collab)
    (Some test_space) (blank_page 17855) None 4096 6 512 false empty_world
  = Fatal empty_world.
Proof.
  apply (unsupported_algorithm_aborts_compression (K := mariadb_consts)
           (B := zlib_only_build) (V := lz4_vars) (C := rle_codecs)
           (X := plain_collab) (Some test_space) (blank_page 17855) None 4096
           6 512 false empty_world 17855 (blank_page 17855)).
  - lia.
  - apply no_compressed_row_format.
  - reflexivity.
  - reflexivity.
  - vm_compute. reflexivity.
  - reflexivity.
  - discriminate.
Defined.

(** ** Reading the next row, on the small engine *)

Lemma toy_steady_locking : steady_locking (E := toy_aria).
Proof.
  intros c m. destruct c; cbn; unfold toy_stand_on, toy_not_found;
    repeat match goal with
           | |- context [if ?b then _ else _] => destruct b
           end; reflexivity.
Qed.

Lemma toy_probe_stays c (m : toy_mem) :
  is_probe c = true ->
  (toy_rows_left (snd (toy_collaborator c m)) <= toy_rows_left m)%nat.
Proof. intros H. destruct c; try discriminate H; cbn; lia. Qed.

Lemma toy_next_moves_on f p (m : toy_mem) :
  fst (toy_collaborator (Call_ma_search_next f p) m) = 0 ->
  (toy_rows_left (snd (toy_collaborator (Call_ma_search_next f p) m))
   < toy_rows_left m)%nat.
Proof.
  cbn. unfold toy_stand_on, toy_not_found, toy_rows_left.
  destruct (Z.ltb_spec (cur_row_lastpos (info m)) 0); [ discriminate | ].
  destruct (Z.leb_spec 0 (cur_row_lastpos (info m) + 1));
    destruct (Z.ltb_spec (cur_row_lastpos (info m) + 1)
                (Z.of_nat (List.length (engine m))));
    cbn; try discriminate.
  intros _.
  destruct (Z.leb_spec 0 (cur_row_lastpos (info m) + 1)); [ | lia ].
  destruct (Z.ltb_spec (cur_row_lastpos (info m) + 1)
              (Z.of_nat (List.length (engine m)))); [ | lia ].
  destruct (Z.leb_spec 0 (cur_row_lastpos (info m))); [ | lia ].
  destruct (Z.ltb_spec (cur_row_lastpos (info m))
              (Z.of_nat (List.length (engine m)))); [ | lia ].
  cbn. lia.
Qed.

Lemma toy_rows_stay c (m : toy_mem) :
  toy_rows (snd (toy_collaborator c m)) = toy_rows m.
Proof.
  destruct c; cbn; unfold toy_stand_on, toy_not_found;
    repeat match goal with
           | |- context [if ?b then _ else _] => destruct b
           end; reflexivity.
Qed.

Lemma toy_rows_left_le (m : toy_mem) : (toy_rows_left m <= toy_rows m)%nat.
Proof.
  unfold toy_rows_left, toy_rows.
  destruct (_ && _)%bool; lia.
Qed.

(** X14, at index 3 of a table with one index. *)
Lemma rnext_stops_before_the_search_witness :
  exists w',
    maria_rnext (E := toy_aria) 8 4096 3 (toy_world [0; 1; 0] 0 16)
    = Returns (my_errno (memory w')) w' /\
    memory w' = set_my_errno 124 (toy_memory [0; 1; 0] 0 16) /\
    trace w' = [Called (Call_ma_check_index 3) (-1)].
Proof.
  apply (rnext_stops_before_the_search (E := toy_aria) 8 4096 3
           (toy_world [0; 1; 0] 0 16)).
  left. reflexivity.
Defined.

(** X15, at a handler that stands before an invisible and a visible
    row. *)
Lemma rnext_releases_the_lock_witness :
  exists d,
    trace (returned_world (toy_rnext [0; 1; 0] (2 ^ 64 - 1) 32)
             (toy_world [] 0 0))
    = trace (toy_world [0; 1; 0] (2 ^ 64 - 1) 32) ++ d /\
    lock_events d = [RdLock 0; Unlock 0].
Proof.
  apply (rnext_releases_the_lock (E := toy_aria) 8 4096 0
           (toy_world [0; 1; 0] (2 ^ 64 - 1) 32)
           (returned_value (toy_rnext [0; 1; 0] (2 ^ 64 - 1) 32) 0)
           (returned_world (toy_rnext [0; 1; 0] (2 ^ 64 - 1) 32)
              (toy_world [] 0 0))).
  - apply toy_steady_locking.
  - vm_compute. reflexivity.
Defined.

(** X16, at the same call: row 1 is read. *)
Lemma record_is_read_after_a_match_witness :
  4096 = 4096 /\ 4096 <> 0 /\
  (exists d0 v i u,
     v <> 0 /\ (u = [] \/ u = [Unlock i]) /\
     trace (returned_world (toy_rnext [0; 1; 0] (2 ^ 64 - 1) 32)
              (toy_world [] 0 0))
     = d0
       ++ [Called Call_row_is_visible v;
           Called (Call_ma_check_index_cond i 4096) 1]
       ++ u ++ [Called (Call_read_record 4096 1) 0] /\
     filter is_read_record d0 = []) /\
  (0 = 0 ->
   returned_value (toy_rnext [0; 1; 0] (2 ^ 64 - 1) 32) 1 = 0 /\
   Z.land
     (update (info (memory (returned_world
                              (toy_rnext [0; 1; 0] (2 ^ 64 - 1) 32)
                              (toy_world [] 0 0)))))
     2 = 2).
Proof.
  apply (record_is_read_after_a_match (E := toy_aria) 8 4096 0
           (toy_world [0; 1; 0] (2 ^ 64 - 1) 32)
           (returned_value (toy_rnext [0; 1; 0] (2 ^ 64 - 1) 32) 1)
           (returned_world (toy_rnext [0; 1; 0] (2 ^ 64 - 1) 32)
              (toy_world [] 0 0))
           (trace (returned_world (toy_rnext [0; 1; 0] (2 ^ 64 - 1) 32)
                     (toy_world [] 0 0)))
           4096 1 0).
  - vm_compute. reflexivity.
  - reflexivity.
  - vm_compute. do 10 right. left. reflexivity.
Defined.


(** X18, at the same call, from the status bits [PREV_FOUND],
    [NEXT_FOUND] and [CHANGED]: [PREV_FOUND] is cleared. *)
Lemma rnext_status_bits_witness :
  Z.land
    (update (info (memory (returned_world (toy_rnext [0; 1; 0] 1 49)
                             (toy_world [] 0 0)))))
    16 = 16 /\
  Z.ldiff
    (update (info (memory (returned_world (toy_rnext [0; 1; 0] 1 49)
                             (toy_world [] 0 0)))))
    (Z.lor (Z.lor 1 1024) 16) = 0.
Proof.
  apply (rnext_status_bits (E := toy_aria) 8 4096 0
           (toy_world [0; 1; 0] 1 49)
           (returned_value (toy_rnext [0; 1; 0] 1 49) 0)
           (returned_world (toy_rnext [0; 1; 0] 1 49) (toy_world [] 0 0))
           (trace (returned_world (toy_rnext [0; 1; 0] 1 49)
                     (toy_world [] 0 0)))).
  - vm_compute. reflexivity.
  - reflexivity.
  - vm_compute. discriminate.
  - reflexivity.
  - intros p rr Hin. vm_compute in Hin.
    repeat (destruct Hin as [Hin | Hin]; [ discriminate Hin | ]).
    exact Hin.
Defined.

(** X19, at a scan that skips an unmatched row and then meets one beyond
    the range. *)
Lemma index_condition_out_of_range_is_end_of_file_witness :
  exists w' d0 v u,
    toy_rnext [0; 3; 2; 1] 0 16 = Returns 137 w' /\
    my_errno (memory w') = 137 /\
    4096 = 4096 /\ v <> 0 /\ (u = [] \/ u = [Unlock 0]) /\
    [Called (Call_ma_check_index 0) 0;
     Called Call_fast_ma_readinfo 0;
     RdLock 0;
     Called Call_ma_test_if_changed 0;
     Called (Call_ma_search_next 8 8192) 0;
     Called Call_row_is_visible 1;
     Called (Call_ma_check_index_cond 0 4096) 0;
     Called (Call_ma_search_next 8 8192) 0;
     Called Call_row_is_visible 1;
     Called (Call_ma_check_index_cond 0 4096) 2;
     Unlock 0]
    = d0
      ++ [Called Call_row_is_visible v;
          Called (Call_ma_check_index_cond 0 4096) 2]
      ++ u /\
    (forall i c x, In (Called (Call_ma_check_index_cond i c) x) d0 -> x = 0) /\
    filter is_read_record
      [Called (Call_ma_check_index 0) 0;
       Called Call_fast_ma_readinfo 0;
       RdLock 0;
       Called Call_ma_test_if_changed 0;
       Called (Call_ma_search_next 8 8192) 0;
       Called Call_row_is_visible 1;
       Called (Call_ma_check_index_cond 0 4096) 0;
       Called (Call_ma_search_next 8 8192) 0;
       Called Call_row_is_visible 1;
       Called (Call_ma_check_index_cond 0 4096) 2;
       Unlock 0]
    = [].
Proof.
  apply (index_condition_out_of_range_is_end_of_file (E := toy_aria) 8 4096 0
           (toy_world [0; 3; 2; 1] 0 16)
           [Called (Call_ma_check_index 0) 0;
            Called Call_fast_ma_readinfo 0;
            RdLock 0;
            Called Call_ma_test_if_changed 0;
            Called (Call_ma_search_next 8 8192) 0;
            Called Call_row_is_visible 1;
            Called (Call_ma_check_index_cond 0 4096) 0;
            Called (Call_ma_search_next 8 8192) 0;
            Called Call_row_is_visible 1;
            Called (Call_ma_check_index_cond 0 4096) 2;
            Unlock 0]
           0 4096).
  - vm_compute. reflexivity.
  - do 9 right. left. reflexivity.
Defined.

(** X20, at an index of three rows none of which is visible: fuel for
    four rounds is enough. *)
Lemma rnext_settles_witness :
  settles (maria_rnext (E := toy_aria) 4 4096 0 (toy_world [0; 0; 0] 0 16)).
Proof.
  apply (rnext_settles (E := toy_aria) toy_rows_left toy_rows 4096 0
           (toy_world [0; 0; 0] 0 16)).
  - apply toy_probe_stays.
  - apply toy_next_moves_on.
  - apply toy_rows_stay.
  - apply toy_rows_left_le.
Defined.

